(** * gdnts CI report generator: a shallow embedding of [generate_reports.py]

    The development follows the layout of the Python module:
    - [Py]: the few Python built-ins the code relies on ([int], [str], [in],
      [str.lower], [re.search] for the two duration patterns, number
      formatting);
    - the k6 script parser ([parse_duration_to_seconds],
      [seconds_to_duration_str], threshold extraction, [calculate_vu_stages]);
    - the metrics collector ([wait_for_k6_metrics], [collect_k6_metrics],
      [collect_pod_metrics], [get_k6_test_time_range],
      [collect_per_pod_time_series]);
    - the SVG graph generator ([generate_resource_graph], [_get_pod_color],
      [generate_cpu_graph], [generate_memory_graph]);
    - what the HTML and the JUnit report generators compute before they
      write their files (status colours, graphs, test verdicts, counts);
    - the stage alignment of [main].

    Modelling conventions.
    - Python [int] is [Z]; [//] and [%] are [Z.div] and [Z.modulo] (both floor
      towards minus infinity, the remainder takes the sign of the divisor).
    - Python [float] and [Decimal] values are modelled by exact canonical
      rationals [Qc]: binary rounding, the 28 digit [Decimal] context, NaN and
      infinities are outside the model.
    - [str] is [string] (8 bit characters); on that range [\d] is exactly
      ['0'..'9'].
    - A [dict] that is only written and looked up is a [gmap]; a [dict] whose
      iteration order the code observes is an insertion ordered association
      list with distinct keys.
    - Fallible built-ins return [option]; [None] stands for a raised
      exception.
    - [Py.int_of_str] and [Py.str] convert between [str] and [int] at any
      length; the module [Limited] has the two conversions with the
      interpreter's default limit of 4300 digits, and the parser functions
      that convert, as the interpreter runs them. *)

From Stdlib Require Import Ascii QArith Qcanon Qcabs Qround Lqa.
From stdpp Require Import base numbers list sorting strings pretty gmap.

Local Open Scope Z_scope.

(** Arithmetic on [float] and [Decimal] values. *)
Declare Scope float_scope.
Delimit Scope float_scope with float.
Infix "+" := Qcplus : float_scope.
Infix "-" := Qcminus : float_scope.
Infix "*" := Qcmult : float_scope.
Infix "/" := Qcdiv : float_scope.
Infix "<" := Qclt : float_scope.
Infix "≤" := Qcle : float_scope.

(** ** Python built-ins *)

Module Py.

(** [c.isdigit()] restricted to one character, and its numeric value. *)
Definition digit_value (c : ascii) : option Z := Z.of_nat <$> Ascii.is_nat c.

Definition is_digit (c : ascii) : bool :=
  match Ascii.is_nat c with Some _ => true | None => false end.

(** [int(s)] on a run of decimal digits.  [int] raises [ValueError] on the
    empty string and on a string with a character that is not part of a
    number; sign, blanks and underscores never reach [int] in this program
    (its argument is always group 1 of a [(\d+)] match), so they are treated
    as errors here.  The interpreter's limit on the number of digits is not
    part of this definition: [Limited.int_of_str] has it. *)
Fixpoint int_digits (acc : Z) (s : string) : option Z :=
  match s with
  | EmptyString => Some acc
  | String c s' => d ← digit_value c; int_digits (acc * 10 + d) s'
  end.

Definition int_of_str (s : string) : option Z :=
  match s with
  | EmptyString => None
  | _ => int_digits 0 s
  end.

(** [str(n)], [f"{n}"] and [%d] for an [int]. *)
Definition str (n : Z) : string := pretty n.

(** [len(s)] *)
Definition len (s : string) : Z := Z.of_nat (String.length s).

(** [sub in s] on strings. *)
Fixpoint contains (sub s : string) : bool :=
  String.prefix sub s ||
  match s with
  | EmptyString => false
  | String _ s' => contains sub s'
  end.

(** [s.lower()]; only ['A'..'Z'] change on the 8 bit range that matters for
    the markers looked up in lowered names. *)
Definition lower_char (c : ascii) : ascii :=
  let n := N_of_ascii c in
  if ((65 <=? n) && (n <=? 90))%N then ascii_of_N (n + 32) else c.

Fixpoint lower (s : string) : string :=
  match s with
  | EmptyString => EmptyString
  | String c s' => String (lower_char c) (lower s')
  end.

(** The longest prefix of decimal digits, and what follows it. *)
Fixpoint span_digits (s : string) : string * string :=
  match s with
  | EmptyString => (EmptyString, EmptyString)
  | String c s' =>
      if is_digit c
      then let '(ds, rest) := span_digits s' in (String c ds, rest)
      else (EmptyString, s)
  end.

(** [re.match(r"(\d+)u", s)] for a unit letter [u]: group 1 when the pattern
    matches at the start of [s].  [\d+] is greedy; giving digits back never
    helps because the unit letter is not a digit. *)
Definition re_match_digits_unit (u : ascii) (s : string) : option string :=
  match span_digits s with
  | (String c ds, String c' _) =>
      if decide (c' = u) then Some (String c ds) else None
  | _ => None
  end.

(** [re.search(r"(\d+)u", s)]: group 1 of the leftmost match, [None] when
    the pattern matches nowhere. *)
Fixpoint re_search_digits_unit (u : ascii) (s : string) : option string :=
  match re_match_digits_unit u s with
  | Some g => Some g
  | None =>
      match s with
      | EmptyString => None
      | String _ s' => re_search_digits_unit u s'
      end
  end.

(** *** Numbers *)

(** [x // y] on floats: the floor of the quotient, as a float. *)
Definition floordiv (x y : Qc) : Qc := Qc_of_Z (Qfloor (x / y)%Qc).

(** [int(x)] on a [float] or a [Decimal]: truncation towards zero. *)
Definition int_of_float (x : Qc) : Z :=
  if decide (x < 0)%Qc then Qceiling x else Qfloor x.

(** Rounding to the nearest integer, ties to the even one: the rounding of
    [round], of the [.1f] format and of [datetime.fromtimestamp]. *)
Definition round_half_even (x : Qc) : Z :=
  let f := Qfloor x in
  let r := (x - Qc_of_Z f)%Qc in
  let half := (1 / 2)%Qc in
  if decide (r < half)%Qc then f
  else if decide (half < r)%Qc then f + 1
  else if Z.even f then f else f + 1.

(** [f"{x:.1f}"]: sign, integer part, one decimal. *)
Definition fmt_1f (x : Qc) : string :=
  let t := round_half_even (Qcabs x * Qc_of_Z 10)%Qc in
  (if decide (x < 0)%Qc then "-" else "")
    +:+ str (t `div` 10) +:+ "." +:+ str (t `mod` 10).

(** [%02d] for a non-negative number below 100 (strftime's [%H], [%M]). *)
Definition fmt_02d (n : Z) : string :=
  if bool_decide (n < 10) then "0" +:+ str n else str n.

(** [sum(l)]: starts from [0] and adds from the left. *)
Definition sum (l : list Qc) : Qc := foldl Qcplus 0%Qc l.

(** [max(l)] and [min(l)]: the first greatest (least) element; [ValueError]
    on an empty sequence. *)
Definition max (l : list Qc) : option Qc :=
  match l with
  | [] => None
  | x :: l' => Some (foldl (λ m y, if decide (m < y)%Qc then y else m) x l')
  end.

Definition min (l : list Qc) : option Qc :=
  match l with
  | [] => None
  | x :: l' => Some (foldl (λ m y, if decide (y < m)%Qc then y else m) x l')
  end.

(** [sorted(l)] on strings: ascending code point order.  Python's sort is a
    stable merge sort, as is [merge_sort]. *)
Definition sorted (l : list string) : list string := merge_sort String.le l.

(** [len(l)] and [range(n)] *)
Definition len_list {A} (l : list A) : Z := Z.of_nat (length l).

Definition range (n : Z) : list Z := Z.of_nat <$> seq 0 (Z.to_nat n).

(** [l[i]]: [IndexError] when [i] is out of range (negative indices do not
    occur in this program). *)
Definition index {A} (l : list A) (i : Z) : option A :=
  if bool_decide (0 ≤ i) then l !! Z.to_nat i else None.

(** String literals of the source that hold double quotes are written with
    an apostrophe in place of each double quote; [lit] puts the double
    quotes back.  No literal of the source holds an apostrophe. *)
Fixpoint lit (s : string) : string :=
  match s with
  | EmptyString => EmptyString
  | String c s' =>
      String (if decide (c = "'"%char) then "034"%char else c) (lit s')
  end.

(** [''.join(parts)] *)
Definition join (parts : list string) : string := foldr String.app "" parts.

(** *** [datetime] in UTC and [timedelta]

    An aware [datetime] in UTC is its number of microseconds since the
    epoch.  The year range of [datetime] is not modelled. *)
Record datetime := Datetime { micros : Z }.

Definition fromtimestamp (t : Qc) : datetime :=
  Datetime (round_half_even (t * Qc_of_Z 1000000)%Qc).

Definition timestamp_of (d : datetime) : Qc :=
  (Qc_of_Z (micros d) / Qc_of_Z 1000000)%Qc.

(** [d + timedelta(seconds=n)] for an [int] [n] *)
Definition add_seconds (d : datetime) (n : Z) : datetime :=
  Datetime (micros d + n * 1000000).

(** [d.strftime("%H:%M")] *)
Definition strftime_HM (d : datetime) : string :=
  let second_of_day := (micros d `div` 1000000) `mod` 86400 in
  fmt_02d (second_of_day `div` 3600) +:+ ":"
    +:+ fmt_02d ((second_of_day `mod` 3600) `div` 60).

(** [f"{x:.Nf}"] for a [Decimal]: sign, integer part and [digits] decimals,
    rounded half to even as the default [decimal] context does. *)
Fixpoint zeros (n : nat) : string :=
  match n with
  | O => EmptyString
  | S n' => String "0" (zeros n')
  end.

Definition fmt_f (digits : nat) (x : Qc) : string :=
  let scale := 10 ^ Z.of_nat digits in
  let t := round_half_even (Qcabs x * Qc_of_Z scale)%Qc in
  let fraction := str (t `mod` scale) in
  (if decide (x < 0)%Qc then "-" else "")
    +:+ str (t `div` scale) +:+ "."
    +:+ zeros (digits - String.length fraction) +:+ fraction.

End Py.

(** ** K6 script parser: durations *)

(** [parse_duration_to_seconds]: the result is [None] exactly when one of the
    two [int(...)] conversions raises.  The conversions here are the ones
    without the limit on digits; [Limited.parse_duration_to_seconds] below
    has the function with the limit. *)
Definition parse_duration_to_seconds (duration_str : string) : option Z :=
  let total_seconds := 0 in
  total_seconds ←
    match Py.re_search_digits_unit "m"%char duration_str with
    | Some g => n ← Py.int_of_str g; Some (total_seconds + n * 60)
    | None => Some total_seconds
    end;
  match Py.re_search_digits_unit "s"%char duration_str with
  | Some g => n ← Py.int_of_str g; Some (total_seconds + n)
  | None => Some total_seconds
  end.

Definition seconds_to_duration_str (seconds : Z) : string :=
  let minutes := seconds `div` 60 in
  let remaining_seconds := seconds `mod` 60 in
  if bool_decide (0 < minutes) && bool_decide (0 < remaining_seconds)
  then Py.str minutes +:+ "m" +:+ Py.str remaining_seconds +:+ "s"
  else if bool_decide (0 < minutes)
  then Py.str minutes +:+ "m"
  else Py.str remaining_seconds +:+ "s".

(** A digit immediately followed by the unit letter [u] occurs in [s]: the
    string has a component of that unit. *)
Fixpoint has_component (u : ascii) (s : string) : bool :=
  match s with
  | String c ((String c' _) as s') =>
      (Py.is_digit c && bool_decide (c' = u)) || has_component u s'
  | _ => false
  end.


(** ** Data classes *)

Record K6Stage := mkK6Stage {
  duration : string;
  target : Z;
}.

Record K6TestConfig := mkK6TestConfig {
  stages : list K6Stage;
  total_duration : string;
  peak_vus : Z;
  targets : list string;
  thresholds : gmap string string;
}.

Record K6Metrics := mkK6Metrics {
  total_requests : Z;
  request_rate : Qc;
  p95_latency_ms : Qc;
  avg_latency_ms : Qc;
  min_latency_ms : Qc;
  max_latency_ms : Qc;
  error_rate : Qc;
  failed_requests : Z;
}.

Module PodResourceMetrics.
Record t := mk {
  pod_name : string;
  avg_cpu_millicores : Qc;
  max_cpu_millicores : Qc;
  avg_memory_mb : Qc;
  max_memory_mb : Qc;
}.
End PodResourceMetrics.

Module CumulativeResourceMetrics.
Record t := mk {
  avg_cpu_millicores : Qc;
  max_cpu_millicores : Qc;
  avg_memory_mb : Qc;
  max_memory_mb : Qc;
}.
End CumulativeResourceMetrics.

Record TimeSeriesPoint := mkTimeSeriesPoint {
  timestamp : Qc;
  value : Qc;
}.

(** [dict[str, list[TimeSeriesPoint]]], in insertion order, keys distinct. *)
Abbreviation series_dict := (list (string * list TimeSeriesPoint)).

Record PerPodTimeSeriesData := mkPerPodTimeSeriesData {
  cumulative_cpu : list TimeSeriesPoint;
  cumulative_memory : list TimeSeriesPoint;
  per_pod_cpu : series_dict;
  per_pod_memory : series_dict;
}.

Record VUStage := mkVUStage {
  start_timestamp : Qc;
  end_timestamp : Qc;
  vus : Z;
}.

(** ** K6 script parser: thresholds, totals and stage windows *)

(** The loop of [parse_k6_script] over [threshold_pattern.finditer(...)].
    [matches] lists [(match.group(1), match.group(2))] for the matches in the
    order [finditer] yields them, which is their order in the text. *)
Definition threshold_step (thresholds : gmap string string)
    (m : string * string) : gmap string string :=
  let key := m.1 in
  let value := m.2 in
  if Py.contains "duration" key then <["p95" := value]> thresholds
  else if Py.contains "failed" key then <["error_rate" := value]> thresholds
  else thresholds.

Definition extract_thresholds (thresholds_match : option (list (string * string)))
    : gmap string string :=
  let thresholds : gmap string string := ∅ in
  match thresholds_match with
  | Some matches => foldl threshold_step thresholds matches
  | None => thresholds
  end.

(** The canonical threshold name a key is stored under, if any. *)
Definition threshold_kind (key : string) : option string :=
  if Py.contains "duration" key then Some "p95"
  else if Py.contains "failed" key then Some "error_rate"
  else None.

(** [sum(parse_duration_to_seconds(s.duration) for s in stages)] *)
Fixpoint sum_durations (stages : list K6Stage) (acc : Z) : option Z :=
  match stages with
  | [] => Some acc
  | s :: rest =>
      d ← parse_duration_to_seconds (duration s);
      sum_durations rest (acc + d)
  end.

(** [max((s.target for s in stages), default=0)] *)
Definition max_target (stages : list K6Stage) : Z :=
  match stages with
  | [] => 0
  | s :: rest => foldl (λ m s', if bool_decide (m < target s') then target s' else m)
                   (target s) rest
  end.

(** [parse_k6_script] after the three regular expression scans of the script
    text: [stages] and [targets] are what the scans found, [thresholds_match]
    the key/value matches inside the thresholds block ([None] without one). *)
Definition parse_k6_script (stages : list K6Stage) (targets : list string)
    (thresholds_match : option (list (string * string))) : option K6TestConfig :=
  total_seconds ← sum_durations stages 0;
  let total_duration := seconds_to_duration_str total_seconds in
  let peak_vus := max_target stages in
  let thresholds := extract_thresholds thresholds_match in
  Some (mkK6TestConfig stages total_duration peak_vus targets thresholds).

(** [calculate_vu_stages]: the loop carries [current_time]; the windows come
    out in stage order. *)
Fixpoint calculate_vu_stages (test_start_time : Py.datetime)
    (stages : list K6Stage) : option (list VUStage) :=
  match stages with
  | [] => Some []
  | stage :: rest =>
      let current_time := test_start_time in
      duration_seconds ← parse_duration_to_seconds (duration stage);
      let end_time := Py.add_seconds current_time duration_seconds in
      result ← calculate_vu_stages end_time rest;
      Some (mkVUStage (Py.timestamp_of current_time) (Py.timestamp_of end_time)
              (target stage) :: result)
  end.

(** ** The interpreter's limit on integer string conversion

    CPython refuses to convert between [str] and [int] in base 10 beyond
    [sys.int_info.default_max_str_digits], 4300 digits, with a [ValueError].
    [Py.int_of_str] and [Py.str] are the conversions with the limit lifted;
    this module has the conversions with the default limit and, with them,
    the functions of the parser that convert. *)

Module Limited.

Definition int_max_str_digits : Z := 4300.

(** [int(s)] on a run of decimal digits; leading zeros count as digits. *)
Definition int_of_str (s : string) : option Z :=
  if bool_decide (int_max_str_digits < Py.len s) then None
  else Py.int_of_str s.

(** [str(n)] and [f"{n}"] for an [int]; the sign does not count as a
    digit. *)
Definition str (n : Z) : option string :=
  if bool_decide (int_max_str_digits < Py.len (Py.str (Z.abs n))) then None
  else Some (Py.str n).

Definition parse_duration_to_seconds (duration_str : string) : option Z :=
  let total_seconds := 0 in
  total_seconds ←
    match Py.re_search_digits_unit "m"%char duration_str with
    | Some g => n ← int_of_str g; Some (total_seconds + n * 60)
    | None => Some total_seconds
    end;
  match Py.re_search_digits_unit "s"%char duration_str with
  | Some g => n ← int_of_str g; Some (total_seconds + n)
  | None => Some total_seconds
  end.

Definition seconds_to_duration_str (seconds : Z) : option string :=
  let minutes := seconds `div` 60 in
  let remaining_seconds := seconds `mod` 60 in
  if bool_decide (0 < minutes) && bool_decide (0 < remaining_seconds)
  then m ← str minutes; s ← str remaining_seconds;
       Some (m +:+ "m" +:+ s +:+ "s")
  else if bool_decide (0 < minutes)
  then m ← str minutes; Some (m +:+ "m")
  else s ← str remaining_seconds; Some (s +:+ "s").

Fixpoint sum_durations (stages : list K6Stage) (acc : Z) : option Z :=
  match stages with
  | [] => Some acc
  | s :: rest =>
      d ← parse_duration_to_seconds (duration s);
      sum_durations rest (acc + d)
  end.

(** The loop over [stage_pattern.finditer(...)]: [stage_matches] lists
    [(match.group(1), match.group(2))] for the matches in text order; the
    target of a stage is [int(match.group(2))]. *)
Fixpoint stages_of (stage_matches : list (string * string))
    : option (list K6Stage) :=
  match stage_matches with
  | [] => Some []
  | m :: rest =>
      target ← int_of_str m.2;
      stages ← stages_of rest;
      Some (mkK6Stage m.1 target :: stages)
  end.

(** [parse_k6_script] after the regular expression scans of the script
    text: [stage_matches] are the matches inside the stages block (none
    without one), [targets] and [thresholds_match] are as above. *)
Definition parse_k6_script (stage_matches : list (string * string))
    (targets : list string)
    (thresholds_match : option (list (string * string))) : option K6TestConfig :=
  stages ← stages_of stage_matches;
  total_seconds ← sum_durations stages 0;
  total_duration ← seconds_to_duration_str total_seconds;
  let peak_vus := max_target stages in
  let thresholds := extract_thresholds thresholds_match in
  Some (mkK6TestConfig stages total_duration peak_vus targets thresholds).

End Limited.

(** ** [main]: aligning the stage windows

    The part of [main] that computes [vu_stages] from the parsed script, the
    answer of [get_k6_test_time_range] and the collected time series.
    [test_start_ts] is the estimated start of the fallback branch. *)
Definition estimated_test_start (cumulative_cpu : list TimeSeriesPoint)
    (stages : list K6Stage) : option Qc :=
  test_duration_seconds ← sum_durations stages 0;
  actual_end ← Py.max (timestamp <$> cumulative_cpu);
  Some (actual_end - Qc_of_Z test_duration_seconds)%Qc.

Definition main_vu_stages (test_config : option K6TestConfig)
    (k6_time_range : option (Py.datetime * Py.datetime))
    (per_pod_time_series : PerPodTimeSeriesData) : option (list VUStage) :=
  let vu_stages : list VUStage := [] in
  match test_config with
  | Some test_config =>
      match k6_time_range with
      | Some (test_start_time, _) =>
          calculate_vu_stages test_start_time (stages test_config)
      | None =>
          match cumulative_cpu per_pod_time_series with
          | _ :: _ =>
              test_start_ts ← estimated_test_start
                                (cumulative_cpu per_pod_time_series)
                                (stages test_config);
              let vu_start_time := Py.fromtimestamp test_start_ts in
              calculate_vu_stages vu_start_time (stages test_config)
          | [] => Some vu_stages
          end
      end
  | None => Some vu_stages
  end.

(** ** Metrics collector *)

Section MetricsCollector.

(** The Prometheus server as the collector sees it: what [_query_scalar]
    returns for a PromQL expression ([None] for no data or a failed
    query). *)
Variable _query_scalar : string → option Qc.

Definition _query_scalar_or_zero (promql : string) : Qc :=
  match _query_scalar promql with
  | Some result => result
  | None => 0%Qc
  end.

Definition collect_k6_metrics : K6Metrics :=
  let total_requests :=
    Py.int_of_float (_query_scalar_or_zero "sum(k6_http_reqs_total)") in
  let request_rate :=
    _query_scalar_or_zero "sum(rate(k6_http_reqs_total[5m]))" in
  let p95_latency :=
    _query_scalar_or_zero
      "histogram_quantile(0.95, sum(rate(k6_http_req_duration_seconds_bucket[5m])) by (le)) * 1000" in
  let p95_latency :=
    if decide (p95_latency = 0%Qc)
    then _query_scalar_or_zero "k6_http_req_duration_p95 * 1000"
    else p95_latency in
  let avg_latency :=
    _query_scalar_or_zero
      "(sum(rate(k6_http_req_duration_seconds_sum[5m])) / sum(rate(k6_http_req_duration_seconds_count[5m]))) * 1000" in
  let min_latency := _query_scalar_or_zero "k6_http_req_duration_min * 1000" in
  let max_latency := _query_scalar_or_zero "k6_http_req_duration_max * 1000" in
  let failed_requests :=
    Py.int_of_float (_query_scalar_or_zero "sum(k6_http_req_failed_total)") in
  let error_rate :=
    if bool_decide (0 < total_requests)
    then (Qc_of_Z failed_requests / Qc_of_Z total_requests)%Qc
    else 0%Qc in
  mkK6Metrics total_requests request_rate p95_latency avg_latency
    min_latency max_latency error_rate failed_requests.

End MetricsCollector.

(** One element of an instant query result: the [pod] label of its metric, if
    it has one, and its sample value. *)
Record sample := mkSample {
  metric_pod : option string;
  sample_value : Qc;
}.

Definition pod_of (item : sample) : string := default "unknown" (metric_pod item).

(** The [pods] dictionary of [collect_pod_metrics]; an entry is the pair of
    its ["cpu"] and ["mem"] values. *)
Definition add_cpu (pods : gmap string (Qc * Qc)) (item : sample)
    : gmap string (Qc * Qc) :=
  <[pod_of item := (sample_value item, 0%Qc)]> pods.

Definition add_mem (pods : gmap string (Qc * Qc)) (item : sample)
    : gmap string (Qc * Qc) :=
  match pods !! pod_of item with
  | Some data => <[pod_of item := (data.1, sample_value item)]> pods
  | None => <[pod_of item := (0%Qc, sample_value item)]> pods
  end.

(** [sorted(pods.items())]: the keys are distinct, so the order is the order
    of the names. *)
Definition sorted_items (pods : gmap string (Qc * Qc)) : list (string * (Qc * Qc)) :=
  merge_sort (λ a b, String.le a.1 b.1) (map_to_list pods).

(** [collect_pod_metrics]; [cpu_response] and [mem_response] are the outcomes
    of the two [custom_query] calls, [None] when the call raises. *)
Definition collect_pod_metrics (cpu_response mem_response : option (list sample))
    : list PodResourceMetrics.t * CumulativeResourceMetrics.t :=
  let '(cpu_results, mem_results) :=
    match cpu_response, mem_response with
    | Some c, Some m => (c, m)
    | _, _ => ([], [])
    end in
  let pods : gmap string (Qc * Qc) := ∅ in
  let pods := foldl add_cpu pods cpu_results in
  let pods := foldl add_mem pods mem_results in
  let pod_metrics :=
    (λ '(name, data), PodResourceMetrics.mk name data.1 data.1 data.2 data.2)
      <$> sorted_items pods in
  let total_cpu := Py.sum (PodResourceMetrics.avg_cpu_millicores <$> pod_metrics) in
  let total_mem := Py.sum (PodResourceMetrics.avg_memory_mb <$> pod_metrics) in
  let max_cpu :=
    default 0%Qc (Py.max (PodResourceMetrics.max_cpu_millicores <$> pod_metrics)) in
  let max_mem :=
    default 0%Qc (Py.max (PodResourceMetrics.max_memory_mb <$> pod_metrics)) in
  let cumulative := CumulativeResourceMetrics.mk total_cpu total_cpu total_mem total_mem in
  (pod_metrics, cumulative).

(** [wait_for_k6_metrics]: [answers attempt] is what [_query_scalar] returns
    at the attempt of that number.  The result is the returned flag and the
    number of calls of [time.sleep]. *)
Fixpoint wait_attempts (answers : nat → option Qc) (attempts : list nat)
    : bool * nat :=
  match attempts with
  | [] => (false, 0%nat)
  | attempt :: rest =>
      match answers attempt with
      | Some result =>
          if decide (0 < result)%Qc then (true, 0%nat)
          else prod_map id S (wait_attempts answers rest)
      | None => prod_map id S (wait_attempts answers rest)
      end
  end.

Definition wait_for_k6_metrics (answers : nat → option Qc) (max_attempts : Z)
    : bool * nat :=
  wait_attempts answers (seq 1 (Z.to_nat max_attempts)).

(** One sample of a range query result as the collector reads it:
    [float(ts)] and [float(value)], [None] where the conversion raises. *)
Record raw_point := mkRawPoint {
  raw_ts : option Qc;
  raw_value : option Qc;
}.

(** One series of a range query result: the [pod] label of its metric, if it
    has one, and its ["values"] (empty when the key is missing). *)
Record raw_series := mkRawSeries {
  series_pod : option string;
  series_values : list raw_point;
}.

(** [[float(ts) for ts, val in values if float(val) > 0]]: the condition is
    evaluated first; a conversion that raises ends the comprehension. *)
Fixpoint active_times (values : list raw_point) : option (list Qc) :=
  match values with
  | [] => Some []
  | pt :: rest =>
      val ← raw_value pt;
      if decide (0 < val)%Qc
      then ts ← raw_ts pt; times ← active_times rest; Some (ts :: times)
      else active_times rest
  end.

(** [get_k6_test_time_range]; [response] is the outcome of the range query,
    [None] when it raises, otherwise the ["values"] of each series.  Every
    exception inside the method ends in [return None]. *)
Definition get_k6_test_time_range (response : option (list (list raw_point)))
    : option (Py.datetime * Py.datetime) :=
  match response with
  | Some (values :: _) =>
      match active_times values with
      | Some (t :: times) =>
          let active_times := t :: times in
          test_start ← Py.fromtimestamp <$> Py.min active_times;
          test_end ← Py.fromtimestamp <$> Py.max active_times;
          Some (test_start, test_end)
      | _ => None
      end
  | _ => None
  end.

(** [collect_per_pod_time_series].  One iteration of the loop over the
    values of a series: it carries [points] and the dictionary of the sums by
    timestamp; a sample whose conversion raises is skipped. *)
Definition point_step (state : list TimeSeriesPoint * gmap Qc Qc)
    (pt : raw_point) : list TimeSeriesPoint * gmap Qc Qc :=
  let '(points, by_timestamp) := state in
  match raw_ts pt with
  | Some ts_float =>
      match raw_value pt with
      | Some val_float =>
          (points ++ [mkTimeSeriesPoint ts_float val_float],
           <[ts_float := (default 0%Qc (by_timestamp !! ts_float) + val_float)%Qc]>
             by_timestamp)
      | None => state
      end
  | None => state
  end.

(** [d[key] = points] on an insertion ordered dictionary: a key that is
    present keeps its place. *)
Fixpoint dict_set (d : series_dict) (key : string)
    (points : list TimeSeriesPoint) : series_dict :=
  match d with
  | [] => [(key, points)]
  | (k, v) :: rest =>
      if decide (k = key) then (k, points) :: rest
      else (k, v) :: dict_set rest key points
  end.

(** One iteration of the loop over the series of a result. *)
Definition series_step (state : series_dict * gmap Qc Qc)
    (series : raw_series) : series_dict * gmap Qc Qc :=
  let '(per_pod, by_timestamp) := state in
  let pod_name := default "unknown" (series_pod series) in
  let '(points, by_timestamp) :=
    foldl point_step ([], by_timestamp) (series_values series) in
  let per_pod :=
    match points with
    | [] => per_pod
    | _ :: _ => dict_set per_pod pod_name points
    end in
  (per_pod, by_timestamp).

(** [sorted(by_timestamp.items())]: the keys are distinct, so the order is
    the order of the timestamps. *)
Definition by_key (a b : Qc * Qc) : Prop := (a.1 ≤ b.1)%Qc.

#[global] Instance by_key_dec : RelDecision by_key :=
  λ a b, decide (a.1 ≤ b.1)%Qc.

Definition cumulative_points_of (by_timestamp : gmap Qc Qc)
    : list TimeSeriesPoint :=
  (λ item, mkTimeSeriesPoint item.1 item.2)
    <$> merge_sort by_key (map_to_list by_timestamp).

(** The block that the method runs once for the CPU result and once, with
    other names, for the memory result. *)
Definition collect_series (result : list raw_series)
    : series_dict * list TimeSeriesPoint :=
  let '(per_pod, by_timestamp) := foldl series_step ([], ∅) result in
  (per_pod, cumulative_points_of by_timestamp).

(** [response] is the outcome of the two range queries, [None] when one of
    them raises; the results are taken to be lists of series of the shape
    that Prometheus returns. *)
Definition collect_per_pod_time_series
    (response : option (list raw_series * list raw_series))
    : PerPodTimeSeriesData :=
  match response with
  | Some (cpu_result, mem_result) =>
      let '(per_pod_cpu, cumulative_cpu) := collect_series cpu_result in
      let '(per_pod_memory, cumulative_memory) := collect_series mem_result in
      mkPerPodTimeSeriesData cumulative_cpu cumulative_memory
        per_pod_cpu per_pod_memory
  | None => mkPerPodTimeSeriesData [] [] [] []
  end.

(** ** SVG graph generator *)

Module SVGGraphGenerator.

Definition WIDTH : Z := 900.
Definition HEIGHT : Z := 320.
Definition MARGIN_LEFT : Z := 60.
Definition MARGIN_RIGHT : Z := 20.
Definition MARGIN_TOP : Z := 50.
Definition MARGIN_BOTTOM : Z := 50.
Definition GRAPH_WIDTH : Z := WIDTH - MARGIN_LEFT - MARGIN_RIGHT.
Definition GRAPH_HEIGHT : Z := HEIGHT - MARGIN_TOP - MARGIN_BOTTOM.

Definition FOO_COLORS : list string := ["#8b5cf6"; "#a78bfa"; "#c4b5fd"].
Definition BAR_COLORS : list string := ["#22c55e"; "#4ade80"; "#86efac"].
Definition CUMULATIVE_COLOR : string := "#3b82f6".
Definition CUMULATIVE_FILL : string := "#93c5fd".
Definition VU_BG_COLORS : list string := ["#fafafa"; "#f5f5f5"].

Local Coercion Qc_of_Z : Z >-> Qc.
Local Open Scope float_scope.
Local Abbreviation f1 := Py.fmt_1f (only parsing).
Local Abbreviation d := Py.str (only parsing).
Local Abbreviation q := Py.lit (only parsing).

(** [_round_to_nearest(value, step)] *)
Definition _round_to_nearest (value : Qc) (step : Z) : Z :=
  Py.int_of_float (Py.floordiv (value + step - 1%Z) step * step).

(** The series of a dictionary: [per_pod_data.keys()], [.values()] and
    [.get(name, [])]. *)
Definition keys (per_pod_data : series_dict) : list string := per_pod_data.*1.

Definition values (per_pod_data : series_dict) : list (list TimeSeriesPoint) :=
  per_pod_data.*2.

Fixpoint get (per_pod_data : series_dict) (pod_name : string)
    : list TimeSeriesPoint :=
  match per_pod_data with
  | [] => []
  | (name, points) :: rest =>
      if decide (name = pod_name) then points else get rest pod_name
  end.

(** [all_values]: the values of the cumulative series followed by those of
    each per-pod series. *)
Definition all_values (cumulative_points : list TimeSeriesPoint)
    (per_pod_data : series_dict) : list Qc :=
  (value <$> cumulative_points)
    ++ concat ((λ points : list TimeSeriesPoint, value <$> points)
                <$> values per_pod_data).

(** [y_max] as [generate_resource_graph] computes it. *)
Definition y_max_of (cumulative_points : list TimeSeriesPoint)
    (per_pod_data : series_dict) : Z :=
  let all_values := all_values cumulative_points per_pod_data in
  let max_value := default (10%Z : Qc) (Py.max all_values) in
  let y_max := _round_to_nearest (max_value * (11%Z / 10%Z)) 10 in
  if decide (y_max = 0%Z) then 10%Z else y_max.

(** The two closures [to_svg_x] and [to_svg_y] with what they capture. *)
Definition to_svg_x (min_time time_range : Qc) (timestamp : Qc) : Qc :=
  MARGIN_LEFT + ((timestamp - min_time) / time_range) * GRAPH_WIDTH.

Definition to_svg_y (y_max : Z) (value : Qc) : Qc :=
  MARGIN_TOP + GRAPH_HEIGHT - (value / y_max) * GRAPH_HEIGHT.

(** The grouping of the pod names. *)
Definition foo_pods (per_pod_data : series_dict) : list string :=
  Py.sorted (filter (λ p, Is_true (Py.contains "foo" (Py.lower p))) (keys per_pod_data)).

Definition bar_pods (per_pod_data : series_dict) : list string :=
  Py.sorted (filter (λ p, Is_true (Py.contains "bar" (Py.lower p))) (keys per_pod_data)).

Definition other_pods (per_pod_data : series_dict) : list string :=
  Py.sorted (filter (λ p, (p ∉ foo_pods per_pod_data) ∧ (p ∉ bar_pods per_pod_data))
               (keys per_pod_data)).

Definition pod_groups (per_pod_data : series_dict)
    : list (list string * list string) :=
  [ (foo_pods per_pod_data, FOO_COLORS);
    (bar_pods per_pod_data, BAR_COLORS);
    (other_pods per_pod_data, FOO_COLORS) ].

Definition legend_items (per_pod_data : series_dict) : list (string * string) :=
  [("Cumulative", CUMULATIVE_COLOR)]
    ++ (if decide (foo_pods per_pod_data = []) then []
        else [("foo pods", default "" (head FOO_COLORS))])
    ++ (if decide (bar_pods per_pod_data = []) then []
        else [("bar pods", default "" (head BAR_COLORS))]).

(** *** The parts of the image, in the order they are appended *)

Section Parts.
Variables (min_time max_time time_range : Qc) (y_max : Z).

Local Abbreviation X := (to_svg_x min_time time_range) (only parsing).
Local Abbreviation Y := (to_svg_y y_max) (only parsing).

Definition header : list string :=
  [ q "<svg viewBox='0 0 " +:+ d WIDTH +:+ " " +:+ d HEIGHT
      +:+ q "' xmlns='http://www.w3.org/2000/svg' ";
    q "style='width:100%;max-width:" +:+ d WIDTH
      +:+ q "px;height:auto;font-family:-apple-system,BlinkMacSystemFont,sans-serif;'>";
    q "<rect width='" +:+ d WIDTH +:+ q "' height='" +:+ d HEIGHT
      +:+ q "' fill='#ffffff' rx='12'/>" ].

(** One iteration of the loop over [enumerate(vu_stages)]. *)
Definition vu_band (i : nat) (stage : VUStage) : option (list string) :=
  if decide (max_time ≤ start_timestamp stage ∨ end_timestamp stage ≤ min_time)%Qc
  then Some []
  else
    let start_x :=
      X (if decide (start_timestamp stage < min_time)%Qc
         then min_time else start_timestamp stage) in
    let end_x :=
      X (if decide (max_time < end_timestamp stage)%Qc
         then max_time else end_timestamp stage) in
    bg_color ← Py.index VU_BG_COLORS (Z.of_nat i `mod` Py.len_list VU_BG_COLORS);
    let mid_x := (start_x + end_x) / 2%Z in
    Some
      [ q "<rect x='" +:+ f1 start_x +:+ q "' y='" +:+ d MARGIN_TOP +:+ q "' "
          +:+ q "width='" +:+ f1 (end_x - start_x) +:+ q "' height='"
          +:+ d GRAPH_HEIGHT +:+ q "' "
          +:+ q "fill='" +:+ bg_color +:+ q "'/>";
        q "<text x='" +:+ f1 mid_x +:+ q "' y='" +:+ d (MARGIN_TOP - 8)%Z +:+ q "' "
          +:+ q "text-anchor='middle' font-size='10' fill='#888'>"
          +:+ d (vus stage) +:+ " VUs</text>" ].

Definition vu_bands (vu_stages : list VUStage) : option (list string) :=
  @concat string <$> mapM id (imap vu_band vu_stages).

(** One iteration of the loop over [range(num_y_lines + 1)]. *)
Definition grid_line (num_y_lines : Z) (i : Z) : list string :=
  let y_val := ((i : Qc) / num_y_lines) * y_max in
  let y_pos := Y y_val in
  [ q "<line x1='" +:+ d MARGIN_LEFT +:+ q "' y1='" +:+ f1 y_pos +:+ q "' "
      +:+ q "x2='" +:+ d (WIDTH - MARGIN_RIGHT)%Z +:+ q "' y2='" +:+ f1 y_pos +:+ q "' "
      +:+ q "stroke='#e5e5e5' stroke-width='1'/>";
    q "<text x='" +:+ d (MARGIN_LEFT - 8)%Z +:+ q "' y='" +:+ f1 (y_pos + 4%Z) +:+ q "' "
      +:+ q "text-anchor='end' font-size='11' fill='#888'>"
      +:+ d (Py.int_of_float y_val) +:+ "</text>" ].

Definition grid_lines : list string :=
  let num_y_lines := 5%Z in
  concat (grid_line num_y_lines <$> Py.range (num_y_lines + 1)%Z).

(** [path_data] of a series that starts with [first]. *)
Definition path_data (first : TimeSeriesPoint) (rest : list TimeSeriesPoint)
    : string :=
  foldl (λ path_data pt,
           path_data +:+ " L " +:+ f1 (X (timestamp pt)) +:+ ","
             +:+ f1 (Y (value pt)))
    ("M " +:+ f1 (X (timestamp first)) +:+ "," +:+ f1 (Y (value first)))
    rest.

Definition cumulative_area (cumulative_points : list TimeSeriesPoint)
    : option (list string) :=
  match cumulative_points with
  | [] => Some []
  | first :: rest =>
      let path_data := path_data first rest in
      final ← last cumulative_points;
      let fill_path :=
        path_data
          +:+ " L " +:+ f1 (X (timestamp final)) +:+ ","
          +:+ f1 ((MARGIN_TOP + GRAPH_HEIGHT)%Z : Qc)
          +:+ " L " +:+ f1 (X (timestamp first)) +:+ ","
          +:+ f1 ((MARGIN_TOP + GRAPH_HEIGHT)%Z : Qc) +:+ " Z" in
      Some
        [ q "<path d='" +:+ fill_path +:+ q "' fill='" +:+ CUMULATIVE_FILL
            +:+ q "' fill-opacity='0.5'/>";
          q "<path d='" +:+ path_data +:+ q "' fill='none' stroke='"
            +:+ CUMULATIVE_COLOR +:+ q "' stroke-width='2.5'/>" ]
  end.

(** One iteration of the loop over [enumerate(pods)] for one group. *)
Definition pod_line (per_pod_data : series_dict) (colors : list string)
    (i : nat) (pod_name : string) : option (list string) :=
  match get per_pod_data pod_name with
  | [] => Some []
  | first :: rest =>
      color ← Py.index colors (Z.of_nat i `mod` Py.len_list colors);
      let path_data := path_data first rest in
      Some [ q "<path d='" +:+ path_data +:+ q "' fill='none' stroke='" +:+ color
               +:+ q "' stroke-width='1.5' stroke-opacity='0.7'/>" ]
  end.

Definition pod_lines (per_pod_data : series_dict) : option (list string) :=
  @concat string <$>
    mapM (λ '(pods, colors),
            @concat string <$> mapM id (imap (pod_line per_pod_data colors) pods))
      (pod_groups per_pod_data).

Definition axes : list string :=
  [ q "<line x1='" +:+ d MARGIN_LEFT +:+ q "' y1='" +:+ d MARGIN_TOP +:+ q "' "
      +:+ q "x2='" +:+ d MARGIN_LEFT +:+ q "' y2='"
      +:+ d (MARGIN_TOP + GRAPH_HEIGHT)%Z +:+ q "' "
      +:+ q "stroke='#1a1a1a' stroke-width='1'/>";
    q "<line x1='" +:+ d MARGIN_LEFT +:+ q "' y1='"
      +:+ d (MARGIN_TOP + GRAPH_HEIGHT)%Z +:+ q "' "
      +:+ q "x2='" +:+ d (WIDTH - MARGIN_RIGHT)%Z +:+ q "' y2='"
      +:+ d (MARGIN_TOP + GRAPH_HEIGHT)%Z +:+ q "' "
      +:+ q "stroke='#1a1a1a' stroke-width='1'/>" ].

(** [WIDTH / 2] and [HEIGHT / 2] are the floats 450.0 and 160.0, whose
    [str] has one decimal. *)
Definition title_and_label (title y_label : string) : list string :=
  [ q "<text x='" +:+ f1 ((WIDTH : Qc) / 2%Z) +:+ q "' y='24' text-anchor='middle' "
      +:+ q "font-size='16' font-weight='600' fill='#1a1a1a'>" +:+ title
      +:+ "</text>";
    q "<text x='14' y='" +:+ f1 ((HEIGHT : Qc) / 2%Z) +:+ q "' text-anchor='middle' "
      +:+ q "font-size='12' fill='#666' transform='rotate(-90 14,"
      +:+ f1 ((HEIGHT : Qc) / 2%Z) +:+ q ")'>" +:+ y_label +:+ "</text>" ].

(** One iteration of the loop over [range(num_x_labels + 1)]. *)
Definition x_label (num_x_labels : Z) (i : Z) : list string :=
  let ts := min_time + ((i : Qc) / num_x_labels) * time_range in
  let x_pos := X ts in
  let time_str := Py.strftime_HM (Py.fromtimestamp ts) in
  [ q "<text x='" +:+ f1 x_pos +:+ q "' y='"
      +:+ d (MARGIN_TOP + GRAPH_HEIGHT + 20)%Z +:+ q "' "
      +:+ q "text-anchor='middle' font-size='11' fill='#888'>" +:+ time_str
      +:+ "</text>" ].

Definition x_labels : list string :=
  let num_x_labels := 6%Z in
  concat (x_label num_x_labels <$> Py.range (num_x_labels + 1)%Z).

End Parts.

(** The loop over [legend_items]; it carries [legend_x]. *)
Fixpoint legend (legend_y legend_x : Z) (items : list (string * string))
    : list string :=
  match items with
  | [] => []
  | (label, color) :: rest =>
      [ q "<rect x='" +:+ d legend_x +:+ q "' y='" +:+ d (legend_y - 8)%Z
          +:+ q "' width='12' height='12' fill='" +:+ color +:+ q "' rx='2'/>";
        q "<text x='" +:+ d (legend_x + 16)%Z +:+ q "' y='" +:+ d legend_y
          +:+ q "' font-size='11' fill='#666'>" +:+ label +:+ "</text>" ]
        ++ legend legend_y (legend_x + (Py.len label * 7 + 40))%Z rest
  end.

Definition _empty_graph (title message : string) : string :=
  let nl := String "010"%char "" in
  q "<svg viewBox='0 0 " +:+ d WIDTH +:+ " " +:+ d HEIGHT
    +:+ q "' xmlns='http://www.w3.org/2000/svg' style='width:100%;max-width:"
    +:+ d WIDTH +:+ q "px;height:auto;'>" +:+ nl
    +:+ q "  <rect width='" +:+ d WIDTH +:+ q "' height='" +:+ d HEIGHT
    +:+ q "' fill='#fafafa' rx='12'/>" +:+ nl
    +:+ q "  <text x='" +:+ f1 ((WIDTH : Qc) / 2%Z)
    +:+ q "' y='30' text-anchor='middle' font-size='14' font-weight='600' fill='#1a1a1a'>"
    +:+ title +:+ "</text>" +:+ nl
    +:+ q "  <rect x='40' y='50' width='" +:+ d (WIDTH - 80)%Z +:+ q "' height='"
    +:+ d (HEIGHT - 80)%Z +:+ q "' fill='#ffffff' stroke='#e5e5e5' rx='8'/>" +:+ nl
    +:+ q "  <text x='" +:+ f1 ((WIDTH : Qc) / 2%Z) +:+ q "' y='"
    +:+ f1 ((HEIGHT : Qc) / 2%Z)
    +:+ q "' text-anchor='middle' font-size='13' fill='#888'>" +:+ message
    +:+ "</text>" +:+ nl
    +:+ "</svg>".

(** [generate_resource_graph]; [None] stands for an exception escaping the
    method. *)
Definition generate_resource_graph (cumulative_points : list TimeSeriesPoint)
    (per_pod_data : series_dict) (vu_stages : list VUStage)
    (title y_label : string) : option string :=
  match cumulative_points with
  | [] => Some (_empty_graph title "No data available")
  | _ :: _ =>
      let all_timestamps := timestamp <$> cumulative_points in
      min_time ← Py.min all_timestamps;
      max_time ← Py.max all_timestamps;
      let time_range : Qc :=
        if decide (min_time < max_time)%Qc then max_time - min_time else 1%Z in
      let y_max := y_max_of cumulative_points per_pod_data in
      let svg_parts := header in
      bands ← vu_bands min_time max_time time_range vu_stages;
      let svg_parts := svg_parts ++ bands in
      let svg_parts := svg_parts ++ grid_lines y_max in
      area ← cumulative_area min_time time_range y_max cumulative_points;
      let svg_parts := svg_parts ++ area in
      lines ← pod_lines min_time time_range y_max per_pod_data;
      let svg_parts := svg_parts ++ lines in
      let svg_parts := svg_parts ++ axes in
      let svg_parts := svg_parts ++ title_and_label title y_label in
      let svg_parts := svg_parts ++ x_labels min_time time_range in
      let legend_y := (HEIGHT - 15)%Z in
      let legend_x := MARGIN_LEFT in
      let svg_parts :=
        svg_parts ++ legend legend_y legend_x (legend_items per_pod_data) in
      let svg_parts := svg_parts ++ ["</svg>"] in
      Some (Py.join svg_parts)
  end.

(** [_get_pod_color]; [%] takes the sign of the divisor, so the index is in
    range for every [pod_index]. *)
Definition _get_pod_color (pod_name : string) (pod_index : Z) : option string :=
  if Py.contains "foo" (Py.lower pod_name)
  then Py.index FOO_COLORS (pod_index `mod` Py.len_list FOO_COLORS)
  else if Py.contains "bar" (Py.lower pod_name)
  then Py.index BAR_COLORS (pod_index `mod` Py.len_list BAR_COLORS)
  else Py.index FOO_COLORS (pod_index `mod` Py.len_list FOO_COLORS).

Definition generate_cpu_graph (per_pod_data : PerPodTimeSeriesData)
    (vu_stages : list VUStage) : option string :=
  generate_resource_graph (cumulative_cpu per_pod_data) (per_pod_cpu per_pod_data)
    vu_stages "CPU Usage Over Time" "CPU (millicores)".

Definition generate_memory_graph (per_pod_data : PerPodTimeSeriesData)
    (vu_stages : list VUStage) : option string :=
  generate_resource_graph (cumulative_memory per_pod_data)
    (per_pod_memory per_pod_data) vu_stages "Memory Usage Over Time" "Memory (MB)".

End SVGGraphGenerator.

(** ** HTML report generator

    What [generate] computes before it renders the template: the two status
    colours and the two graphs. *)

Module HTMLReportGenerator.

Definition p95_status (k6_metrics : K6Metrics) : string :=
  if decide (p95_latency_ms k6_metrics < Qc_of_Z 500)%Qc
  then "success" else "danger".

Definition error_status (k6_metrics : K6Metrics) : string :=
  if decide (error_rate k6_metrics < Qc_of_Z 1 / Qc_of_Z 100)%Qc
  then "success" else "danger".

(** [cpu_graph] and [memory_graph]; [vu_stages or []] is [[]] for [None] and
    for the empty list. *)
Definition graphs (per_pod_time_series : option PerPodTimeSeriesData)
    (vu_stages : option (list VUStage)) : option (string * string) :=
  let vu_stages_for_graph := default [] vu_stages in
  match per_pod_time_series with
  | Some per_pod_time_series =>
      cpu_graph ← SVGGraphGenerator.generate_cpu_graph per_pod_time_series
                    vu_stages_for_graph;
      memory_graph ← SVGGraphGenerator.generate_memory_graph per_pod_time_series
                       vu_stages_for_graph;
      Some (cpu_graph, memory_graph)
  | None =>
      let cpu_graph :=
        SVGGraphGenerator._empty_graph "CPU Usage Over Time" "No data available" in
      let memory_graph :=
        SVGGraphGenerator._empty_graph "Memory Usage Over Time" "No data available" in
      Some (cpu_graph, memory_graph)
  end.

End HTMLReportGenerator.

(** ** JUnit report generator *)

Module JUnitReportGenerator.

Record TestResult := mkTestResult {
  name : string;
  classname : string;
  passed : bool;
  actual_value : string;
  threshold : string;
  message : string;
  failure_type : string;
}.

(** The four entries of [THRESHOLDS]. *)
Definition THRESHOLDS_p95_latency_ms : Qc := Qc_of_Z 500.
Definition THRESHOLDS_avg_latency_ms : Qc := Qc_of_Z 200.
Definition THRESHOLDS_error_rate : Qc := (Qc_of_Z 1 / Qc_of_Z 100)%Qc.
Definition THRESHOLDS_min_requests : Z := 100.

(** [_evaluate_tests].  The thresholds inside the texts are constants:
    [str] of the [Decimal] 500 is 500, of 200 is 200, and the [Decimal] 0.01
    times 100 is 1.00. *)
Definition _evaluate_tests (metrics : K6Metrics) : list TestResult :=
  [ mkTestResult "P95 Latency" "LoadTest.Performance"
      (bool_decide (p95_latency_ms metrics ≤ THRESHOLDS_p95_latency_ms)%Qc)
      (Py.fmt_f 2 (p95_latency_ms metrics) +:+ "ms")
      "<500ms"
      ("P95 latency " +:+ Py.fmt_f 2 (p95_latency_ms metrics)
         +:+ "ms exceeds threshold 500ms")
      "PerformanceError";
    mkTestResult "Error Rate" "LoadTest.Reliability"
      (bool_decide (error_rate metrics ≤ THRESHOLDS_error_rate)%Qc)
      (Py.fmt_f 4 (error_rate metrics * Qc_of_Z 100)%Qc +:+ "%")
      "<1.00%"
      ("Error rate " +:+ Py.fmt_f 4 (error_rate metrics * Qc_of_Z 100)%Qc
         +:+ "% exceeds threshold 1%")
      "ReliabilityError";
    mkTestResult "Service Availability" "LoadTest.Availability"
      (bool_decide (THRESHOLDS_min_requests ≤ total_requests metrics))
      (Py.str (total_requests metrics))
      ">=100"
      ("Insufficient requests completed: " +:+ Py.str (total_requests metrics))
      "AvailabilityError";
    mkTestResult "Average Response Time" "LoadTest.Performance"
      (bool_decide (avg_latency_ms metrics ≤ THRESHOLDS_avg_latency_ms)%Qc)
      (Py.fmt_f 2 (avg_latency_ms metrics) +:+ "ms")
      "<200ms"
      ("Average latency " +:+ Py.fmt_f 2 (avg_latency_ms metrics)
         +:+ "ms exceeds threshold 200ms")
      "PerformanceWarning" ].

(** The counts [passed] and [failed] that [generate] logs. *)
Definition generate_counts (k6_metrics : K6Metrics) : Z * Z :=
  let results := _evaluate_tests k6_metrics in
  let passed := Py.len_list (filter (λ r, Is_true (passed r)) results) in
  let failed := Py.len_list results - passed in
  (passed, failed).

(** The [tests] and [failures] attributes that [_write_junit_xml] gives the
    two suite elements. *)
Definition testsuite_counts (results : list TestResult) : string * string :=
  let failures := Py.len_list (filter (λ r, ¬ Is_true (passed r)) results) in
  (Py.str (Py.len_list results), Py.str failures).

End JUnitReportGenerator.

(** ** Statements of the specification and sample inputs *)

(** A string of decimal digits only. *)
Fixpoint digits_only (s : string) : bool :=
  match s with
  | EmptyString => true
  | String c s' => Py.is_digit c && digits_only s'
  end.

(** A backend that answers the two request counters and nothing else. *)
Definition backend_of (total failed : Qc) (promql : string) : option Qc :=
  if decide (promql = "sum(k6_http_reqs_total)") then Some total
  else if decide (promql = "sum(k6_http_req_failed_total)") then Some failed
  else None.

(** The error rate stays in [[0,1]] for every answer of the backend: the
    statement of the specification. *)
Definition error_rate_in_unit_interval (_query_scalar : string → option Qc) : Prop :=
  (0 ≤ error_rate (collect_k6_metrics _query_scalar) ≤ 1)%Qc.

(** The declared length of a stage in seconds, and the length of a plan. *)
Definition duration_of (stage : K6Stage) : Z :=
  default 0 (parse_duration_to_seconds (duration stage)).

Definition total_declared_duration (stages : list K6Stage) : Z :=
  foldr Z.add 0 (duration_of <$> stages).

(** [T] is the latest of the timestamps [ts]. *)
Definition latest (T : Qc) (ts : list Qc) : Prop :=
  T ∈ ts ∧ ∀ t, t ∈ ts → (t ≤ T)%Qc.

Import SVGGraphGenerator.

(** The scale of the y axis in the words of the specification: the greatest
    value scaled by 1.1, rounded up to the next multiple of 10, with 10 in
    place of 0; positive, a multiple of 10, and every point inside the plot
    area. *)
Definition ten_or (n : Z) : Z := if decide (10 * n = 0) then 10 else 10 * n.

Definition round_up_to_multiple_of_10 (x : Qc) : Z :=
  10 * Qceiling (x / Qc_of_Z 10)%Qc.

Definition specified_y_max (max_value : Qc) : Z :=
  let rounded :=
    round_up_to_multiple_of_10 (max_value * (Qc_of_Z 11 / Qc_of_Z 10))%Qc in
  if decide (rounded = 0) then 10 else rounded.

Definition y_scale_as_specified (cumulative_points : list TimeSeriesPoint)
    (per_pod_data : series_dict) : Prop :=
  ∃ max_value : Qc,
    latest max_value (all_values cumulative_points per_pod_data)
    ∧ let y_max := y_max_of cumulative_points per_pod_data in
      y_max = specified_y_max max_value
      ∧ 0 < y_max ∧ y_max `mod` 10 = 0
      ∧ ∀ v, v ∈ all_values cumulative_points per_pod_data →
          (Qc_of_Z MARGIN_TOP ≤ to_svg_y y_max v
           ≤ Qc_of_Z (MARGIN_TOP + GRAPH_HEIGHT))%Qc.

Definition falling_series : list TimeSeriesPoint :=
  [ mkTimeSeriesPoint (Qc_of_Z 0) (Qc_of_Z (-50));
    mkTimeSeriesPoint (Qc_of_Z 15) (Qc_of_Z (-100)) ].

(** A point that the graph draws: a point of the cumulative series or of the
    series of a pod. *)
Definition plotted (cumulative_points : list TimeSeriesPoint)
    (per_pod_data : series_dict) (p : TimeSeriesPoint) : Prop :=
  p ∈ cumulative_points
  ∨ ∃ pod_name points, (pod_name, points) ∈ per_pod_data ∧ p ∈ points.

(** [max_value] is the greatest value of a plotted point. *)
Definition greatest_plotted (cumulative_points : list TimeSeriesPoint)
    (per_pod_data : series_dict) (max_value : Qc) : Prop :=
  (∃ p, plotted cumulative_points per_pod_data p ∧ value p = max_value)
  ∧ ∀ p, plotted cumulative_points per_pod_data p → (value p ≤ max_value)%Qc.

(** The scaled value lies less than 1 above a positive multiple of 10: there
    adding [step - 1] does not reach the next multiple, and
    [_round_to_nearest] returns the multiple below. *)
Definition rounds_short (x : Qc) : Prop :=
  ∃ k : Z, 1 ≤ k ∧ (Qc_of_Z (10 * k) < x)%Qc ∧ (x < Qc_of_Z (10 * k + 1))%Qc.

(** Some pod name holds the marker, whatever its case. *)
Definition has_marker (marker : string) (per_pod_data : series_dict) : bool :=
  bool_decide (Exists (λ p, Is_true (Py.contains marker (Py.lower p)))
                 (keys per_pod_data)).

(** The groups that have a pod, and the legend the specification describes:
    the cumulative entry and one entry per group that has a pod, in the
    first colour of the group. *)
Definition groups_present (per_pod_data : series_dict)
    : list (list string * list string) :=
  filter (λ g, g.1 ≠ []) (pod_groups per_pod_data).

Definition legend_as_specified (per_pod_data : series_dict) : Prop :=
  ∃ labels : list string,
    length labels = length (groups_present per_pod_data)
    ∧ legend_items per_pod_data
      = ("Cumulative", CUMULATIVE_COLOR)
          :: zip labels ((λ g, default "" (head g.2)) <$> groups_present per_pod_data).

Definition one_point : list TimeSeriesPoint :=
  [ mkTimeSeriesPoint (Qc_of_Z 1700000000) (Qc_of_Z 12) ].

Definition unmarked_pods : series_dict := [ ("http-echo-baz-1", one_point) ].

(** The same two series, inserted in either order. *)
Definition swapped_pods_1 : series_dict :=
  [ ("http-echo-foo-1", one_point); ("http-echo-bar-1", one_point) ].
Definition swapped_pods_2 : series_dict :=
  [ ("http-echo-bar-1", one_point); ("http-echo-foo-1", one_point) ].

(** Two pods as the two instant queries report them, and their snapshots with
    the later name first. *)
Definition two_pods_cpu : list sample :=
  [ mkSample (Some "http-echo-foo-1") (Qc_of_Z 120);
    mkSample (Some "http-echo-bar-1") (Qc_of_Z 80) ].

Definition two_pods_mem : list sample :=
  [ mkSample (Some "http-echo-bar-1") (Qc_of_Z 30);
    mkSample (Some "http-echo-foo-1") (Qc_of_Z 40) ].

Definition two_pods_snapshots : list PodResourceMetrics.t :=
  [ PodResourceMetrics.mk "http-echo-foo-1"
      (Qc_of_Z 120) (Qc_of_Z 120) (Qc_of_Z 40) (Qc_of_Z 40);
    PodResourceMetrics.mk "http-echo-bar-1"
      (Qc_of_Z 80) (Qc_of_Z 80) (Qc_of_Z 30) (Qc_of_Z 30) ].

(** A ramp of three stages, two minutes long, and a collected series of two
    samples with the values 9.5 and 30. *)
Definition ramp_config : K6TestConfig :=
  mkK6TestConfig
    [ mkK6Stage "30s" 20; mkK6Stage "1m" 50; mkK6Stage "30s" 20 ]
    "2m" 50 [] ∅.

Definition rising_series : list TimeSeriesPoint :=
  [ mkTimeSeriesPoint (Qc_of_Z 1700000000) (Q2Qc (19 # 2));
    mkTimeSeriesPoint (Qc_of_Z 1700000120) (Qc_of_Z 30) ].

Definition low_series : list TimeSeriesPoint :=
  [ mkTimeSeriesPoint (Qc_of_Z 1700000000) (Q2Qc (19 # 2)) ].

Definition ramp_series : PerPodTimeSeriesData :=
  mkPerPodTimeSeriesData rising_series rising_series [] [].

(** *** Statements about the thresholds and the digit limit *)

(** The thresholds in the words of the specification: each kind holds the
    value of the last key that contains its word. *)
Definition thresholds_as_specified (matches : list (string * string)) : Prop :=
  extract_thresholds (Some matches) !! "p95"
  = snd <$> last (filter (λ m, Is_true (Py.contains "duration" m.1)) matches)
  ∧ extract_thresholds (Some matches) !! "error_rate"
    = snd <$> last (filter (λ m, Is_true (Py.contains "failed" m.1)) matches).

(** A failure-rate key followed by a key that holds both words. *)
Definition both_words : list (string * string) :=
  [ ("http_req_failed", "rate<0.01"); ("failed_request_duration", "p(99)<1500") ].

(** Group 1 of the match of a duration pattern, if there is a match, has no
    more digits than the interpreter converts. *)
Definition group_within_limit (u : ascii) (duration_str : string) : Prop :=
  match Py.re_search_digits_unit u duration_str with
  | Some g => Py.len g ≤ Limited.int_max_str_digits
  | None => True
  end.

Definition groups_within_limit (duration_str : string) : Prop :=
  group_within_limit "m" duration_str ∧ group_within_limit "s" duration_str.

(** The duration parser never raises: the statement of the specification. *)
Definition parse_duration_never_raises : Prop :=
  ∀ duration_str : string,
    ∃ n, Limited.parse_duration_to_seconds duration_str = Some n ∧ 0 ≤ n.

(** A seconds component of 4301 digits. *)
Fixpoint ones (n : nat) : string :=
  match n with
  | O => EmptyString
  | S n' => String "1" (ones n')
  end.

Definition long_duration : string := ones 4301 +:+ "s".

(** The stages that the matches of the stage pattern stand for. *)
Definition stages_read (stage_matches : list (string * string)) : list K6Stage :=
  (λ m, mkK6Stage m.1 (default 0 (Py.int_of_str m.2))) <$> stage_matches.

(** A match of the stage pattern whose conversions stay within the limit:
    the target is a non-empty run of at most 4300 digits, as are the digit
    runs of the duration. *)
Definition stage_match_within_limit (m : string * string) : Prop :=
  groups_within_limit m.1
  ∧ m.2 ≠ "" ∧ digits_only m.2 = true
  ∧ Py.len m.2 ≤ Limited.int_max_str_digits.

Definition ramp_stage_matches : list (string * string) :=
  [ ("30s", "20"); ("1m", "50"); ("30s", "20") ].

(** *** Statements about the rest of the module *)

(** [T] is the earliest of the timestamps [ts]. *)
Definition earliest (T : Qc) (ts : list Qc) : Prop :=
  T ∈ ts ∧ ∀ t, t ∈ ts → (T ≤ t)%Qc.

(** The attempt at which the backend answers with a positive count. *)
Definition ready (answers : nat → option Qc) (attempt : nat) : Prop :=
  ∃ result, answers attempt = Some result ∧ (0 < result)%Qc.

(** A backend that has k6 data from the attempt [first] on. *)
Definition ready_from (first : nat) (attempt : nat) : option Qc :=
  if decide (first ≤ attempt)%nat then Some (Qc_of_Z 1200) else None.

(** Samples whose conversions all succeed, given as pairs of a timestamp and
    a value, and the timestamps of those with a positive value. *)
Definition well_formed (samples : list (Qc * Qc)) : list raw_point :=
  (λ s, mkRawPoint (Some s.1) (Some s.2)) <$> samples.

Definition active (samples : list (Qc * Qc)) : list Qc :=
  (filter (λ s, (0 < s.2)%Qc) samples).*1.

Definition idle_then_busy : list (Qc * Qc) :=
  [ (Qc_of_Z 1700000000, Qc_of_Z 0); (Qc_of_Z 1700000015, Qc_of_Z 40);
    (Qc_of_Z 1700000030, Qc_of_Z 0); (Qc_of_Z 1700000045, Qc_of_Z 55);
    (Qc_of_Z 1700000060, Qc_of_Z 0) ].

(** The points of a series that the collector keeps, the pod name it files
    them under, and all the points of a result in the order they are read. *)
Definition parse_point (pt : raw_point) : option TimeSeriesPoint :=
  ts ← raw_ts pt; val ← raw_value pt; Some (mkTimeSeriesPoint ts val).

Definition parsed_points (series : raw_series) : list TimeSeriesPoint :=
  omap parse_point (series_values series).

Definition pod_name_of (series : raw_series) : string :=
  default "unknown" (series_pod series).

Definition all_points (result : list raw_series) : list TimeSeriesPoint :=
  concat (parsed_points <$> result).

(** The values that the points have at the timestamp [ts], in order. *)
Definition values_at (ts : Qc) (points : list TimeSeriesPoint) : list Qc :=
  value <$> filter (λ p, timestamp p = ts) points.

(** [by_timestamp[ts] = by_timestamp.get(ts, 0) + val] for a kept point. *)
Definition accumulate (by_timestamp : gmap Qc Qc) (p : TimeSeriesPoint)
    : gmap Qc Qc :=
  <[timestamp p := (default 0%Qc (by_timestamp !! timestamp p) + value p)%Qc]>
    by_timestamp.

(** The points of the last series of the pod [name] that has any. *)
Definition stored_series (result : list raw_series) (name : string)
    : list TimeSeriesPoint :=
  default []
    (last (filter (λ points, points ≠ [])
             (parsed_points <$> filter (λ s, pod_name_of s = name) result))).

(** The points that the two results of a response hold. *)
Definition collected_points
    (response : option (list raw_series * list raw_series))
    : list TimeSeriesPoint * list TimeSeriesPoint :=
  match response with
  | Some (cpu_result, mem_result) => (all_points cpu_result, all_points mem_result)
  | None => ([], [])
  end.

(** One pod reported by two series with a sample at the same time. *)
Definition twice_reported : list raw_series :=
  [ mkRawSeries (Some "http-echo-foo-1")
      [ mkRawPoint (Some (Qc_of_Z 1700000000)) (Some (Qc_of_Z 10)) ];
    mkRawSeries (Some "http-echo-foo-1")
      [ mkRawPoint (Some (Qc_of_Z 1700000000)) (Some (Qc_of_Z 25)) ] ].

(** The value that the last sample of the pod [name] reports, [0] without
    one, and the snapshot made of an item of the [pods] dictionary. *)
Definition reported (samples : list sample) (name : string) : Qc :=
  default 0%Qc
    (last (sample_value <$> filter (λ item, pod_of item = name) samples)).

Definition snapshot_of (item : string * (Qc * Qc)) : PodResourceMetrics.t :=
  PodResourceMetrics.mk item.1 item.2.1 item.2.1 item.2.2 item.2.2.

(** The lowered pod name holds the marker. *)
Definition holds (marker pod_name : string) : Prop :=
  Is_true (Py.contains marker (Py.lower pod_name)).

(** [time_range] as [generate_resource_graph] computes it, and the two ends
    of a stage band clamped to the visible range:
    [max(stage.start_timestamp, min_time)] and
    [min(stage.end_timestamp, max_time)]. *)
Definition time_range_of (min_time max_time : Qc) : Qc :=
  if decide (min_time < max_time)%Qc then (max_time - min_time)%Qc else Qc_of_Z 1.

Definition band_start (min_time : Qc) (stage : VUStage) : Qc :=
  if decide (start_timestamp stage < min_time)%Qc
  then min_time else start_timestamp stage.

Definition band_end (max_time : Qc) (stage : VUStage) : Qc :=
  if decide (max_time < end_timestamp stage)%Qc
  then max_time else end_timestamp stage.

(** A stage that starts ten seconds before the samples of [rising_series]. *)
Definition early_stage : VUStage :=
  mkVUStage (Qc_of_Z 1699999990) (Qc_of_Z 1700000030) 20.


(** * Properties *)

(** ** Decimal numerals *)

Lemma app_cons c s t : String c s +:+ t = String c (s +:+ t).
Proof. done. Qed.

Lemma app_nil_l s : "" +:+ s = s.
Proof. done. Qed.

Lemma app_assoc' (s t u : string) : (s +:+ t) +:+ u = s +:+ (t +:+ u).
Proof. induction s as [|c s IH]; [done|]. by rewrite !app_cons, IH. Qed.

Lemma app_length' (s t : string) :
  String.length (s +:+ t) = (String.length s + String.length t)%nat.
Proof. induction s as [|c s IH]; [done|]. rewrite app_cons. simpl. by rewrite IH. Qed.

Lemma digits_only_app s t :
  digits_only (s +:+ t) = digits_only s && digits_only t.
Proof.
  induction s as [|c s IH]; [done|].
  rewrite app_cons. simpl. rewrite IH. by rewrite andb_assoc.
Qed.

Lemma int_digits_app acc s t :
  Py.int_digits acc (s +:+ t) = Py.int_digits acc s ≫= λ r, Py.int_digits r t.
Proof.
  revert acc. induction s as [|c s IH]; intros acc; [done|].
  rewrite app_cons. simpl. destruct (Py.digit_value c); simpl; [apply IH|done].
Qed.

Lemma pretty_N_char_digit x :
  (x < 10)%N →
  Py.is_digit (pretty_N_char x) = true ∧
  Py.digit_value (pretty_N_char x) = Some (Z.of_N x).
Proof.
  intros Hx.
  assert (x = 0 ∨ x = 1 ∨ x = 2 ∨ x = 3 ∨ x = 4 ∨ x = 5 ∨ x = 6 ∨ x = 7
          ∨ x = 8 ∨ x = 9)%N as Hc by lia.
  destruct_or!; subst; done.
Qed.

Lemma pretty_N_go_spec (x : N) :
  ∃ ds, digits_only ds = true
      ∧ ((0 < x)%N → ds ≠ "")
      ∧ (∀ s, pretty_N_go x s = ds +:+ s)
      ∧ (∀ acc, Py.int_digits acc ds
                = Some (acc * 10 ^ Z.of_nat (String.length ds) + Z.of_N x)).
Proof.
  induction (N.lt_wf_0 x) as [x _ IH].
  destruct (decide (x = 0%N)) as [->|Hx].
  { exists "". split_and!; [done|lia|done|]. intros acc. simpl. f_equal. lia. }
  assert (0 < x)%N as Hpos by lia.
  destruct (IH (x `div` 10)%N) as (ds & Hd & _ & Hgo & Hint).
  { by apply N.div_lt. }
  destruct (pretty_N_char_digit (x `mod` 10)%N) as [Hc Hv].
  { by apply N.mod_lt. }
  exists (ds +:+ String (pretty_N_char (x `mod` 10)) "").
  split_and!.
  - rewrite digits_only_app, Hd. simpl. by rewrite Hc.
  - intros _. destruct ds; done.
  - intros s. rewrite pretty_N_go_step by done. rewrite Hgo.
    by rewrite app_assoc'.
  - intros acc. rewrite int_digits_app, Hint. simpl. rewrite Hv. simpl.
    f_equal. rewrite app_length'. simpl.
    rewrite Nat2Z.inj_add, Z.pow_add_r by lia.
    change (Z.of_nat 1) with 1. rewrite Z.pow_1_r.
    pose proof (N.div_mod x 10 ltac:(done)) as Hdm.
    apply (f_equal Z.of_N) in Hdm. rewrite N2Z.inj_add, N2Z.inj_mul in Hdm.
    change (Z.of_N 10) with 10 in Hdm. lia.
Qed.

(** [str] of a non-negative [int] is a non-empty run of digits that [int]
    reads back. *)
Lemma str_nonneg (n : Z) :
  0 ≤ n →
  ∃ c ds, Py.str n = String c ds
        ∧ digits_only (String c ds) = true
        ∧ Py.int_of_str (String c ds) = Some n.
Proof.
  intros Hn. destruct n as [|p|p]; [by exists "0"%char, ""| |lia].
  unfold Py.str, pretty, pretty_Z, pretty, pretty_positive, pretty, pretty_N.
  rewrite decide_False by done.
  destruct (pretty_N_go_spec (N.pos p)) as (ds & Hd & Hne & Hgo & Hint).
  rewrite Hgo. destruct ds as [|c ds]; [by destruct Hne|].
  exists c, (ds +:+ ""). rewrite <-app_cons.
  assert (String c ds +:+ "" = String c ds) as ->.
  { generalize (String c ds). intros s. induction s as [|a s IHs]; [done|].
    by rewrite app_cons, IHs. }
  split_and!; [done..|].
  unfold Py.int_of_str. by rewrite Hint.
Qed.

(** ** The duration patterns *)

Lemma span_digits_run ds c rest :
  digits_only ds = true → Py.is_digit c = false →
  Py.span_digits (ds +:+ String c rest) = (ds, String c rest).
Proof.
  intros Hd Hc. induction ds as [|a ds IH]; simpl in *.
  - by rewrite Hc.
  - apply andb_prop in Hd as [Ha Hd]. by rewrite Ha, IH.
Qed.

Lemma re_search_unfold u s :
  Py.re_search_digits_unit u s
  = match Py.re_match_digits_unit u s with
    | Some g => Some g
    | None =>
        match s with
        | EmptyString => None
        | String _ s' => Py.re_search_digits_unit u s'
        end
    end.
Proof. by destruct s. Qed.

(** A run of digits followed by its unit letter is found at once. *)
Lemma re_search_hit u c ds rest :
  digits_only (String c ds) = true → Py.is_digit u = false →
  Py.re_search_digits_unit u (String c ds +:+ String u rest) = Some (String c ds).
Proof.
  intros Hd Hu.
  assert (Py.re_match_digits_unit u (String c ds +:+ String u rest)
          = Some (String c ds)) as H.
  { unfold Py.re_match_digits_unit. rewrite span_digits_run by done.
    by rewrite decide_True. }
  by rewrite re_search_unfold, H.
Qed.

(** A run of digits followed by another letter is skipped. *)
Lemma re_search_skip u ds c rest :
  digits_only ds = true → Py.is_digit c = false → c ≠ u →
  Py.re_search_digits_unit u (ds +:+ String c rest)
  = Py.re_search_digits_unit u rest.
Proof.
  intros Hd Hc Hcu. induction ds as [|a ds IH].
  - rewrite app_nil_l, re_search_unfold. unfold Py.re_match_digits_unit.
    simpl. by rewrite Hc.
  - assert (Py.re_match_digits_unit u (String a ds +:+ String c rest) = None)
      as H.
    { unfold Py.re_match_digits_unit. rewrite span_digits_run by done.
      by rewrite decide_False. }
    rewrite re_search_unfold, H, app_cons.
    simpl in Hd. apply andb_prop in Hd as [_ Hd]. by apply IH.
Qed.

Lemma re_search_digits_only u ds :
  digits_only ds = true → Py.re_search_digits_unit u ds = None.
Proof.
  intros Hd.
  assert (∀ s, digits_only s = true → Py.span_digits s = (s, "")) as Hspan.
  { induction s as [|a s IH]; [done|]. simpl. intros [Ha Hs]%andb_prop.
    by rewrite Ha, IH. }
  induction ds as [|a ds IH]; [done|].
  rewrite re_search_unfold. unfold Py.re_match_digits_unit.
  rewrite Hspan by done.
  simpl in Hd. apply andb_prop in Hd as [_ Hd]. by apply IH.
Qed.

(** The group of a match is a non-empty run of digits. *)
Lemma span_digits_spec s ds rest :
  Py.span_digits s = (ds, rest) → digits_only ds = true ∧ s = ds +:+ rest.
Proof.
  revert ds rest. induction s as [|a s IH]; intros ds rest; simpl.
  - by intros [= <- <-].
  - destruct (Py.is_digit a) eqn:Ha.
    + destruct (Py.span_digits s) as [ds' rest'] eqn:Hs.
      intros [= <- <-]. destruct (IH _ _ eq_refl) as [Hd ->].
      simpl. by rewrite Ha, Hd.
    + by intros [= <- <-].
Qed.

Lemma re_match_group u s g :
  Py.re_match_digits_unit u s = Some g →
  ∃ c ds rest, g = String c ds ∧ digits_only g = true ∧ s = g +:+ String u rest.
Proof.
  unfold Py.re_match_digits_unit.
  destruct (Py.span_digits s) as [ds rest] eqn:Hs.
  apply span_digits_spec in Hs as [Hd ->].
  destruct ds as [|c ds]; [done|]. destruct rest as [|c' rest]; [done|].
  case_decide; [|done]. intros [= <-]. subst. by exists c, ds, rest.
Qed.

Lemma re_search_group u s g :
  Py.re_search_digits_unit u s = Some g →
  ∃ c ds pre rest, g = String c ds ∧ digits_only g = true
                 ∧ s = pre +:+ g +:+ String u rest.
Proof.
  induction s as [|a s IH]; rewrite re_search_unfold.
  - by unfold Py.re_match_digits_unit.
  - destruct (Py.re_match_digits_unit u (String a s)) as [g'|] eqn:Hm.
    + intros [= ->]. apply re_match_group in Hm as (c & ds & rest & -> & Hd & ->).
      by exists c, ds, "", rest.
    + intros Hs. destruct (IH Hs) as (c & ds & pre & rest & -> & Hd & ->).
      by exists c, ds, (String a pre), rest.
Qed.

Lemma int_of_str_digits c ds :
  digits_only (String c ds) = true →
  ∃ n, Py.int_of_str (String c ds) = Some n ∧ 0 ≤ n.
Proof.
  unfold Py.int_of_str. generalize (String c ds). intros s Hd.
  assert (∀ acc, 0 ≤ acc → ∃ n, Py.int_digits acc s = Some n ∧ 0 ≤ n) as H;
    [|by apply H].
  induction s as [|a s IH]; intros acc Hacc; [by exists acc|].
  simpl in *. apply andb_prop in Hd as [Ha Hd].
  unfold Py.digit_value, Py.is_digit in *.
  destruct (Ascii.is_nat a) as [k|]; [|done]. simpl. apply IH; [done|lia].
Qed.

Lemma is_digit_m : Py.is_digit "m" = false. Proof. done. Qed.
Lemma is_digit_s : Py.is_digit "s" = false. Proof. done. Qed.



Lemma has_component_app_r u pre t :
  has_component u t = true → has_component u (pre +:+ t) = true.
Proof.
  intros Ht. induction pre as [|a pre IH]; [done|].
  rewrite app_cons. destruct (pre +:+ t) as [|b w] eqn:E; [done|].
  simpl in *. rewrite IH. apply orb_true_r.
Qed.

Lemma has_component_run u c ds rest :
  digits_only (String c ds) = true →
  has_component u (String c ds +:+ String u rest) = true.
Proof.
  revert c. induction ds as [|a ds IH]; intros c Hd.
  - simpl in *. apply andb_prop in Hd as [-> _]. by rewrite bool_decide_eq_true_2.
  - rewrite app_cons.
    assert (digits_only (String a ds) = true) as Hd'
      by (simpl in *; by apply andb_prop in Hd as [_ ?]).
    specialize (IH a Hd'). rewrite app_cons in *.
    change (has_component u (String c (String a ?w)))
      with ((Py.is_digit c && bool_decide (a = u)) || has_component u (String a w)).
    rewrite IH. apply orb_true_r.
Qed.

Lemma re_search_has_component u s g :
  Py.re_search_digits_unit u s = Some g → has_component u s = true.
Proof.
  intros (c & ds & pre & rest & -> & Hd & ->)%re_search_group.
  by apply has_component_app_r, has_component_run.
Qed.

Lemma re_search_int u s g :
  Py.re_search_digits_unit u s = Some g →
  ∃ n, Py.int_of_str g = Some n ∧ 0 ≤ n.
Proof.
  intros (c & ds & pre & rest & -> & Hd & ->)%re_search_group.
  by apply int_of_str_digits.
Qed.

(** Without the limit on digits, both conversions succeed on the groups of
    the two patterns. *)
Lemma parse_duration_returns (duration_str : string) :
  ∃ n, parse_duration_to_seconds duration_str = Some n ∧ 0 ≤ n.
Proof.
  unfold parse_duration_to_seconds.
  destruct (Py.re_search_digits_unit "m" duration_str) as [gm|] eqn:Em;
    destruct (Py.re_search_digits_unit "s" duration_str) as [gs|] eqn:Es;
    try (destruct (re_search_int _ _ _ Em) as (m & -> & Hm));
    try (destruct (re_search_int _ _ _ Es) as (s & -> & Hs));
    simpl; eexists; (split; [done|lia]).
Qed.

(** ** The duration parser under the interpreter's digit limit *)

Lemma limited_int_of_str (s : string) :
  Py.len s ≤ Limited.int_max_str_digits →
  Limited.int_of_str s = Py.int_of_str s.
Proof.
  intros H. unfold Limited.int_of_str. by rewrite bool_decide_eq_false_2 by lia.
Qed.

Lemma limited_int_of_str_long (s : string) :
  Limited.int_max_str_digits < Py.len s → Limited.int_of_str s = None.
Proof.
  intros H. unfold Limited.int_of_str. by rewrite bool_decide_eq_true_2.
Qed.

(** Within the limit the parser is the parser without a limit. *)
Lemma limited_parse_duration (duration_str : string) :
  groups_within_limit duration_str →
  Limited.parse_duration_to_seconds duration_str
  = parse_duration_to_seconds duration_str.
Proof.
  intros [Hm Hs].
  unfold Limited.parse_duration_to_seconds, parse_duration_to_seconds,
    group_within_limit in *.
  destruct (Py.re_search_digits_unit "m" duration_str);
    destruct (Py.re_search_digits_unit "s" duration_str);
    by rewrite ?limited_int_of_str by done.
Qed.

Lemma ones_length (n : nat) : String.length (ones n) = n.
Proof. induction n as [|n IH]; [done|]. simpl. by rewrite IH. Qed.

Lemma ones_digits (n : nat) : digits_only (ones n) = true.
Proof. induction n as [|n IH]; [done|]. simpl. by rewrite IH. Qed.

(** A seconds component longer than the limit: [int] raises. *)
Lemma parse_long_seconds_run (n : nat) :
  Limited.int_max_str_digits < Z.of_nat (S n) →
  Limited.parse_duration_to_seconds (ones (S n) +:+ "s") = None.
Proof.
  intros Hn. unfold Limited.parse_duration_to_seconds. cbn [ones].
  pose proof (ones_digits (S n)) as Hd. cbn [ones] in Hd.
  rewrite (re_search_skip "m" (String "1" (ones n)) "s" "") by done.
  rewrite (re_search_hit "s" "1" (ones n) "") by done.
  rewrite limited_int_of_str_long; [done|].
  unfold Py.len. change (String "1" (ones n)) with (ones (S n)).
  by rewrite ones_length.
Qed.

(** The claim as stated fails: [int] refuses a seconds component of 4301
    digits with a [ValueError]. *)
Lemma parse_duration_raises_on_long_run : ¬ parse_duration_never_raises.
Proof.
  intros H. destruct (H long_duration) as (n & Hn & _).
  unfold long_duration in Hn.
  rewrite parse_long_seconds_run in Hn by (by vm_compute). done.
Qed.

(** C10, as the code has it.  When the digit runs that the two patterns
    match have at most 4300 digits, [parse_duration_to_seconds] returns a
    number that is not negative; when one of them is longer, [int] raises;
    and the result is [0] on a string with neither a minutes nor a seconds
    component. *)
Theorem parse_duration_total_within_limit (duration_str : string) :
  (groups_within_limit duration_str →
   ∃ n, Limited.parse_duration_to_seconds duration_str = Some n ∧ 0 ≤ n)
  ∧ (¬ groups_within_limit duration_str →
     Limited.parse_duration_to_seconds duration_str = None)
  ∧ (has_component "m" duration_str = false →
     has_component "s" duration_str = false →
     Limited.parse_duration_to_seconds duration_str = Some 0).
Proof.
  split_and!.
  - intros Hlim. rewrite limited_parse_duration by done.
    apply parse_duration_returns.
  - unfold groups_within_limit, group_within_limit,
      Limited.parse_duration_to_seconds.
    destruct (Py.re_search_digits_unit "m" duration_str) as [gm|] eqn:Em.
    + destruct (decide (Py.len gm ≤ Limited.int_max_str_digits)) as [Hm|Hm];
        [|by rewrite limited_int_of_str_long by lia].
      rewrite limited_int_of_str by done.
      destruct (re_search_int _ _ _ Em) as (m & -> & _). simpl.
      destruct (Py.re_search_digits_unit "s" duration_str) as [gs|]; [|tauto].
      intros Hs. rewrite limited_int_of_str_long; [done|]. lia.
    + destruct (Py.re_search_digits_unit "s" duration_str) as [gs|]; [|tauto].
      intros Hs. simpl. rewrite limited_int_of_str_long; [done|]. lia.
  - intros Hm Hs. unfold Limited.parse_duration_to_seconds.
    destruct (Py.re_search_digits_unit "m" duration_str) as [gm|] eqn:Em.
    { apply re_search_has_component in Em. congruence. }
    destruct (Py.re_search_digits_unit "s" duration_str) as [gs|] eqn:Es.
    { apply re_search_has_component in Es. congruence. }
    done.
Qed.

Lemma parse_duration_total_within_limit_witness :
  groups_within_limit "2m30s"
  ∧ (∃ n, Limited.parse_duration_to_seconds "2m30s" = Some n ∧ 0 ≤ n)
  ∧ Limited.parse_duration_to_seconds "" = Some 0
  ∧ Limited.parse_duration_to_seconds "ten minutes" = Some 0.
Proof.
  assert (groups_within_limit "2m30s") as Hlim by (split; by vm_compute).
  split; [exact Hlim|]. split_and!.
  - exact (proj1 (parse_duration_total_within_limit "2m30s") Hlim).
  - apply (parse_duration_total_within_limit ""); reflexivity.
  - apply (parse_duration_total_within_limit "ten minutes"); reflexivity.
Defined.

Example limited_parse_2m30s :
  Limited.parse_duration_to_seconds "2m30s" = Some 150.
Proof. reflexivity. Qed.

Example parse_2m30s : parse_duration_to_seconds "2m30s" = Some 150.
Proof. reflexivity. Qed.
Example parse_30s : parse_duration_to_seconds "30s" = Some 30.
Proof. reflexivity. Qed.
Example parse_text : parse_duration_to_seconds "soon" = Some 0.
Proof. reflexivity. Qed.
Example format_270 : seconds_to_duration_str 270 = "4m30s".
Proof. vm_compute. reflexivity. Qed.
Example format_0 : seconds_to_duration_str 0 = "0s".
Proof. vm_compute. reflexivity. Qed.

(** ** Threshold extraction *)

Lemma threshold_step_lookup thresholds m kind :
  threshold_step thresholds m !! kind
  = if decide (threshold_kind m.1 = Some kind) then Some m.2
    else thresholds !! kind.
Proof.
  unfold threshold_step, threshold_kind.
  destruct (Py.contains "duration" m.1); [|destruct (Py.contains "failed" m.1)].
  - case_decide as Hk; simplify_eq; [by rewrite lookup_insert_eq|].
    rewrite lookup_insert_ne; [done|congruence].
  - case_decide as Hk; simplify_eq; [by rewrite lookup_insert_eq|].
    rewrite lookup_insert_ne; [done|congruence].
  - by rewrite decide_False.
Qed.

(** The value under a canonical name is the value of the last match, in text
    order, whose key is stored under that name; no such match leaves the
    name absent. *)
Lemma extract_thresholds_lookup (matches : list (string * string))
    (kind : string) :
  extract_thresholds (Some matches) !! kind
  = snd <$> last (filter (λ m, threshold_kind m.1 = Some kind) matches).
Proof.
  unfold extract_thresholds.
  induction matches as [|m matches IH] using rev_ind; [done|].
  rewrite foldl_app, filter_app. simpl foldl.
  rewrite threshold_step_lookup, IH.
  rewrite filter_cons, filter_nil.
  case_decide; [by rewrite last_snoc|by rewrite app_nil_r].
Qed.

(** The claim as stated fails on a key that holds both words after a key
    that holds "failed" only: the failure-rate threshold keeps the value of
    the first key. *)
Lemma thresholds_key_with_both_words : ¬ thresholds_as_specified both_words.
Proof.
  intros [_ H]. rewrite extract_thresholds_lookup in H. by vm_compute in H.
Qed.

(** C5, as the code has it.  The latency threshold is the value of the last
    key, in text order, that contains "duration"; the failure-rate threshold
    is the value of the last key that contains "failed" and not "duration";
    each is absent without such a key, and no other name is recorded. *)
Theorem thresholds_last_match_by_kind (matches : list (string * string)) :
  extract_thresholds (Some matches) !! "p95"
  = snd <$> last (filter (λ m, Is_true (Py.contains "duration" m.1)) matches)
  ∧ extract_thresholds (Some matches) !! "error_rate"
    = snd <$> last (filter (λ m, Is_true (Py.contains "failed" m.1)
                                 ∧ ¬ Is_true (Py.contains "duration" m.1))
                      matches)
  ∧ ∀ kind, kind ≠ "p95" → kind ≠ "error_rate" →
      extract_thresholds (Some matches) !! kind = None.
Proof.
  rewrite !extract_thresholds_lookup. split_and!.
  - do 2 f_equal. apply list_filter_iff. intros m. unfold threshold_kind.
    destruct (Py.contains "duration" m.1); [done|].
    destruct (Py.contains "failed" m.1); done.
  - do 2 f_equal. apply list_filter_iff. intros m. unfold threshold_kind.
    destruct (Py.contains "duration" m.1); simpl; [intuition congruence|].
    destruct (Py.contains "failed" m.1); simpl; intuition congruence.
  - intros kind Hp He. rewrite extract_thresholds_lookup.
    assert (filter (λ m, threshold_kind m.1 = Some kind) matches = []) as ->;
      [|done].
    induction matches as [|m matches IH]; [done|].
    rewrite filter_cons_False; [done|]. unfold threshold_kind.
    destruct (Py.contains "duration" m.1); [congruence|].
    destruct (Py.contains "failed" m.1); congruence.
Qed.

Example thresholds_failed_key_then_both :
  extract_thresholds (Some both_words) !! "p95" = Some "p(99)<1500"
  ∧ extract_thresholds (Some both_words) !! "error_rate" = Some "rate<0.01".
Proof. rewrite !extract_thresholds_lookup. by vm_compute. Qed.

Example thresholds_two_duration_keys :
  extract_thresholds
    (Some [("http_req_duration", "p(95)<500"); ("http_req_failed", "rate<0.01");
           ("grpc_req_duration", "p(95)<200")])
  = {[ "p95" := "p(95)<200"; "error_rate" := "rate<0.01" ]}.
Proof. by vm_compute. Qed.

(** ** Error rate *)

Lemma Qc_of_Z_pos n : 0 < n → (0 < Qc_of_Z n)%Qc.
Proof. intros H%Z2Qc_inj_lt. by rewrite Z2Qc_inj_0 in H. Qed.

Lemma Qc_of_Z_nonneg n : 0 ≤ n → (0 ≤ Qc_of_Z n)%Qc.
Proof. intros H%Z2Qc_inj_le. by rewrite Z2Qc_inj_0 in H. Qed.

Lemma Qcdiv_bounds (x y : Qc) :
  (0 ≤ x)%Qc → (x ≤ y)%Qc → (0 < y)%Qc → (0 ≤ x / y ≤ 1)%Qc.
Proof.
  intros Hx Hxy Hy. split.
  - apply Qcmult_nonneg_nonneg; [done|]. by apply Qclt_le_weak, Qcinv_pos.
  - apply (Qcmult_le_mono_pos_r _ _ y Hy).
    rewrite Qcmult_1_l. unfold Qcdiv.
    rewrite <-Qcmult_assoc, Qcmult_inv_l, Qcmult_1_r; [done|].
    intros ->. by apply (Qclt_not_eq 0 0).
Qed.

(** C3.  With no requests the error rate is exactly [0], whatever the number
    of failed requests; with requests it is the quotient of failed by total. *)
Theorem error_rate_definition (_query_scalar : string → option Qc) :
  let metrics := collect_k6_metrics _query_scalar in
  (total_requests metrics = 0 → error_rate metrics = 0%Qc)
  ∧ (0 < total_requests metrics →
     error_rate metrics
     = (Qc_of_Z (failed_requests metrics) / Qc_of_Z (total_requests metrics))%Qc).
Proof.
  simpl. split; intros H.
  - rewrite H. by rewrite bool_decide_eq_false_2 by lia.
  - by rewrite bool_decide_eq_true_2.
Qed.

Lemma error_rate_definition_witness :
  (total_requests (collect_k6_metrics (backend_of 0 (Qc_of_Z 7))) = 0
   ∧ error_rate (collect_k6_metrics (backend_of 0 (Qc_of_Z 7))) = 0%Qc)
  ∧ (0 < total_requests (collect_k6_metrics (backend_of (Qc_of_Z 1000) (Qc_of_Z 5)))
     ∧ error_rate (collect_k6_metrics (backend_of (Qc_of_Z 1000) (Qc_of_Z 5)))
       = (Qc_of_Z 5 / Qc_of_Z 1000)%Qc).
Proof.
  split; (split; [by vm_compute|]).
  - apply (proj1 (error_rate_definition (backend_of 0 (Qc_of_Z 7)))).
    by vm_compute.
  - apply (proj2 (error_rate_definition (backend_of (Qc_of_Z 1000) (Qc_of_Z 5)))).
    by vm_compute.
Defined.

(** More failed requests than requests: the two counts come from separate
    queries. *)
Lemma error_rate_above_one :
  ¬ error_rate_in_unit_interval (backend_of (Qc_of_Z 3) (Qc_of_Z 5)).
Proof. intros [_ H]. by vm_compute in H. Qed.

(** C2, as the code has it.  The error rate lies in [[0,1]] when the failed
    count is between [0] and the total count. *)
Theorem error_rate_bounds (_query_scalar : string → option Qc) :
  let metrics := collect_k6_metrics _query_scalar in
  0 ≤ failed_requests metrics ≤ total_requests metrics →
  (0 ≤ error_rate metrics ≤ 1)%Qc.
Proof.
  simpl. intros [Hf Hft]. case_bool_decide as Ht; [|done].
  apply Qcdiv_bounds;
    [by apply Qc_of_Z_nonneg|by apply (proj1 (Z2Qc_inj_le _ _))|by apply Qc_of_Z_pos].
Qed.

Lemma error_rate_bounds_witness :
  0 ≤ failed_requests (collect_k6_metrics (backend_of (Qc_of_Z 1000) (Qc_of_Z 5)))
    ≤ total_requests (collect_k6_metrics (backend_of (Qc_of_Z 1000) (Qc_of_Z 5)))
  ∧ (0 ≤ error_rate (collect_k6_metrics (backend_of (Qc_of_Z 1000) (Qc_of_Z 5))) ≤ 1)%Qc.
Proof.
  assert (0 ≤ failed_requests
                (collect_k6_metrics (backend_of (Qc_of_Z 1000) (Qc_of_Z 5)))
            ≤ total_requests
                (collect_k6_metrics (backend_of (Qc_of_Z 1000) (Qc_of_Z 5))))
    as Hcounts by (by vm_compute).
  split; [exact Hcounts|].
  exact (error_rate_bounds (backend_of (Qc_of_Z 1000) (Qc_of_Z 5)) Hcounts).
Defined.

(** ** Cumulative resource metrics *)

Lemma sum_foldl_acc (a : Qc) (l : list Qc) :
  foldl Qcplus a l = (a + Py.sum l)%Qc.
Proof.
  unfold Py.sum. revert a. induction l as [|x l IH]; intros a; simpl.
  - by rewrite Qcplus_0_r.
  - rewrite IH, (IH (0 + x)%Qc). ring.
Qed.

Lemma sum_cons (x : Qc) (l : list Qc) : Py.sum (x :: l) = (x + Py.sum l)%Qc.
Proof. unfold Py.sum at 1. simpl. rewrite sum_foldl_acc. ring. Qed.

(** The sum does not depend on the order of the snapshots. *)
Lemma sum_permutation (l1 l2 : list Qc) : l1 ≡ₚ l2 → Py.sum l1 = Py.sum l2.
Proof.
  induction 1 as [|x l1 l2 _ IH|x y l|l1 l2 l3 _ IH1 _ IH2];
    rewrite ?sum_cons; [done|by rewrite IH|ring|congruence].
Qed.

(** C7.  The cumulative average and maximum fields of CPU and memory all equal
    the sum of the per-pod averages, over the pod snapshots taken in any
    order. *)
Theorem cumulative_is_sum (cpu_response mem_response : option (list sample))
    (snapshots : list PodResourceMetrics.t) :
  snapshots ≡ₚ (collect_pod_metrics cpu_response mem_response).1 →
  CumulativeResourceMetrics.avg_cpu_millicores
      (collect_pod_metrics cpu_response mem_response).2
    = Py.sum (PodResourceMetrics.avg_cpu_millicores <$> snapshots)
  ∧ CumulativeResourceMetrics.avg_memory_mb
      (collect_pod_metrics cpu_response mem_response).2
    = Py.sum (PodResourceMetrics.avg_memory_mb <$> snapshots)
  ∧ CumulativeResourceMetrics.max_cpu_millicores
      (collect_pod_metrics cpu_response mem_response).2
    = Py.sum (PodResourceMetrics.avg_cpu_millicores <$> snapshots)
  ∧ CumulativeResourceMetrics.max_memory_mb
      (collect_pod_metrics cpu_response mem_response).2
    = Py.sum (PodResourceMetrics.avg_memory_mb <$> snapshots).
Proof.
  unfold collect_pod_metrics.
  destruct (match cpu_response, mem_response with
            | Some c, Some m => (c, m) | _, _ => ([], []) end) as [cpu mem].
  intros Hp. simpl in *.
  rewrite (sum_permutation _ _ (fmap_Permutation PodResourceMetrics.avg_cpu_millicores _ _ Hp)).
  rewrite (sum_permutation _ _ (fmap_Permutation PodResourceMetrics.avg_memory_mb _ _ Hp)).
  done.
Qed.

Lemma cumulative_is_sum_witness :
  two_pods_snapshots
    ≡ₚ (collect_pod_metrics (Some two_pods_cpu) (Some two_pods_mem)).1
  ∧ CumulativeResourceMetrics.avg_cpu_millicores
      (collect_pod_metrics (Some two_pods_cpu) (Some two_pods_mem)).2
    = Py.sum (PodResourceMetrics.avg_cpu_millicores <$> two_pods_snapshots)
  ∧ CumulativeResourceMetrics.max_cpu_millicores
      (collect_pod_metrics (Some two_pods_cpu) (Some two_pods_mem)).2
    = Py.sum (PodResourceMetrics.avg_cpu_millicores <$> two_pods_snapshots).
Proof.
  assert (two_pods_snapshots
            ≡ₚ (collect_pod_metrics (Some two_pods_cpu) (Some two_pods_mem)).1)
    as Hp by (vm_compute; apply perm_swap).
  split; [exact Hp|].
  destruct (cumulative_is_sum (Some two_pods_cpu) (Some two_pods_mem)
              two_pods_snapshots Hp) as (Hcpu & _ & Hmax & _).
  by split.
Defined.

(** The cumulative maximum is the sum of the pods, not the greatest of them:
    two pods at 120 and 80 millicores give 200. *)
Example cumulative_max_two_pods :
  CumulativeResourceMetrics.max_cpu_millicores
    (collect_pod_metrics (Some two_pods_cpu) (Some two_pods_mem)).2
  = Qc_of_Z 200.
Proof. apply Qc_is_canon. by vm_compute. Qed.

(** ** Stage alignment *)

Lemma parse_duration_of (stage : K6Stage) :
  parse_duration_to_seconds (duration stage) = Some (duration_of stage).
Proof.
  unfold duration_of.
  by destruct (parse_duration_returns (duration stage)) as (n & -> & _).
Qed.

Lemma total_declared_duration_cons stage stages :
  total_declared_duration (stage :: stages)
  = duration_of stage + total_declared_duration stages.
Proof. done. Qed.

Lemma sum_durations_spec (stages : list K6Stage) (acc : Z) :
  sum_durations stages acc = Some (acc + total_declared_duration stages).
Proof.
  revert acc. induction stages as [|s stages IH]; intros acc.
  - simpl. f_equal. unfold total_declared_duration. simpl. lia.
  - rewrite total_declared_duration_cons. simpl.
    rewrite parse_duration_of. simpl. rewrite IH. f_equal. lia.
Qed.

Lemma max_foldl_spec (x : Qc) (l : list Qc) :
  latest (foldl (λ m y, if decide (m < y)%Qc then y else m) x l) (x :: l).
Proof.
  revert x. induction l as [|y l IH]; intros x; simpl.
  - split; [left|]. by intros t ->%list_elem_of_singleton.
  - destruct (IH (if decide (x < y)%Qc then y else x)) as [Hin Hle]. split.
    + apply elem_of_cons in Hin as [->|Hin].
      * case_decide; [right; left|left].
      * by do 2 right.
    + intros t [->|Ht]%elem_of_cons.
      * etrans; [|apply Hle; left]. case_decide; [by apply Qclt_le_weak|done].
      * apply elem_of_cons in Ht as [->|Ht]; [|apply Hle; by right].
        etrans; [|apply Hle; left].
        case_decide as Hxy; [done|by apply Qcnot_lt_le].
Qed.

Lemma max_spec (l : list Qc) :
  l ≠ [] → ∃ m, Py.max l = Some m ∧ latest m l.
Proof.
  destruct l as [|x l]; [done|]. intros _. eexists. split; [done|].
  apply max_foldl_spec.
Qed.






Lemma VUStage_eq (s e s' e' : Qc) (v : Z) :
  (s == s')%Q → (e == e')%Q → mkVUStage s e v = mkVUStage s' e' v.
Proof. by intros ->%Qc_is_canon ->%Qc_is_canon. Qed.



(** On the sample ramp the series ends at 1700000120 and the stages last 120
    seconds: the windows start at 1700000000. *)
Example alignment_fallback_ramp :
  main_vu_stages (Some ramp_config) None ramp_series
  = Some [ mkVUStage (Qc_of_Z 1700000000) (Qc_of_Z 1700000030) 20;
           mkVUStage (Qc_of_Z 1700000030) (Qc_of_Z 1700000090) 50;
           mkVUStage (Qc_of_Z 1700000090) (Qc_of_Z 1700000120) 20 ].
Proof.
  vm_compute. f_equal.
  repeat (apply (f_equal2 cons); [apply VUStage_eq; reflexivity|]).
  reflexivity.
Qed.

(** ** From canonical rationals to rationals *)

Lemma this_plus (x y : Qc) : (this (x + y)%Qc == this x + this y)%Q.
Proof. apply Qred_correct. Qed.
Lemma this_opp (x : Qc) : (this (- x)%Qc == - this x)%Q.
Proof. apply Qred_correct. Qed.
Lemma this_minus (x y : Qc) : (this (x - y)%Qc == this x - this y)%Q.
Proof. unfold Qcminus. rewrite this_plus, this_opp. reflexivity. Qed.
Lemma this_mult (x y : Qc) : (this (x * y)%Qc == this x * this y)%Q.
Proof. apply Qred_correct. Qed.
Lemma this_inv (x : Qc) : (this (/ x)%Qc == / this x)%Q.
Proof. apply Qred_correct. Qed.
Lemma this_div (x y : Qc) : (this (x / y)%Qc == this x / this y)%Q.
Proof. unfold Qcdiv. rewrite this_mult, this_inv. reflexivity. Qed.
Lemma this_of_Z (n : Z) : this (Qc_of_Z n) = inject_Z n.
Proof. done. Qed.

Ltac to_Q :=
  unfold Qcle, Qclt in *;
  repeat match goal with
         | H : context [this (_ + _)%Qc] |- _ => rewrite this_plus in H
         | H : context [this (_ - _)%Qc] |- _ => rewrite this_minus in H
         | H : context [this (_ * _)%Qc] |- _ => rewrite this_mult in H
         | H : context [this (_ / _)%Qc] |- _ => rewrite this_div in H
         | H : context [this (Qc_of_Z _)] |- _ => rewrite this_of_Z in H
         | |- context [this (_ + _)%Qc] => rewrite this_plus
         | |- context [this (_ - _)%Qc] => rewrite this_minus
         | |- context [this (_ * _)%Qc] => rewrite this_mult
         | |- context [this (_ / _)%Qc] => rewrite this_div
         | |- context [this (Qc_of_Z _)] => rewrite this_of_Z
         end.

Lemma int_of_float_Z (n : Z) : Py.int_of_float (Qc_of_Z n) = n.
Proof.
  unfold Py.int_of_float. case_decide; [apply Qceiling_Z|apply Qfloor_Z].
Qed.

(** ** The scale of the y axis *)

(** [_round_to_nearest] with step 10 on the rational [value]. *)
Lemma round_to_nearest_10 (value : Qc) :
  _round_to_nearest value 10 = 10 * Qfloor ((this value + 9) / 10)%Q.
Proof.
  unfold _round_to_nearest, Py.floordiv.
  rewrite <-Z2Qc_inj_mul, int_of_float_Z.
  assert (this ((value + Qc_of_Z 10 - Qc_of_Z 1) / Qc_of_Z 10)%Qc
          == (this value + 9) / 10)%Q as ->.
  { to_Q. change (inject_Z 10) with 10%Q. change (inject_Z 1) with 1%Q. field. }
  lia.
Qed.

Lemma floor_ge (n : Z) (q : Q) : (inject_Z n <= q)%Q → n ≤ Qfloor q.
Proof. intros H%Qfloor_resp_le. by rewrite Qfloor_Z in H. Qed.

Lemma floor_lt (n : Z) (q : Q) : (q < inject_Z n)%Q → Qfloor q < n.
Proof.
  intros H. destruct (Z_lt_le_dec (Qfloor q) n) as [|Hn]; [done|].
  rewrite Zle_Qle in Hn. pose proof (Qfloor_le q). lra.
Qed.

Lemma ceiling_le (n : Z) (q : Q) : (q <= inject_Z n)%Q → Qceiling q ≤ n.
Proof. intros H%Qceiling_resp_le. by rewrite Qceiling_Z in H. Qed.

Lemma ceiling_gt (n : Z) (q : Q) : (inject_Z n < q)%Q → n < Qceiling q.
Proof.
  intros H. destruct (Z_lt_le_dec n (Qceiling q)) as [|Hn]; [done|].
  rewrite Zle_Qle in Hn. pose proof (Qle_ceiling q). lra.
Qed.

Lemma Qdiv_lt_inv (a b c : Q) : (0 < b → a / b < c → a < c * b)%Q.
Proof.
  intros Hb H. destruct (Qlt_le_dec a (c * b)) as [|Hle]; [done|].
  apply Qle_shift_div_l in Hle; [lra|done].
Qed.

Lemma Qdiv_le_inv (a b c : Q) : (0 < b → c <= a / b → c * b <= a)%Q.
Proof.
  intros Hb H. destruct (Qlt_le_dec a (c * b)) as [Hlt|]; [|done].
  apply Qlt_shift_div_r in Hlt; [lra|done].
Qed.

Lemma Qdiv_ge_inv (a b c : Q) : (0 < b → a / b <= c → a <= c * b)%Q.
Proof.
  intros Hb H. destruct (Qlt_le_dec (c * b) a) as [Hlt|]; [|done].
  apply Qlt_shift_div_l in Hlt; [lra|done].
Qed.

Lemma Qdiv_gt_inv (a b c : Q) : (0 < b → c < a / b → c * b < a)%Q.
Proof.
  intros Hb H. destruct (Qlt_le_dec (c * b) a) as [|Hle]; [done|].
  apply Qle_shift_div_r in Hle; [lra|done].
Qed.

Lemma y_max_of_eq cumulative_points per_pod_data max_value :
  Py.max (all_values cumulative_points per_pod_data) = Some max_value →
  let f := Qfloor ((this max_value * (11 # 10) + 9) / 10)%Q in
  y_max_of cumulative_points per_pod_data
  = if decide (10 * f = 0) then 10 else 10 * f.
Proof.
  intros Hmax. unfold y_max_of. rewrite Hmax. simpl default.
  rewrite round_to_nearest_10.
  assert (Qfloor ((this (max_value * (Qc_of_Z 11 / Qc_of_Z 10))%Qc + 9) / 10)
          = Qfloor ((this max_value * (11 # 10) + 9) / 10)) as ->; [|done].
  apply Qfloor_comp. to_Q.
  change (inject_Z 11) with 11%Q. change (inject_Z 10) with 10%Q. field.
Qed.

Section Scale.
Variables (M : Q) (f : Z).
Hypothesis Hf : f = Qfloor ((M * (11 # 10) + 9) / 10)%Q.
Hypothesis HM : (0 <= M)%Q.

Lemma scale_floor_nonneg : 0 ≤ f.
Proof.
  subst f. apply floor_ge. change (inject_Z 0) with 0%Q.
  apply Qle_shift_div_l; lra.
Qed.

Lemma scale_positive : 0 < ten_or f ∧ ten_or f `mod` 10 = 0.
Proof.
  pose proof scale_floor_nonneg. unfold ten_or. case_decide; [done|].
  split; [lia|]. by rewrite Z.mul_comm, Z.mod_mul.
Qed.

Lemma scale_covers : (M <= inject_Z (ten_or f))%Q.
Proof.
  pose proof scale_floor_nonneg as H0.
  pose proof (Qlt_floor ((M * (11 # 10) + 9) / 10)) as Hlt.
  rewrite <-Hf in Hlt. rewrite inject_Z_plus in Hlt.
  change (inject_Z 1) with 1%Q in Hlt.
  apply Qdiv_lt_inv in Hlt; [|lra].
  unfold ten_or. case_decide as H10.
  - assert (f = 0) as -> by lia. change (inject_Z 0) with 0%Q in Hlt.
    change (inject_Z 10) with 10%Q. lra.
  - assert (1 ≤ f) as Hf1 by lia. rewrite Zle_Qle in Hf1.
    change (inject_Z 1) with 1%Q in Hf1.
    rewrite inject_Z_mult. change (inject_Z 10) with 10%Q. lra.
Qed.
End Scale.

Section Specified.
Variables (M : Q) (f c : Z).
Hypothesis Hf : f = Qfloor ((M * (11 # 10) + 9) / 10)%Q.
Hypothesis Hc : c = Qceiling (M * (11 # 10) / 10)%Q.
Hypothesis HM : (0 <= M)%Q.

Lemma scale_ceiling_nonneg : 0 ≤ c.
Proof.
  cut (-1 < c); [lia|]. subst c. apply ceiling_gt.
  change (inject_Z (-1)) with (-1)%Q. apply Qlt_shift_div_l; lra.
Qed.

Lemma scale_floor_le_ceiling : f ≤ c.
Proof.
  cut (f < c + 1); [lia|]. subst f. apply floor_lt.
  pose proof (Qle_ceiling (M * (11 # 10) / 10)) as Hle. rewrite <-Hc in Hle.
  apply Qdiv_ge_inv in Hle; [|lra].
  rewrite inject_Z_plus. change (inject_Z 1) with 1%Q.
  apply Qlt_shift_div_r; lra.
Qed.

(** Outside the interval just above a positive multiple of 10, the floor
    after adding 9 is the ceiling. *)
Lemma scale_eq_specified_unless_short :
  ¬ (∃ k : Z, 1 ≤ k ∧ (inject_Z (10 * k) < M * (11 # 10))%Q
              ∧ (M * (11 # 10) < inject_Z (10 * k + 1))%Q) →
  ten_or f = ten_or c.
Proof.
  intros Hshort.
  pose proof scale_floor_le_ceiling as Hfc.
  pose proof (scale_floor_nonneg M f Hf HM) as Hf0.
  pose proof (Qceiling_lt (M * (11 # 10) / 10)) as Hlt. rewrite <-Hc in Hlt.
  apply Qdiv_gt_inv in Hlt; [|lra].
  assert (inject_Z (c - 1) == inject_Z c - 1)%Q as Hc1.
  { unfold Z.sub. rewrite inject_Z_plus, inject_Z_opp.
    change (inject_Z 1) with 1%Q. lra. }
  rewrite Hc1 in Hlt.
  destruct (Qlt_le_dec (M * (11 # 10)) (inject_Z (10 * (c - 1) + 1)))
    as [Hlow|Hhigh].
  - destruct (decide (1 ≤ c - 1)) as [Hk|Hk].
    + destruct Hshort. exists (c - 1). split; [done|]. split; [|done].
      rewrite inject_Z_mult, Hc1. change (inject_Z 10) with 10%Q. lra.
    + unfold ten_or. repeat case_decide; lia.
  - cut (c ≤ f).
    { intros. by replace c with f by lia. }
    subst f. apply floor_ge. apply Qle_shift_div_l; [lra|].
    rewrite inject_Z_plus, inject_Z_mult, Hc1 in Hhigh.
    change (inject_Z 10) with 10%Q in Hhigh.
    change (inject_Z 1) with 1%Q in Hhigh. lra.
Qed.
End Specified.

Lemma to_svg_y_bounds (y_max : Z) (v : Qc) :
  0 < y_max → (0 ≤ v)%Qc → (v ≤ Qc_of_Z y_max)%Qc →
  (Qc_of_Z MARGIN_TOP ≤ to_svg_y y_max v ≤ Qc_of_Z (MARGIN_TOP + GRAPH_HEIGHT))%Qc.
Proof.
  intros Hy H0 Hv.
  destruct (Qcdiv_bounds v (Qc_of_Z y_max)) as [Hr0 Hr1];
    [done|done|by apply Qc_of_Z_pos|].
  unfold to_svg_y. generalize dependent (v / Qc_of_Z y_max)%Qc. intros r Hr0 Hr1.
  change (Qc_of_Z MARGIN_TOP) with (Qc_of_Z 50).
  change (Qc_of_Z GRAPH_HEIGHT) with (Qc_of_Z 220).
  change (Qc_of_Z (MARGIN_TOP + GRAPH_HEIGHT)) with (Qc_of_Z 270).
  to_Q. change (this 0%Qc) with 0%Q in *. change (this 1%Qc) with 1%Q in *.
  change (inject_Z 50) with 50%Q. change (inject_Z 220) with 220%Q.
  change (inject_Z 270) with 270%Q. lra.
Qed.

(** The counterpart of the specified scale fails on a series with negative
    values: the y axis maximum is [-50]. *)
Lemma y_scale_fails_below_zero : ¬ y_scale_as_specified falling_series [].
Proof. intros (m & _ & _ & Hpos & _). by vm_compute in Hpos. Qed.

Lemma elem_of_all_values (cumulative_points : list TimeSeriesPoint)
    (per_pod_data : series_dict) (v : Qc) :
  v ∈ all_values cumulative_points per_pod_data
  ↔ ∃ p, plotted cumulative_points per_pod_data p ∧ value p = v.
Proof.
  unfold all_values, plotted, values. rewrite elem_of_app, list_elem_of_fmap.
  assert (v ∈ concat ((λ points : list TimeSeriesPoint, value <$> points)
                        <$> per_pod_data.*2)
          ↔ ∃ p pod_name points,
              (pod_name, points) ∈ per_pod_data ∧ p ∈ points ∧ value p = v)
    as ->.
  { induction per_pod_data as [|[name points] rest IH]; simpl.
    - split; [by intros ?%elem_of_nil|].
      by intros (? & ? & ? & ?%elem_of_nil & _).
    - rewrite elem_of_app, list_elem_of_fmap, IH. split.
      + intros [(p & -> & Hp)|(p & pod_name & points' & Hin & Hp & <-)].
        * exists p, name, points. split; [left|done].
        * exists p, pod_name, points'. split; [by right|done].
      + intros (p & pod_name & points' & Hin & Hp & <-).
        apply elem_of_cons in Hin as [[= -> ->]|Hin].
        * left. by exists p.
        * right. by exists p, pod_name, points'. }
  split.
  - intros [(p & -> & Hp)|(p & pod_name & points & Hin & Hp & <-)].
    + exists p. split; [by left|done].
    + exists p. split; [right; by exists pod_name, points|done].
  - intros (p & [Hp|(pod_name & points & Hin & Hp)] & <-).
    + left. by exists p.
    + right. by exists p, pod_name, points.
Qed.

Lemma latest_greatest_plotted (cumulative_points : list TimeSeriesPoint)
    (per_pod_data : series_dict) (max_value : Qc) :
  latest max_value (all_values cumulative_points per_pod_data)
  ↔ greatest_plotted cumulative_points per_pod_data max_value.
Proof.
  unfold latest, greatest_plotted. rewrite elem_of_all_values. split.
  - intros [Hin Hle]. split; [done|]. intros p Hp. apply Hle.
    apply elem_of_all_values. by exists p.
  - intros [Hin Hle]. split; [done|].
    intros v (p & Hp & <-)%elem_of_all_values. by apply Hle.
Qed.

(** C1, as the code has it.  For series without a negative value, [y_max] is
    a positive multiple of 10 and every point of the cumulative series and of
    the series of the pods is drawn between the top and the bottom of the
    plot area; [y_max] is the greatest value scaled by 1.1 and rounded up to
    the next multiple of 10, with 10 in place of 0, when the scaled value
    does not lie less than 1 above a positive multiple of 10. *)
Theorem y_scale_nonneg_points (cumulative_points : list TimeSeriesPoint)
    (per_pod_data : series_dict) :
  cumulative_points ≠ [] →
  (∀ p, plotted cumulative_points per_pod_data p → (0 ≤ value p)%Qc) →
  ∃ max_value : Qc,
    greatest_plotted cumulative_points per_pod_data max_value
    ∧ let y_max := y_max_of cumulative_points per_pod_data in
      (¬ rounds_short (max_value * (Qc_of_Z 11 / Qc_of_Z 10))%Qc →
       y_max = specified_y_max max_value)
      ∧ 0 < y_max ∧ y_max `mod` 10 = 0
      ∧ ∀ p, plotted cumulative_points per_pod_data p →
          (Qc_of_Z MARGIN_TOP ≤ to_svg_y y_max (value p)
           ≤ Qc_of_Z (MARGIN_TOP + GRAPH_HEIGHT))%Qc.
Proof.
  intros Hne Hnonneg.
  destruct (max_spec (all_values cumulative_points per_pod_data))
    as (m & Hmax & Hm).
  { unfold all_values. by destruct cumulative_points. }
  apply latest_greatest_plotted in Hm.
  exists m. split; [done|]. cbv zeta.
  rewrite (y_max_of_eq _ _ _ Hmax). cbv zeta.
  set (f := Qfloor ((this m * (11 # 10) + 9) / 10)).
  destruct Hm as [(pm & Hpm & Hvm) Hle].
  assert (0 <= this m)%Q as HM by (rewrite <-Hvm; by apply (Hnonneg pm)).
  assert (specified_y_max m
          = let c := Qceiling (this m * (11 # 10) / 10) in
            if decide (10 * c = 0) then 10 else 10 * c) as Hspec.
  { unfold specified_y_max, round_up_to_multiple_of_10.
    assert (Qceiling (this (m * (Qc_of_Z 11 / Qc_of_Z 10) / Qc_of_Z 10)%Qc)
            = Qceiling (this m * (11 # 10) / 10)) as ->; [|done].
    apply Qceiling_comp. to_Q.
    change (inject_Z 11) with 11%Q. change (inject_Z 10) with 10%Q. field. }
  assert (this (m * (Qc_of_Z 11 / Qc_of_Z 10))%Qc == this m * (11 # 10))%Q
    as Hscaled.
  { to_Q. change (inject_Z 11) with 11%Q. change (inject_Z 10) with 10%Q.
    field. }
  destruct (scale_positive (this m) f eq_refl HM) as [Hpos Hmod].
  pose proof (scale_covers (this m) f eq_refl HM) as Hcov.
  split_and!; [|done|done|].
  - intros Hshort. rewrite Hspec.
    apply (scale_eq_specified_unless_short (this m) f _ eq_refl eq_refl HM).
    intros (k & Hk & Hlo & Hhi). apply Hshort. exists k.
    unfold Qclt. rewrite !this_of_Z, Hscaled. by split_and!.
  - intros p Hp. apply to_svg_y_bounds; [done|by apply Hnonneg|].
    etrans; [by apply Hle|]. by rewrite <-this_of_Z in Hcov.
Qed.

Lemma y_scale_nonneg_points_witness :
  low_series ≠ []
  ∧ (∀ p, plotted low_series swapped_pods_1 p → (0 ≤ value p)%Qc)
  ∧ greatest_plotted low_series swapped_pods_1 (Qc_of_Z 12)
  ∧ y_max_of low_series swapped_pods_1 = specified_y_max (Qc_of_Z 12)
  ∧ 0 < y_max_of low_series swapped_pods_1
  ∧ y_max_of low_series swapped_pods_1 `mod` 10 = 0
  ∧ ∀ p, plotted low_series swapped_pods_1 p →
      (Qc_of_Z MARGIN_TOP
       ≤ to_svg_y (y_max_of low_series swapped_pods_1) (value p)
       ≤ Qc_of_Z (MARGIN_TOP + GRAPH_HEIGHT))%Qc.
Proof.
  assert (low_series ≠ []) as Hne by done.
  assert (∀ p, plotted low_series swapped_pods_1 p → (0 ≤ value p)%Qc)
    as Hnonneg.
  { intros p Hp. apply (Forall_forall (λ v, 0 ≤ v)%Qc
                          (all_values low_series swapped_pods_1)).
    - repeat constructor; by vm_compute.
    - apply elem_of_all_values. by exists p. }
  assert (greatest_plotted low_series swapped_pods_1 (Qc_of_Z 12)) as Hmax.
  { apply latest_greatest_plotted. split.
    - apply list_elem_of_further, list_elem_of_here.
    - apply Forall_forall. repeat constructor; by vm_compute. }
  split; [exact Hne|]. split; [exact Hnonneg|]. split; [exact Hmax|].
  destruct (y_scale_nonneg_points low_series swapped_pods_1 Hne Hnonneg)
    as (m & Hm & Heq & Hpos & Hmod & Hin).
  assert (m = Qc_of_Z 12) as ->.
  { destruct Hm as [(p & Hp & <-) Hle], Hmax as [(p' & Hp' & <-) Hle'].
    apply Qcle_antisym; auto. }
  split_and!; [|done..]. apply Heq.
  intros (k & Hk & Hlo & Hhi).
  assert (k < 2) as Hk2.
  { assert (this (Qc_of_Z 12 * (Qc_of_Z 11 / Qc_of_Z 10))%Qc == 66 # 5)%Q
      as Hscaled by done.
    rewrite Zlt_Qlt. unfold Qclt in Hlo.
    rewrite this_of_Z, inject_Z_mult, Hscaled in Hlo.
    change (inject_Z 10) with 10%Q in Hlo. change (inject_Z 2) with 2%Q.
    lra. }
  assert (k = 1) as -> by lia. by vm_compute in Hhi.
Defined.

(** The greatest value 30 scales to 33: the axis ends at 40, the rounding the
    specification names. *)
Example y_scale_rising :
  y_max_of rising_series [] = 40 ∧ specified_y_max (Qc_of_Z 30) = 40.
Proof. by vm_compute. Qed.

(** The greatest value, 12, is a value of the series of a pod; it scales to
    13.2 and the axis ends at 20. *)
Example y_scale_per_pod :
  y_max_of low_series swapped_pods_1 = 20 ∧ specified_y_max (Qc_of_Z 12) = 20.
Proof. by vm_compute. Qed.

(** The greatest value 9.5 scales to 10.45: the code adds 9 and takes the
    floor of the tenth, which gives 10, where rounding up gives 20. *)
Example y_scale_low :
  y_max_of low_series [] = 10 ∧ specified_y_max (Q2Qc (19 # 2)) = 20.
Proof. by vm_compute. Qed.

(** ** The image is always produced *)

Lemma index_mod {A} (l : list A) (i : nat) :
  l ≠ [] → is_Some (Py.index l (Z.of_nat i `mod` Py.len_list l)).
Proof.
  intros Hl. unfold Py.index, Py.len_list.
  assert (0 < Z.of_nat (length l)) as Hlen by (destruct l; [done|simpl; lia]).
  pose proof (Z.mod_pos_bound (Z.of_nat i) _ Hlen) as Hb.
  rewrite bool_decide_eq_true_2 by lia.
  apply lookup_lt_is_Some. lia.
Qed.

Lemma mapM_imap_total {A B} (f : nat → A → option B) (l : list A) :
  (∀ i x, is_Some (f i x)) → is_Some (mapM id (imap f l)).
Proof.
  intros Hf. apply mapM_is_Some. revert f Hf.
  induction l as [|x l IH]; intros f Hf; simpl; constructor.
  - apply Hf.
  - apply IH. intros i y. apply Hf.
Qed.

Lemma vu_bands_total min_time max_time time_range vu_stages :
  is_Some (vu_bands min_time max_time time_range vu_stages).
Proof.
  unfold vu_bands. apply fmap_is_Some, mapM_imap_total. intros i stage.
  unfold vu_band. case_decide; [done|].
  destruct (index_mod VU_BG_COLORS i ltac:(done)) as [c ->]. done.
Qed.

Lemma cumulative_area_total min_time time_range y_max cumulative_points :
  is_Some (cumulative_area min_time time_range y_max cumulative_points).
Proof.
  unfold cumulative_area. destruct cumulative_points as [|first rest]; [done|].
  destruct (last (first :: rest)) eqn:E; [done|].
  by apply last_None in E.
Qed.

Lemma pod_lines_total min_time time_range y_max per_pod_data :
  is_Some (pod_lines min_time time_range y_max per_pod_data).
Proof.
  unfold pod_lines. apply fmap_is_Some, mapM_is_Some.
  assert (∀ pods colors, colors ≠ [] →
            is_Some (@concat string <$>
                       mapM id (imap (pod_line min_time time_range y_max
                                        per_pod_data colors) pods))) as H.
  { intros pods colors Hc. apply fmap_is_Some, mapM_imap_total. intros i name.
    unfold pod_line. destruct (get per_pod_data name); [done|].
    by destruct (index_mod colors i Hc) as [c ->]. }
  unfold pod_groups. repeat constructor; by apply H.
Qed.

Lemma join_app (l1 l2 : list string) :
  Py.join (l1 ++ l2) = Py.join l1 +:+ Py.join l2.
Proof.
  unfold Py.join. induction l1 as [|s l1 IH]; [done|].
  simpl. by rewrite IH, app_assoc'.
Qed.

Lemma join_shape (svg_parts legend_parts : list string) :
  Py.join ((svg_parts ++ legend_parts) ++ ["</svg>"])
  = Py.join svg_parts +:+ Py.join legend_parts +:+ "</svg>".
Proof. rewrite !join_app. unfold Py.join at 3. simpl. by rewrite app_assoc'. Qed.

(** The image of a non-empty series: everything appended before the legend,
    then the legend entries, then the closing tag. *)
Lemma generate_resource_graph_shape cumulative_points per_pod_data vu_stages
    title y_label :
  cumulative_points ≠ [] →
  ∃ svg_parts,
    generate_resource_graph cumulative_points per_pod_data vu_stages title y_label
    = Some (Py.join svg_parts
              +:+ Py.join (legend (HEIGHT - 15) MARGIN_LEFT (legend_items per_pod_data))
              +:+ "</svg>").
Proof.
  intros Hne. unfold generate_resource_graph.
  destruct cumulative_points as [|first rest]; [done|].
  destruct (Py.min (timestamp <$> first :: rest)) as [min_time|] eqn:Emin; [|done].
  destruct (Py.max (timestamp <$> first :: rest)) as [max_time|] eqn:Emax; [|done].
  cbn [mbind option_bind]. cbv zeta.
  match goal with |- context [vu_bands ?a ?b ?c ?d] =>
    destruct (vu_bands_total a b c d) as [bands ->] end.
  match goal with |- context [cumulative_area ?a ?b ?c ?d] =>
    destruct (cumulative_area_total a b c d) as [area ->] end.
  match goal with |- context [pod_lines ?a ?b ?c ?d] =>
    destruct (pod_lines_total a b c d) as [lines ->] end.
  cbn [mbind option_bind]. eexists. rewrite join_shape. reflexivity.
Qed.

(** ** The legend *)

Lemma sorted_nil (l : list string) : Py.sorted l = [] ↔ l = [].
Proof.
  unfold Py.sorted. split; [|by intros ->].
  intros H. pose proof (merge_sort_Permutation String.le l) as Hp.
  rewrite H in Hp. by apply Permutation_nil_l in Hp.
Qed.

Lemma filter_nil_Exists {A} (P : A → Prop) `{∀ x, Decision (P x)} (l : list A) :
  filter P l = [] ↔ ¬ Exists P l.
Proof.
  induction l as [|x l IH].
  - split; [|done]. intros _ H'. inversion H'.
  - rewrite filter_cons, Exists_cons. case_decide; [split; [done|tauto]|].
    rewrite IH. tauto.
Qed.

Lemma marker_group_nil (marker : string) (per_pod_data : series_dict) :
  Py.sorted (filter (λ p, Is_true (Py.contains marker (Py.lower p)))
               (keys per_pod_data)) = []
  ↔ has_marker marker per_pod_data = false.
Proof.
  rewrite sorted_nil, filter_nil_Exists. unfold has_marker.
  by rewrite bool_decide_eq_false.
Qed.

(** The legend that the specification describes is not the legend of a graph
    whose only pod carries no marker: the pod is in a group of its own, drawn
    in the first palette, and the legend has the cumulative entry alone. *)
Lemma legend_omits_unmarked_group : ¬ legend_as_specified unmarked_pods.
Proof.
  intros (labels & Hlen & Hitems).
  apply (f_equal length) in Hitems. vm_compute in Hlen.
  destruct labels as [|l [|??]]; done.
Qed.

(** C8, as the code has it.  The image of a non-empty cumulative series ends
    with the legend and the closing tag; the legend has the cumulative entry,
    then an entry in the first foo colour when some pod name holds "foo",
    then an entry in the first bar colour when some pod name holds "bar", and
    nothing else. *)
Theorem legend_lists_marker_groups (cumulative_points : list TimeSeriesPoint)
    (per_pod_data : series_dict) (vu_stages : list VUStage)
    (title y_label : string) :
  cumulative_points ≠ [] →
  (∃ svg_parts,
     generate_resource_graph cumulative_points per_pod_data vu_stages title y_label
     = Some (Py.join svg_parts
               +:+ Py.join (legend (HEIGHT - 15) MARGIN_LEFT
                              (legend_items per_pod_data))
               +:+ "</svg>"))
  ∧ legend_items per_pod_data
    = [("Cumulative", "#3b82f6")]
        ++ (if has_marker "foo" per_pod_data then [("foo pods", "#8b5cf6")] else [])
        ++ (if has_marker "bar" per_pod_data then [("bar pods", "#22c55e")] else []).
Proof.
  intros Hne. split; [by apply generate_resource_graph_shape|].
  unfold legend_items, foo_pods, bar_pods.
  pose proof (marker_group_nil "foo" per_pod_data) as Hfoo.
  pose proof (marker_group_nil "bar" per_pod_data) as Hbar.
  case_decide as H1; case_decide as H2; rewrite Hfoo in H1; rewrite Hbar in H2;
    destruct (has_marker "foo" per_pod_data), (has_marker "bar" per_pod_data);
    first [reflexivity | congruence].
Qed.

Lemma legend_lists_marker_groups_witness :
  one_point ≠ []
  ∧ legend_items swapped_pods_1
    = [("Cumulative", "#3b82f6")]
        ++ (if has_marker "foo" swapped_pods_1 then [("foo pods", "#8b5cf6")] else [])
        ++ (if has_marker "bar" swapped_pods_1 then [("bar pods", "#22c55e")] else []).
Proof.
  assert (one_point ≠ []) as Hne by done.
  split; [exact Hne|].
  exact (proj2 (legend_lists_marker_groups one_point swapped_pods_1 [] "CPU" "m" Hne)).
Defined.

Example legend_two_groups :
  legend_items swapped_pods_1
  = [("Cumulative", "#3b82f6"); ("foo pods", "#8b5cf6"); ("bar pods", "#22c55e")].
Proof. by vm_compute. Qed.

(** ** The image does not depend on the order of the dictionary *)

Lemma latest_unique (m m' : Qc) (l : list Qc) :
  latest m l → latest m' l → m = m'.
Proof. intros [Hin Hle] [Hin' Hle']. apply Qcle_antisym; auto. Qed.

Lemma latest_permutation (m : Qc) (l l' : list Qc) :
  l ≡ₚ l' → latest m l → latest m l'.
Proof.
  intros Hp [Hin Hle]. split; [by rewrite <-Hp|].
  intros t Ht. apply Hle. by rewrite Hp.
Qed.

Lemma max_permutation (l l' : list Qc) : l ≡ₚ l' → Py.max l = Py.max l'.
Proof.
  intros Hp. destruct (decide (l = [])) as [->|Hl].
  { by apply Permutation_nil_l in Hp as ->. }
  assert (l' ≠ []) as Hl' by (intros ->; by apply Permutation_nil_r in Hp).
  destruct (max_spec l Hl) as (m & -> & Hm).
  destruct (max_spec l' Hl') as (m' & -> & Hm').
  f_equal. eapply latest_unique; [|done]. by eapply latest_permutation.
Qed.

Lemma all_values_permutation cumulative_points (d1 d2 : series_dict) :
  d1 ≡ₚ d2 →
  all_values cumulative_points d1 ≡ₚ all_values cumulative_points d2.
Proof.
  intros Hp. unfold all_values, values. apply Permutation_app_head.
  induction Hp as [|[k v] l1 l2 _ IH|[k1 v1] [k2 v2] l|l1 l2 l3 _ IH1 _ IH2];
    simpl; [done| |by rewrite Permutation_app_swap_app|by etrans].
  by apply Permutation_app_head.
Qed.

Lemma y_max_of_permutation cumulative_points (d1 d2 : series_dict) :
  d1 ≡ₚ d2 → y_max_of cumulative_points d1 = y_max_of cumulative_points d2.
Proof.
  intros Hp. unfold y_max_of.
  by rewrite (max_permutation _ _ (all_values_permutation cumulative_points _ _ Hp)).
Qed.

Lemma sorted_permutation (l1 l2 : list string) :
  l1 ≡ₚ l2 → Py.sorted l1 = Py.sorted l2.
Proof.
  intros Hp. unfold Py.sorted.
  apply (Sorted_unique String.le); [apply Sorted_merge_sort, _..|].
  by rewrite !merge_sort_Permutation.
Qed.

Lemma keys_permutation (d1 d2 : series_dict) : d1 ≡ₚ d2 → keys d1 ≡ₚ keys d2.
Proof. intros Hp. unfold keys. by rewrite Hp. Qed.

Lemma foo_pods_permutation (d1 d2 : series_dict) :
  d1 ≡ₚ d2 → foo_pods d1 = foo_pods d2.
Proof.
  intros Hp%keys_permutation. unfold foo_pods. apply sorted_permutation.
  by rewrite Hp.
Qed.

Lemma bar_pods_permutation (d1 d2 : series_dict) :
  d1 ≡ₚ d2 → bar_pods d1 = bar_pods d2.
Proof.
  intros Hp%keys_permutation. unfold bar_pods. apply sorted_permutation.
  by rewrite Hp.
Qed.

Lemma other_pods_permutation (d1 d2 : series_dict) :
  d1 ≡ₚ d2 → other_pods d1 = other_pods d2.
Proof.
  intros Hp. unfold other_pods.
  rewrite (foo_pods_permutation _ _ Hp), (bar_pods_permutation _ _ Hp).
  apply sorted_permutation. by rewrite (keys_permutation _ _ Hp).
Qed.

Lemma pod_groups_permutation (d1 d2 : series_dict) :
  d1 ≡ₚ d2 → pod_groups d1 = pod_groups d2.
Proof.
  intros Hp. unfold pod_groups.
  by rewrite (foo_pods_permutation _ _ Hp), (bar_pods_permutation _ _ Hp),
    (other_pods_permutation _ _ Hp).
Qed.

Lemma legend_items_permutation (d1 d2 : series_dict) :
  d1 ≡ₚ d2 → legend_items d1 = legend_items d2.
Proof.
  intros Hp. unfold legend_items.
  by rewrite (foo_pods_permutation _ _ Hp), (bar_pods_permutation _ _ Hp).
Qed.

Lemma get_not_key (d : series_dict) (name : string) :
  name ∉ keys d → get d name = [].
Proof.
  induction d as [|[k v] d IH]; [done|]. unfold keys. simpl.
  intros [Hne Hd]%not_elem_of_cons. rewrite decide_False by done. by apply IH.
Qed.

Lemma get_permutation (d1 d2 : series_dict) (name : string) :
  NoDup (keys d1) → d1 ≡ₚ d2 → get d1 name = get d2 name.
Proof.
  intros Hnd Hp. revert Hnd.
  induction Hp as [|[k v] l1 l2 Hp IH|[k1 v1] [k2 v2] l|l1 l2 l3 Hp1 IH1 Hp2 IH2];
    intros Hnd.
  - done.
  - simpl. case_decide; [done|]. apply IH. by apply NoDup_cons in Hnd as [_ ?].
  - simpl. unfold keys in Hnd. simpl in Hnd.
    apply NoDup_cons in Hnd as [Hk2 _]. apply not_elem_of_cons in Hk2 as [Hne _].
    repeat case_decide; congruence.
  - rewrite IH1 by done. apply IH2. by rewrite <-(keys_permutation _ _ Hp1).
Qed.

Lemma pod_lines_permutation min_time time_range y_max (d1 d2 : series_dict) :
  NoDup (keys d1) → d1 ≡ₚ d2 →
  pod_lines min_time time_range y_max d1 = pod_lines min_time time_range y_max d2.
Proof.
  intros Hnd Hp. unfold pod_lines. rewrite (pod_groups_permutation _ _ Hp).
  f_equal. apply mapM_ext. intros [pods colors]. do 2 f_equal.
  apply imap_ext. intros i name _. unfold pod_line.
  by rewrite (get_permutation _ _ name Hnd Hp).
Qed.

(** C9.  Two calls with the same cumulative points, stage windows, title and
    label, and with per-pod dictionaries that hold the same items, whatever
    their insertion order, return the same image text. *)
Theorem generate_resource_graph_deterministic
    (cumulative_points : list TimeSeriesPoint) (per_pod_data_1 per_pod_data_2 : series_dict)
    (vu_stages : list VUStage) (title y_label : string) :
  NoDup (keys per_pod_data_1) →
  per_pod_data_1 ≡ₚ per_pod_data_2 →
  ∃ svg,
    generate_resource_graph cumulative_points per_pod_data_1 vu_stages title y_label
    = Some svg
    ∧ generate_resource_graph cumulative_points per_pod_data_2 vu_stages title y_label
      = Some svg.
Proof.
  intros Hnd Hp.
  destruct cumulative_points as [|first rest].
  { exists (_empty_graph title "No data available"). split; reflexivity. }
  destruct (generate_resource_graph_shape (first :: rest) per_pod_data_1
              vu_stages title y_label ltac:(done)) as [parts H1].
  eexists. split; [exact H1|]. rewrite <-H1.
  unfold generate_resource_graph.
  rewrite (y_max_of_permutation _ _ _ Hp), (legend_items_permutation _ _ Hp).
  destruct (Py.min (timestamp <$> first :: rest)) as [min_time|]; [|reflexivity].
  destruct (Py.max (timestamp <$> first :: rest)) as [max_time|]; [|reflexivity].
  cbn [mbind option_bind]. cbv zeta.
  rewrite (pod_lines_permutation _ _ _ _ _ Hnd Hp). reflexivity.
Qed.

Lemma generate_resource_graph_deterministic_witness :
  NoDup (keys swapped_pods_1)
  ∧ swapped_pods_1 ≡ₚ swapped_pods_2
  ∧ ∃ svg,
      generate_resource_graph one_point swapped_pods_1 [] "CPU" "m" = Some svg
      ∧ generate_resource_graph one_point swapped_pods_2 [] "CPU" "m" = Some svg.
Proof.
  assert (NoDup (keys swapped_pods_1)) as Hnd.
  { repeat constructor; [|by intros ?%elem_of_nil].
    by intros ?%list_elem_of_singleton. }
  assert (swapped_pods_1 ≡ₚ swapped_pods_2) as Hp by apply perm_swap.
  split; [exact Hnd|]. split; [exact Hp|].
  exact (generate_resource_graph_deterministic one_point swapped_pods_1
           swapped_pods_2 [] "CPU" "m" Hnd Hp).
Defined.

(** * Further properties of the module *)

(** ** Durations outside the formatter's range *)

Lemma re_search_no_unit u c ds :
  digits_only ds = true → Py.is_digit c = false → c ≠ u →
  Py.re_search_digits_unit u (ds +:+ String c "") = None.
Proof. intros Hd Hc Hcu. by rewrite re_search_skip. Qed.

(** X1.  For a negative number of seconds [seconds_to_duration_str] drops
    the minutes and prints the remainder modulo 60 alone, so parsing its
    text gives that remainder, not the number. *)
Theorem negative_duration_wraps (seconds : Z) :
  seconds < 0 →
  seconds_to_duration_str seconds = Py.str (seconds `mod` 60) +:+ "s"
  ∧ parse_duration_to_seconds (seconds_to_duration_str seconds)
    = Some (seconds `mod` 60).
Proof.
  intros Hs.
  assert (seconds `div` 60 < 0) as Hm by (apply Z.div_lt_upper_bound; lia).
  pose proof (Z.mod_pos_bound seconds 60 ltac:(lia)) as Hr.
  assert (seconds_to_duration_str seconds = Py.str (seconds `mod` 60) +:+ "s")
    as Hfmt.
  { unfold seconds_to_duration_str.
    by rewrite (bool_decide_eq_false_2 (0 < seconds `div` 60)) by lia. }
  split; [done|]. rewrite Hfmt. unfold parse_duration_to_seconds.
  destruct (str_nonneg (seconds `mod` 60) ltac:(lia)) as (c & ds & -> & Hd & Hi).
  rewrite (re_search_no_unit "m") by done.
  rewrite (re_search_hit "s") by done.
  rewrite Hi. simpl. f_equal.
Qed.

Lemma negative_duration_wraps_witness :
  -5 < 0 ∧ seconds_to_duration_str (-5) = "55s"
  ∧ parse_duration_to_seconds (seconds_to_duration_str (-5)) = Some 55.
Proof.
  split; [lia|]. split.
  - exact (proj1 (negative_duration_wraps (-5) ltac:(lia))).
  - exact (proj2 (negative_duration_wraps (-5) ltac:(lia))).
Defined.



(** ** The parsed configuration *)

Lemma duration_of_nonneg (stage : K6Stage) : 0 ≤ duration_of stage.
Proof.
  unfold duration_of.
  by destruct (parse_duration_returns (duration stage)) as (n & -> & Hn).
Qed.

Lemma total_declared_duration_nonneg (stages : list K6Stage) :
  0 ≤ total_declared_duration stages.
Proof.
  induction stages as [|s stages IH]; [done|].
  rewrite total_declared_duration_cons. pose proof (duration_of_nonneg s). lia.
Qed.


Lemma max_target_foldl (m : Z) (stages : list K6Stage) :
  let r := foldl (λ m s', if bool_decide (m < target s') then target s' else m)
             m stages in
  m ≤ r ∧ (∀ s, s ∈ stages → target s ≤ r)
  ∧ (r = m ∨ ∃ s, s ∈ stages ∧ target s = r).
Proof.
  revert m. induction stages as [|s stages IH]; intros m; simpl.
  - split_and!; [done| |by left]. by intros s ?%elem_of_nil.
  - destruct (IH (if bool_decide (m < target s) then target s else m))
      as (Hle & Hall & Hex).
    split_and!.
    + case_bool_decide; lia.
    + intros s' [->|Hs']%elem_of_cons; [|by apply Hall].
      case_bool_decide; lia.
    + destruct Hex as [Hr|(s' & Hs' & Hr)].
      * case_bool_decide; [right; exists s; split; [left|done]|by left].
      * right. exists s'. split; [by right|done].
Qed.

(** ** The parsed configuration under the digit limit *)

Lemma limited_str_below_60 (n : Z) :
  0 ≤ n < 60 → Limited.str n = Some (Py.str n).
Proof.
  intros Hn. unfold Limited.str.
  rewrite bool_decide_eq_false_2; [done|].
  replace n with (Z.of_nat (Z.to_nat n)) by lia.
  assert (Z.to_nat n < 60)%nat as Hlt by lia.
  generalize dependent (Z.to_nat n). clear. intros k Hk.
  do 60 (destruct k as [|k]; [by vm_compute|]). lia.
Qed.

Lemma limited_str_within (n : Z) :
  0 ≤ n → Py.len (Py.str n) ≤ Limited.int_max_str_digits →
  Limited.str n = Some (Py.str n).
Proof.
  intros Hn Hlen. unfold Limited.str.
  rewrite Z.abs_eq by done. by rewrite bool_decide_eq_false_2 by lia.
Qed.

Lemma limited_seconds_to_duration_str (seconds : Z) :
  0 ≤ seconds →
  Py.len (Py.str (seconds `div` 60)) ≤ Limited.int_max_str_digits →
  Limited.seconds_to_duration_str seconds
  = Some (seconds_to_duration_str seconds).
Proof.
  intros Hs Hlen.
  unfold Limited.seconds_to_duration_str, seconds_to_duration_str.
  pose proof (Z.mod_pos_bound seconds 60 ltac:(lia)) as Hr.
  assert (0 ≤ seconds `div` 60) as Hm by (apply Z.div_pos; lia).
  rewrite (limited_str_within (seconds `div` 60)) by done.
  rewrite (limited_str_below_60 (seconds `mod` 60)) by done.
  by repeat case_bool_decide.
Qed.

Lemma limited_sum_durations (stages : list K6Stage) (acc : Z) :
  Forall (λ stage, groups_within_limit (duration stage)) stages →
  Limited.sum_durations stages acc = sum_durations stages acc.
Proof.
  intros Hall. revert acc.
  induction Hall as [|stage stages Hstage _ IH]; intros acc; [done|].
  simpl. rewrite limited_parse_duration by done.
  destruct (parse_duration_to_seconds (duration stage)); [apply IH|done].
Qed.

Lemma limited_stages_of (stage_matches : list (string * string)) :
  Forall stage_match_within_limit stage_matches →
  Limited.stages_of stage_matches = Some (stages_read stage_matches).
Proof.
  induction 1 as [|[d t] rest (_ & Hne & Hd & Hlen) _ IH]; [done|].
  simpl in *. rewrite limited_int_of_str, IH by done.
  destruct t as [|c ds]; [by destruct Hne|].
  destruct (int_of_str_digits c ds Hd) as (n & Hn & _).
  by rewrite Hn.
Qed.

Lemma stages_read_within_limit (stage_matches : list (string * string)) :
  Forall stage_match_within_limit stage_matches →
  Forall (λ stage, groups_within_limit (duration stage))
    (stages_read stage_matches).
Proof.
  intros Hall. unfold stages_read. apply Forall_fmap.
  eapply Forall_impl; [exact Hall|]. by intros m [Hg _].
Qed.

(** X3.  When every conversion stays within the interpreter's limit of 4300
    digits (the digit runs of the stage durations, the stage targets and the
    minutes of the total), [parse_k6_script] returns a configuration: its
    stages are the ones found, the total duration is the text of the sum of
    their durations, which is not negative, and the peak is the greatest
    stage target, [0] when there is no stage. *)
Theorem parse_k6_script_within_limit (stage_matches : list (string * string))
    (targets_found : list string)
    (thresholds_match : option (list (string * string))) :
  Forall stage_match_within_limit stage_matches →
  Py.len (Py.str (total_declared_duration (stages_read stage_matches) `div` 60))
    ≤ Limited.int_max_str_digits →
  ∃ config,
    Limited.parse_k6_script stage_matches targets_found thresholds_match
    = Some config
    ∧ stages config = stages_read stage_matches
    ∧ total_duration config
      = seconds_to_duration_str (total_declared_duration (stages config))
    ∧ 0 ≤ total_declared_duration (stages config)
    ∧ (∀ stage, stage ∈ stages config → target stage ≤ peak_vus config)
    ∧ match stages config with
      | [] => peak_vus config = 0
      | _ :: _ =>
          ∃ stage, stage ∈ stages config ∧ target stage = peak_vus config
      end.
Proof.
  intros Hall Hlen. unfold Limited.parse_k6_script.
  rewrite limited_stages_of by done. cbn [mbind option_bind].
  rewrite limited_sum_durations by (by apply stages_read_within_limit).
  rewrite sum_durations_spec. cbn [mbind option_bind].
  generalize dependent (stages_read stage_matches). intros stages_found Hlen.
  rewrite limited_seconds_to_duration_str
    by (done || apply total_declared_duration_nonneg).
  cbn [mbind option_bind].
  eexists. split; [done|]. simpl. split_and!; [done|done| | |].
  - apply total_declared_duration_nonneg.
  - destruct stages_found as [|s rest]; [by intros ? ?%elem_of_nil|].
    simpl. destruct (max_target_foldl (target s) rest) as (Hle & Hall' & _).
    intros stage [->|Hin]%elem_of_cons; [done|by apply Hall'].
  - destruct stages_found as [|s rest]; [done|]. simpl.
    destruct (max_target_foldl (target s) rest) as (_ & _ & [->|(s' & Hs' & <-)]).
    + exists s. split; [left|done].
    + exists s'. split; [by right|done].
Qed.

Lemma parse_k6_script_within_limit_witness :
  Forall stage_match_within_limit ramp_stage_matches
  ∧ Py.len (Py.str (total_declared_duration (stages_read ramp_stage_matches)
                      `div` 60))
    ≤ Limited.int_max_str_digits
  ∧ ∃ config,
      Limited.parse_k6_script ramp_stage_matches [] None = Some config
      ∧ stages config = stages ramp_config
      ∧ total_duration config = "2m"
      ∧ ∀ stage, stage ∈ stages config → target stage ≤ peak_vus config.
Proof.
  assert (Forall stage_match_within_limit ramp_stage_matches) as Hall.
  { repeat constructor; by vm_compute. }
  assert (Py.len (Py.str (total_declared_duration
                            (stages_read ramp_stage_matches) `div` 60))
          ≤ Limited.int_max_str_digits) as Hlen by (by vm_compute).
  split; [exact Hall|]. split; [exact Hlen|].
  destruct (parse_k6_script_within_limit ramp_stage_matches [] None Hall Hlen)
    as (config & Hconfig & Hstages & Htotal & _ & Hpeak & _).
  exists config. split_and!; [done| | |done].
  - by rewrite Hstages.
  - rewrite Htotal, Hstages. by vm_compute.
Defined.

Example limited_parse_k6_script_ramp :
  Limited.parse_k6_script ramp_stage_matches [] None = Some ramp_config.
Proof. by vm_compute. Qed.

(** A stage target of 4301 digits: [int] raises in the loop over the
    stages. *)
Example limited_parse_k6_script_long_target :
  Limited.parse_k6_script [("30s", ones 4301)] [] None = None.
Proof.
  unfold Limited.parse_k6_script. cbn [Limited.stages_of snd].
  rewrite limited_int_of_str_long; [done|].
  unfold Py.len. rewrite ones_length. by vm_compute.
Qed.

(** ** Stage windows *)

Lemma Qc_of_Z_le (a b : Z) : a ≤ b → (Qc_of_Z a ≤ Qc_of_Z b)%Qc.
Proof. by intros H%Z2Qc_inj_le. Qed.


Example calculate_vu_stages_ramp :
  (λ w, (Py.round_half_even (start_timestamp w),
         Py.round_half_even (end_timestamp w), vus w))
    <$> default [] (calculate_vu_stages (Py.fromtimestamp (Qc_of_Z 1700000000))
                      (stages ramp_config))
  = [ (1700000000, 1700000030, 20); (1700000030, 1700000090, 50);
      (1700000090, 1700000120, 20) ].
Proof. by vm_compute. Qed.

(** ** Waiting for the k6 metrics *)

Lemma wait_attempts_none answers attempts :
  (∀ j, j ∈ attempts → ¬ ready answers j) →
  wait_attempts answers attempts = (false, length attempts).
Proof.
  induction attempts as [|a attempts IH]; intros Hno; [done|]. simpl.
  rewrite IH by (intros j Hj; apply Hno; by right).
  destruct (answers a) as [r|] eqn:Ha; [|done].
  case_decide as Hr; [|done]. destruct (Hno a); [left|by exists r].
Qed.

Lemma wait_attempts_first answers before k after :
  (∀ j, j ∈ before → ¬ ready answers j) → ready answers k →
  wait_attempts answers (before ++ k :: after) = (true, length before).
Proof.
  intros Hno (r & Hk & Hr). induction before as [|a before IH]; simpl.
  - by rewrite Hk, decide_True.
  - rewrite IH by (intros j Hj; apply Hno; by right).
    destruct (answers a) as [r'|] eqn:Ha; [|done].
    case_decide as Hr'; [|done]. destruct (Hno a); [left|by exists r'].
Qed.

(** X5.  [wait_for_k6_metrics] returns [True] at the first attempt whose
    answer is a positive count, after one sleep for each attempt before
    it. *)
Theorem wait_for_k6_metrics_first_ready (answers : nat → option Qc)
    (max_attempts : Z) (attempt : nat) :
  (1 ≤ attempt ≤ Z.to_nat max_attempts)%nat →
  ready answers attempt →
  (∀ earlier, (1 ≤ earlier < attempt)%nat → ¬ ready answers earlier) →
  wait_for_k6_metrics answers max_attempts = (true, pred attempt).
Proof.
  intros Hk Hready Hno. unfold wait_for_k6_metrics.
  replace (Z.to_nat max_attempts)
    with (pred attempt + S (Z.to_nat max_attempts - attempt))%nat by lia.
  rewrite seq_app. rewrite <-cons_seq.
  replace (1 + pred attempt)%nat with attempt by lia.
  rewrite wait_attempts_first; [by rewrite length_seq| |done].
  intros j Hj%elem_of_seq. apply Hno. lia.
Qed.

Lemma wait_for_k6_metrics_first_ready_witness :
  (1 ≤ 3 ≤ Z.to_nat 30)%nat
  ∧ ready (ready_from 3) 3
  ∧ (∀ earlier, (1 ≤ earlier < 3)%nat → ¬ ready (ready_from 3) earlier)
  ∧ wait_for_k6_metrics (ready_from 3) 30 = (true, 2%nat).
Proof.
  assert (1 ≤ 3 ≤ Z.to_nat 30)%nat as Hk by (simpl; lia).
  assert (ready (ready_from 3) 3) as Hready by (by eexists).
  assert (∀ earlier, (1 ≤ earlier < 3)%nat → ¬ ready (ready_from 3) earlier)
    as Hno.
  { intros earlier He (r & Hr & _). unfold ready_from in Hr.
    by rewrite decide_False in Hr by lia. }
  split; [exact Hk|]. split; [exact Hready|]. split; [exact Hno|].
  exact (wait_for_k6_metrics_first_ready (ready_from 3) 30 3 Hk Hready Hno).
Defined.

(** X6.  [wait_for_k6_metrics] returns [False] when no attempt up to
    [max_attempts] gets a positive count, after sleeping once per attempt,
    the last one included; it makes no attempt when [max_attempts] is not
    positive. *)
Theorem wait_for_k6_metrics_gives_up (answers : nat → option Qc)
    (max_attempts : Z) :
  (∀ attempt, (1 ≤ attempt ≤ Z.to_nat max_attempts)%nat →
     ¬ ready answers attempt) →
  wait_for_k6_metrics answers max_attempts = (false, Z.to_nat max_attempts).
Proof.
  intros Hno. unfold wait_for_k6_metrics.
  rewrite wait_attempts_none; [by rewrite length_seq|].
  intros j Hj%elem_of_seq. apply Hno. lia.
Qed.

Lemma wait_for_k6_metrics_gives_up_witness :
  (∀ attempt, (1 ≤ attempt ≤ Z.to_nat 30)%nat → ¬ ready (λ _, None) attempt)
  ∧ wait_for_k6_metrics (λ _, None) 30 = (false, 30%nat).
Proof.
  assert (∀ attempt, (1 ≤ attempt ≤ Z.to_nat 30)%nat → ¬ ready (λ _, None) attempt)
    as Hno by (by intros attempt _ (r & Hr & _)).
  split; [exact Hno|]. exact (wait_for_k6_metrics_gives_up (λ _, None) 30 Hno).
Defined.

(** ** The detected test time range *)

Lemma min_foldl_spec (x : Qc) (l : list Qc) :
  earliest (foldl (λ m y, if decide (y < m)%Qc then y else m) x l) (x :: l).
Proof.
  revert x. induction l as [|y l IH]; intros x; simpl.
  - split; [left|]. by intros t ->%list_elem_of_singleton.
  - destruct (IH (if decide (y < x)%Qc then y else x)) as [Hin Hle]. split.
    + apply elem_of_cons in Hin as [->|Hin].
      * case_decide; [right; left|left].
      * by do 2 right.
    + intros t [->|Ht]%elem_of_cons.
      * etrans; [apply Hle; left|]. case_decide; [by apply Qclt_le_weak|done].
      * apply elem_of_cons in Ht as [->|Ht]; [|apply Hle; by right].
        etrans; [apply Hle; left|].
        case_decide as Hxy; [done|by apply Qcnot_lt_le].
Qed.

Lemma min_spec (l : list Qc) :
  l ≠ [] → ∃ m, Py.min l = Some m ∧ earliest m l.
Proof.
  destruct l as [|x l]; [done|]. intros _. eexists. split; [done|].
  apply min_foldl_spec.
Qed.

Lemma round_half_even_bounds (x : Qc) :
  Qfloor x ≤ Py.round_half_even x ≤ Qfloor x + 1.
Proof.
  unfold Py.round_half_even. cbv zeta. generalize (Qfloor x). intros f.
  repeat case_decide; try destruct (Z.even _); lia.
Qed.

(** Rounding to the microsecond keeps the order of two times. *)
Lemma round_half_even_mono (x y : Qc) :
  (x ≤ y)%Qc → Py.round_half_even x ≤ Py.round_half_even y.
Proof.
  intros Hxy.
  pose proof (Qfloor_resp_le x y Hxy) as Hf.
  pose proof (round_half_even_bounds x) as Hx.
  pose proof (round_half_even_bounds y) as Hy.
  destruct (decide (Qfloor x = Qfloor y)) as [He|]; [|lia].
  unfold Py.round_half_even in *. cbv zeta in *. rewrite <-He in *.
  assert (x - Qc_of_Z (Qfloor x) ≤ y - Qc_of_Z (Qfloor x))%Qc as Hr.
  { by apply Qcplus_le_mono_r. }
  generalize dependent (x - Qc_of_Z (Qfloor x))%Qc. intros rx.
  generalize dependent (y - Qc_of_Z (Qfloor x))%Qc. intros ry.
  intros Hy Hx Hr.
  destruct (decide (rx < 1 / 2)%Qc) as [H1|H1].
  { clear. generalize (Qfloor x). intros f.
    repeat case_decide; try destruct (Z.even _); lia. }
  apply Qcnot_lt_le in H1.
  rewrite (decide_False (P := (ry < 1 / 2)%Qc)).
  2:{ apply Qcle_not_lt. by etrans. }
  destruct (decide (1 / 2 < rx)%Qc) as [H2|H2].
  { rewrite (decide_True (P := (1 / 2 < ry)%Qc)); [done|].
    by eapply Qclt_le_trans. }
  apply Qcnot_lt_le in H2. assert (rx = (1 / 2)%Qc) as -> by by apply Qcle_antisym.
  clear. generalize (Qfloor x). intros f.
  case_decide; destruct (Z.even _); lia.
Qed.

Lemma fromtimestamp_mono (x y : Qc) :
  (x ≤ y)%Qc →
  (Py.timestamp_of (Py.fromtimestamp x) ≤ Py.timestamp_of (Py.fromtimestamp y))%Qc.
Proof.
  intros Hxy. unfold Py.timestamp_of, Py.fromtimestamp. simpl.
  apply Qcmult_le_mono_pos_r; [done|].
  apply Qc_of_Z_le, round_half_even_mono.
  by apply Qcmult_le_mono_pos_r.
Qed.

Lemma active_times_well_formed (samples : list (Qc * Qc)) :
  active_times (well_formed samples) = Some (active samples).
Proof.
  unfold active. induction samples as [|[ts val] samples IH]; [done|].
  simpl. rewrite filter_cons. simpl. case_decide; [|done].
  by rewrite IH.
Qed.

Lemma active_nil (samples : list (Qc * Qc)) :
  active samples = [] ↔ Forall (λ s, (s.2 ≤ 0)%Qc) samples.
Proof.
  unfold active. induction samples as [|s samples IH]; [done|].
  rewrite filter_cons, Forall_cons. case_decide as Hs.
  - split; [done|]. intros [Hle _]. by apply Qcle_not_lt in Hle.
  - rewrite IH. apply Qcnot_lt_le in Hs. tauto.
Qed.

Lemma active_not_nil (samples : list (Qc * Qc)) :
  Exists (λ s, (0 < s.2)%Qc) samples → active samples ≠ [].
Proof.
  intros Hex. rewrite active_nil. intros Hall.
  apply Exists_exists in Hex as (s & Hs & Hpos).
  rewrite Forall_forall in Hall. by apply Qcle_not_lt in Hpos; [|apply Hall].
Qed.

Lemma time_range_of_active (values : list raw_point)
    (others : list (list raw_point)) (times : list Qc) :
  active_times values = Some times → times ≠ [] →
  ∃ lo hi,
    earliest lo times ∧ latest hi times
    ∧ get_k6_test_time_range (Some (values :: others))
      = Some (Py.fromtimestamp lo, Py.fromtimestamp hi).
Proof.
  intros Ha Hne. unfold get_k6_test_time_range. rewrite Ha.
  destruct (min_spec times Hne) as (lo & Hlo & Hearliest).
  destruct (max_spec times Hne) as (hi & Hhi & Hlatest).
  exists lo, hi. destruct times as [|t times]; [done|].
  cbv zeta. by rewrite Hlo, Hhi.
Qed.

(** X7.  When some sample of the first series has a positive rate,
    [get_k6_test_time_range] returns the times of the earliest and of the
    latest such sample, and the start is not after the end; samples with a
    zero rate, before, between or after, and the other series play no
    part. *)
Theorem test_time_range_detected (samples : list (Qc * Qc))
    (others : list (list raw_point)) :
  Exists (λ s, (0 < s.2)%Qc) samples →
  ∃ lo hi,
    earliest lo (active samples) ∧ latest hi (active samples)
    ∧ get_k6_test_time_range (Some (well_formed samples :: others))
      = Some (Py.fromtimestamp lo, Py.fromtimestamp hi)
    ∧ (Py.timestamp_of (Py.fromtimestamp lo)
       ≤ Py.timestamp_of (Py.fromtimestamp hi))%Qc.
Proof.
  intros Hex.
  destruct (time_range_of_active (well_formed samples) others (active samples))
    as (lo & hi & Hlo & Hhi & Hr);
    [apply active_times_well_formed|by apply active_not_nil|].
  exists lo, hi. split_and!; [done..|].
  apply fromtimestamp_mono, Hhi, Hlo.
Qed.

Lemma test_time_range_detected_witness :
  Exists (λ s, (0 < s.2)%Qc) idle_then_busy
  ∧ ∃ lo hi,
      earliest lo (active idle_then_busy) ∧ latest hi (active idle_then_busy)
      ∧ get_k6_test_time_range (Some [ well_formed idle_then_busy ])
        = Some (Py.fromtimestamp lo, Py.fromtimestamp hi).
Proof.
  assert (Exists (λ s, (0 < s.2)%Qc) idle_then_busy) as Hex
    by (right; left; by vm_compute).
  split; [exact Hex|].
  destruct (test_time_range_detected idle_then_busy [] Hex)
    as (lo & hi & Hlo & Hhi & Hr & _).
  by exists lo, hi.
Defined.

Example test_time_range_idle_then_busy :
  (λ r, (Py.micros r.1, Py.micros r.2))
    <$> get_k6_test_time_range (Some [ well_formed idle_then_busy ])
  = Some (1700000015000000, 1700000045000000).
Proof. by vm_compute. Qed.

(** X8.  With well formed samples [get_k6_test_time_range] returns [None]
    exactly when no sample of the first series has a positive rate. *)
Theorem test_time_range_absent (samples : list (Qc * Qc))
    (others : list (list raw_point)) :
  get_k6_test_time_range (Some (well_formed samples :: others)) = None
  ↔ Forall (λ s, (s.2 ≤ 0)%Qc) samples.
Proof.
  rewrite <-active_nil. unfold get_k6_test_time_range.
  rewrite active_times_well_formed.
  destruct (active samples) as [|t times] eqn:Ha; [done|].
  destruct (min_spec (t :: times) ltac:(done)) as (lo & Hlo & _).
  destruct (max_spec (t :: times) ltac:(done)) as (hi & Hhi & _).
  cbv zeta. by rewrite Hlo, Hhi.
Qed.



(** ** The table of pod snapshots *)

Lemma reported_snoc samples item name :
  reported (samples ++ [item]) name
  = if decide (pod_of item = name) then sample_value item
    else reported samples name.
Proof.
  unfold reported. rewrite filter_app. case_decide as Hn.
  - rewrite filter_cons_True, filter_nil by done.
    by rewrite fmap_app, fmap_cons, fmap_nil, last_snoc.
  - rewrite filter_cons_False, filter_nil by done. by rewrite app_nil_r.
Qed.

Lemma reported_absent samples name :
  name ∉ pod_of <$> samples → reported samples name = 0%Qc.
Proof.
  intros Hn. unfold reported.
  assert (filter (λ item, pod_of item = name) samples = []) as ->; [|done].
  induction samples as [|item samples IH]; [done|].
  rewrite fmap_cons in Hn. apply not_elem_of_cons in Hn as [Hne Hn].
  rewrite filter_cons_False by done. by apply IH.
Qed.

Lemma add_cpu_lookup pods item name :
  add_cpu pods item !! name
  = if decide (pod_of item = name) then Some (sample_value item, 0%Qc)
    else pods !! name.
Proof.
  unfold add_cpu. case_decide as Hn.
  - subst. by rewrite lookup_insert_eq.
  - by rewrite lookup_insert_ne.
Qed.

Lemma add_mem_lookup pods item name :
  add_mem pods item !! name
  = if decide (pod_of item = name)
    then Some ((default (0%Qc, 0%Qc) (pods !! name)).1, sample_value item)
    else pods !! name.
Proof.
  unfold add_mem. case_decide as Hn.
  - subst. destruct (pods !! pod_of item) as [data|] eqn:Hd;
      by rewrite lookup_insert_eq.
  - destruct (pods !! pod_of item); by rewrite lookup_insert_ne.
Qed.

Lemma elem_of_snoc_pod (samples : list sample) (item : sample) (name : string) :
  name ∈ (pod_of <$> samples) ++ [pod_of item]
  ↔ pod_of item = name ∨ name ∈ pod_of <$> samples.
Proof.
  rewrite elem_of_app, list_elem_of_singleton.
  split; (intros [?|?]; [by right|by left]).
Qed.

Lemma foldl_add_cpu_lookup (cpu : list sample) (name : string) :
  foldl add_cpu ∅ cpu !! name
  = if decide (name ∈ pod_of <$> cpu) then Some (reported cpu name, 0%Qc)
    else None.
Proof.
  induction cpu as [|item cpu IH] using rev_ind.
  { rewrite decide_False by apply not_elem_of_nil. done. }
  rewrite foldl_app. cbn [foldl]. rewrite add_cpu_lookup, IH, reported_snoc.
  rewrite fmap_app, fmap_cons, fmap_nil.
  pose proof (elem_of_snoc_pod cpu item name) as Hiff.
  repeat case_decide; first [done | exfalso; tauto].
Qed.

Lemma foldl_add_mem_lookup (pods : gmap string (Qc * Qc)) (mem : list sample)
    (name : string) :
  foldl add_mem pods mem !! name
  = if decide (name ∈ pod_of <$> mem)
    then Some ((default (0%Qc, 0%Qc) (pods !! name)).1, reported mem name)
    else pods !! name.
Proof.
  induction mem as [|item mem IH] using rev_ind.
  { rewrite decide_False by apply not_elem_of_nil. done. }
  rewrite foldl_app. cbn [foldl]. rewrite add_mem_lookup, IH, reported_snoc.
  rewrite fmap_app, fmap_cons, fmap_nil.
  pose proof (elem_of_snoc_pod mem item name) as Hiff.
  repeat case_decide; first [done | exfalso; tauto].
Qed.

(** The entry of a pod in the [pods] dictionary after the two loops. *)
Lemma pods_lookup (cpu mem : list sample) (name : string) :
  foldl add_mem (foldl add_cpu ∅ cpu) mem !! name
  = if decide (name ∈ pod_of <$> cpu ++ mem)
    then Some (reported cpu name, reported mem name) else None.
Proof.
  rewrite foldl_add_mem_lookup, foldl_add_cpu_lookup, fmap_app.
  destruct (decide (name ∈ pod_of <$> mem)) as [Hm|Hm];
    destruct (decide (name ∈ pod_of <$> cpu)) as [Hc|Hc].
  - rewrite decide_True; [done|]. rewrite elem_of_app. by left.
  - rewrite decide_True; [|rewrite elem_of_app; by right].
    by rewrite (reported_absent cpu).
  - rewrite decide_True; [|rewrite elem_of_app; by left].
    by rewrite (reported_absent mem).
  - rewrite decide_False; [done|]. rewrite elem_of_app. tauto.
Qed.

Lemma collect_pod_metrics_fst (cpu mem : list sample) :
  (collect_pod_metrics (Some cpu) (Some mem)).1
  = snapshot_of <$> sorted_items (foldl add_mem (foldl add_cpu ∅ cpu) mem).
Proof.
  unfold collect_pod_metrics. cbn [fst]. apply list_fmap_ext.
  by intros i [name data] _.
Qed.

Lemma pod_names_sorted_items (pods : gmap string (Qc * Qc)) :
  PodResourceMetrics.pod_name <$> (snapshot_of <$> sorted_items pods)
  = (sorted_items pods).*1.
Proof. rewrite <-list_fmap_compose. by apply list_fmap_ext. Qed.

Lemma sorted_items_sorted (pods : gmap string (Qc * Qc)) :
  StronglySorted String.le (sorted_items pods).*1.
Proof.
  unfold sorted_items.
  assert (StronglySorted (λ a b : string * (Qc * Qc), String.le a.1 b.1)
            (merge_sort (λ a b, String.le a.1 b.1) (map_to_list pods))) as Hs.
  { apply StronglySorted_merge_sort.
    - intros a b c. apply (transitivity (R := String.le)).
    - intros a b. apply (total String.le). }
  induction Hs as [|a l Hs IH Hall]; [constructor|].
  rewrite fmap_cons. constructor; [done|]. by rewrite Forall_fmap.
Qed.

Lemma sorted_items_NoDup (pods : gmap string (Qc * Qc)) :
  NoDup (sorted_items pods).*1.
Proof.
  unfold sorted_items. rewrite merge_sort_Permutation.
  apply NoDup_fst_map_to_list.
Qed.

Lemma elem_of_sorted_items (pods : gmap string (Qc * Qc)) name data :
  (name, data) ∈ sorted_items pods ↔ pods !! name = Some data.
Proof.
  unfold sorted_items. rewrite merge_sort_Permutation.
  apply elem_of_map_to_list.
Qed.

(** X10.  When both instant queries answer, [collect_pod_metrics] lists one
    snapshot for each pod named by a sample of either answer, in ascending
    order of the names without repetition; the CPU fields of a snapshot hold
    the value of the last CPU sample of its pod and the memory fields that of
    the last memory sample, [0] where the pod has no such sample. *)
Theorem pod_metrics_table (cpu_results mem_results : list sample) :
  let pod_metrics :=
    (collect_pod_metrics (Some cpu_results) (Some mem_results)).1 in
  StronglySorted String.le (PodResourceMetrics.pod_name <$> pod_metrics)
  ∧ NoDup (PodResourceMetrics.pod_name <$> pod_metrics)
  ∧ ∀ snapshot,
      snapshot ∈ pod_metrics
      ↔ PodResourceMetrics.pod_name snapshot
          ∈ pod_of <$> cpu_results ++ mem_results
        ∧ snapshot
          = PodResourceMetrics.mk (PodResourceMetrics.pod_name snapshot)
              (reported cpu_results (PodResourceMetrics.pod_name snapshot))
              (reported cpu_results (PodResourceMetrics.pod_name snapshot))
              (reported mem_results (PodResourceMetrics.pod_name snapshot))
              (reported mem_results (PodResourceMetrics.pod_name snapshot)).
Proof.
  cbv zeta. rewrite collect_pod_metrics_fst, pod_names_sorted_items.
  split_and!; [apply sorted_items_sorted|apply sorted_items_NoDup|].
  intros snapshot. rewrite list_elem_of_fmap. split.
  - intros ([name data] & -> & Hin). apply elem_of_sorted_items in Hin.
    rewrite pods_lookup in Hin. simpl. case_decide; [|done].
    by simplify_eq.
  - intros [Hin ->]. simpl.
    exists (PodResourceMetrics.pod_name snapshot,
            (reported cpu_results (PodResourceMetrics.pod_name snapshot),
             reported mem_results (PodResourceMetrics.pod_name snapshot))).
    split; [done|]. apply elem_of_sorted_items.
    by rewrite pods_lookup, decide_True.
Qed.

Example pod_metrics_two_pods :
  PodResourceMetrics.pod_name
    <$> (collect_pod_metrics (Some two_pods_cpu) (Some two_pods_mem)).1
  = ["http-echo-bar-1"; "http-echo-foo-1"].
Proof. by vm_compute. Qed.

(** ** The collected time series *)

#[global] Instance by_key_trans : Transitive by_key.
Proof. intros a b c. unfold by_key. apply Qcle_trans. Qed.

#[global] Instance by_key_total : Total by_key.
Proof.
  intros a b. unfold by_key.
  destruct (Qclt_le_dec a.1 b.1); [left; by apply Qclt_le_weak|by right].
Qed.

Lemma foldl_point_step points by_timestamp values :
  foldl point_step (points, by_timestamp) values
  = (points ++ omap parse_point values,
     foldl accumulate by_timestamp (omap parse_point values)).
Proof.
  revert points by_timestamp.
  induction values as [|pt values IH]; intros points by_timestamp.
  { by rewrite app_nil_r. }
  cbn [foldl]. destruct (parse_point pt) as [p|] eqn:Hp.
  - assert (point_step (points, by_timestamp) pt
            = (points ++ [p], accumulate by_timestamp p)) as ->.
    { unfold parse_point in Hp. unfold point_step.
      destruct (raw_ts pt), (raw_value pt); by simplify_eq/=. }
    rewrite IH. cbn [omap list_omap]. rewrite Hp.
    by rewrite <-(assoc_L (++)).
  - assert (point_step (points, by_timestamp) pt = (points, by_timestamp)) as ->.
    { unfold parse_point in Hp. unfold point_step.
      destruct (raw_ts pt), (raw_value pt); by simplify_eq/=. }
    rewrite IH. cbn [omap list_omap]. by rewrite Hp.
Qed.

Lemma series_step_eq per_pod by_timestamp series :
  series_step (per_pod, by_timestamp) series
  = (match parsed_points series with
     | [] => per_pod
     | _ :: _ => dict_set per_pod (pod_name_of series) (parsed_points series)
     end,
     foldl accumulate by_timestamp (parsed_points series)).
Proof.
  unfold series_step. rewrite foldl_point_step. by rewrite List.app_nil_l.
Qed.

Lemma foldl_series_step_snd state result :
  (foldl series_step state result).2
  = foldl accumulate state.2 (all_points result).
Proof.
  revert state. induction result as [|series result IH]; intros [per_pod m]; [done|].
  cbn [foldl]. rewrite series_step_eq, IH. cbn [snd].
  unfold all_points. rewrite fmap_cons. cbn [concat]. by rewrite foldl_app.
Qed.

Lemma accumulate_lookup (m : gmap Qc Qc) (points : list TimeSeriesPoint) (ts : Qc) :
  foldl accumulate m points !! ts
  = match values_at ts points with
    | [] => m !! ts
    | vs => Some (foldl Qcplus (default 0%Qc (m !! ts)) vs)
    end.
Proof.
  revert m. induction points as [|p points IH]; intros m; [done|].
  cbn [foldl]. rewrite IH. unfold values_at, accumulate.
  rewrite filter_cons. case_decide as Hp.
  - subst ts. rewrite lookup_insert_eq, fmap_cons.
    by destruct (value <$> filter _ points).
  - by rewrite lookup_insert_ne.
Qed.

(** The sum kept for a timestamp adds the values in the order they are read,
    as [sum] does. *)
Lemma by_timestamp_lookup (result : list raw_series) (ts : Qc) :
  (foldl series_step ([], ∅) result).2 !! ts
  = match values_at ts (all_points result) with
    | [] => None
    | vs => Some (Py.sum vs)
    end.
Proof. by rewrite foldl_series_step_snd, accumulate_lookup. Qed.

Lemma strictly_sorted_keys (l : list (Qc * Qc)) :
  StronglySorted by_key l → NoDup l.*1 → StronglySorted Qclt l.*1.
Proof.
  induction 1 as [|a l Hs IH Hall]; intros Hnd; [constructor|].
  rewrite fmap_cons in *. apply NoDup_cons in Hnd as [Hnotin Hnd].
  constructor; [by apply IH|].
  rewrite Forall_fmap, Forall_forall. rewrite Forall_forall in Hall.
  intros b Hb. simpl. destruct (Qcle_lt_or_eq _ _ (Hall b Hb)) as [|Heq]; [done|].
  destruct Hnotin. rewrite Heq. by apply list_elem_of_fmap_2.
Qed.

Lemma collect_series_snd (result : list raw_series) :
  (collect_series result).2
  = cumulative_points_of (foldl series_step ([], ∅) result).2.
Proof. unfold collect_series. by destruct (foldl series_step _ result). Qed.

Lemma collect_series_fst (result : list raw_series) :
  (collect_series result).1 = (foldl series_step ([], ∅) result).1.
Proof. unfold collect_series. by destruct (foldl series_step _ result). Qed.

Lemma elem_of_cumulative_points_of (m : gmap Qc Qc) (ts val : Qc) :
  mkTimeSeriesPoint ts val ∈ cumulative_points_of m ↔ m !! ts = Some val.
Proof.
  unfold cumulative_points_of. rewrite list_elem_of_fmap. split.
  - intros ([ts' val'] & [= -> ->] & Hin).
    rewrite merge_sort_Permutation in Hin. by apply elem_of_map_to_list in Hin.
  - intros Hm. exists (ts, val). split; [done|].
    rewrite merge_sort_Permutation. by apply elem_of_map_to_list.
Qed.

Lemma cumulative_points_of_timestamps (m : gmap Qc Qc) :
  timestamp <$> cumulative_points_of m = (merge_sort by_key (map_to_list m)).*1.
Proof.
  unfold cumulative_points_of. rewrite <-list_fmap_compose.
  by apply list_fmap_ext.
Qed.

Lemma get_dict_set (d : series_dict) (key name : string) points :
  get (dict_set d key points) name
  = if decide (key = name) then points else get d name.
Proof.
  induction d as [|[k v] d IH]; simpl.
  - by case_decide.
  - destruct (decide (k = key)) as [->|Hk]; simpl.
    + by case_decide.
    + rewrite IH. repeat case_decide; congruence.
Qed.

Lemma keys_dict_set (d : series_dict) (key : string) points :
  (keys (dict_set d key points) = keys d ∧ key ∈ keys d)
  ∨ (keys (dict_set d key points) = keys d ++ [key] ∧ key ∉ keys d).
Proof.
  induction d as [|[k v] d IH]; simpl.
  - right. split; [done|apply not_elem_of_nil].
  - destruct (decide (k = key)) as [->|Hk].
    + left. split; [done|left].
    + unfold keys in *. rewrite !fmap_cons. simpl.
      destruct IH as [[-> Hin]|[-> Hnotin]].
      * left. split; [done|by right].
      * right. split; [done|]. rewrite not_elem_of_cons. done.
Qed.

Lemma NoDup_dict_set (d : series_dict) (key : string) points :
  NoDup (keys d) → NoDup (keys (dict_set d key points)).
Proof.
  intros Hnd.
  destruct (keys_dict_set d key points) as [[-> _]|[-> Hnotin]]; [done|].
  apply NoDup_app. split_and!; [done| |apply NoDup_singleton].
  intros x Hx ->%list_elem_of_singleton. done.
Qed.

Lemma elem_of_keys_dict_set (d : series_dict) (key name : string) points :
  name ∈ keys (dict_set d key points) ↔ name = key ∨ name ∈ keys d.
Proof.
  destruct (keys_dict_set d key points) as [[-> Hin]|[-> _]].
  - split; [by right|]. by intros [->|?].
  - rewrite elem_of_app, list_elem_of_singleton. tauto.
Qed.

Lemma stored_series_snoc (result : list raw_series) (series : raw_series)
    (name : string) :
  stored_series (result ++ [series]) name
  = if decide (pod_name_of series = name ∧ parsed_points series ≠ [])
    then parsed_points series else stored_series result name.
Proof.
  unfold stored_series. rewrite filter_app.
  destruct (decide (pod_name_of series = name)) as [Hn|Hn].
  - rewrite filter_cons_True, filter_nil by done. rewrite fmap_app, filter_app.
    rewrite fmap_cons, fmap_nil.
    destruct (decide (parsed_points series ≠ [])) as [Hp|Hp].
    + rewrite decide_True by done.
      rewrite filter_cons_True, filter_nil by done. by rewrite last_snoc.
    + rewrite decide_False by tauto.
      rewrite filter_cons_False, filter_nil by done. by rewrite app_nil_r.
  - rewrite decide_False by tauto.
    rewrite filter_cons_False, filter_nil by done. by rewrite app_nil_r.
Qed.

(** The invariant of the loop over the series of a result. *)
Lemma per_pod_invariant (result : list raw_series) :
  let per_pod := (foldl series_step ([], ∅) result).1 in
  NoDup (keys per_pod)
  ∧ ∀ name, get per_pod name = stored_series result name
            ∧ (name ∈ keys per_pod ↔ stored_series result name ≠ []).
Proof.
  induction result as [|series result IH] using rev_ind.
  { split; [constructor|]. intros name. split; [done|].
    split; [by intros ?%elem_of_nil|done]. }
  cbv zeta in *. rewrite foldl_app. cbn [foldl].
  destruct (foldl series_step ([], ∅) result) as [per_pod m].
  rewrite series_step_eq. cbn [fst] in *. destruct IH as [Hnd Hget].
  destruct (parsed_points series) as [|p points] eqn:Hp.
  - split; [done|]. intros name. rewrite stored_series_snoc, Hp.
    rewrite decide_False by tauto. apply Hget.
  - split; [by apply NoDup_dict_set|]. intros name.
    rewrite stored_series_snoc, Hp, get_dict_set, elem_of_keys_dict_set.
    destruct (Hget name) as [Hg Hk].
    destruct (decide (pod_name_of series = name)) as [Hn|Hn].
    + rewrite decide_True by done. split; [done|]. split; [done|]. intros _. by left.
    + rewrite decide_False by tauto. split; [done|]. rewrite <-Hk.
      split; [intros [->|?]; done|by right].
Qed.

Lemma collect_per_pod_time_series_eq (cpu_result mem_result : list raw_series) :
  collect_per_pod_time_series (Some (cpu_result, mem_result))
  = mkPerPodTimeSeriesData (collect_series cpu_result).2
      (collect_series mem_result).2 (collect_series cpu_result).1
      (collect_series mem_result).1.
Proof.
  unfold collect_per_pod_time_series.
  by destruct (collect_series cpu_result), (collect_series mem_result).
Qed.

Lemma collect_series_dict (result : list raw_series) (name : string) :
  NoDup (keys (collect_series result).1)
  ∧ get (collect_series result).1 name = stored_series result name
  ∧ (name ∈ keys (collect_series result).1 ↔ stored_series result name ≠ []).
Proof.
  rewrite collect_series_fst.
  destruct (per_pod_invariant result) as [Hnd Hget].
  destruct (Hget name) as [Hg Hk]. by split_and!.
Qed.

Lemma collect_series_cumulative (result : list raw_series) :
  StronglySorted Qclt (timestamp <$> (collect_series result).2)
  ∧ ∀ ts val,
      mkTimeSeriesPoint ts val ∈ (collect_series result).2
      ↔ values_at ts (all_points result) ≠ []
        ∧ val = Py.sum (values_at ts (all_points result)).
Proof.
  rewrite collect_series_snd. split.
  - rewrite cumulative_points_of_timestamps. apply strictly_sorted_keys.
    + apply StronglySorted_merge_sort; apply _.
    + rewrite merge_sort_Permutation. apply NoDup_fst_map_to_list.
  - intros ts val. rewrite elem_of_cumulative_points_of, by_timestamp_lookup.
    destruct (values_at ts (all_points result)) as [|v vs];
      [split; [done|by intros [? _]]|].
    split; [by intros [= <-]|by intros [_ ->]].
Qed.

Lemma collect_series_empty (result : list raw_series) :
  (collect_series result).2 = [] ↔ all_points result = [].
Proof.
  destruct (collect_series_cumulative result) as [_ Hin]. split.
  - intros Hnil. destruct (all_points result) as [|p points]; [done|].
    exfalso.
    assert (values_at (timestamp p) (p :: points) ≠ []) as Hv.
    { unfold values_at. by rewrite filter_cons_True by done. }
    pose proof (proj2 (Hin (timestamp p) _) (conj Hv eq_refl)) as Hp.
    rewrite Hnil in Hp. by apply elem_of_nil in Hp.
  - intros Hnil. rewrite collect_series_snd, foldl_series_step_snd, Hnil. done.
Qed.

(** X11.  The two cumulative series of [collect_per_pod_time_series] have
    strictly increasing timestamps, and they hold a point at a timestamp
    exactly when some kept sample of the result has that timestamp, with the
    sum of the values of all such samples, whatever series they come from. *)
Theorem cumulative_series_is_sum (cpu_result mem_result : list raw_series) :
  let data := collect_per_pod_time_series (Some (cpu_result, mem_result)) in
  StronglySorted Qclt (timestamp <$> cumulative_cpu data)
  ∧ StronglySorted Qclt (timestamp <$> cumulative_memory data)
  ∧ (∀ ts val,
       mkTimeSeriesPoint ts val ∈ cumulative_cpu data
       ↔ values_at ts (all_points cpu_result) ≠ []
         ∧ val = Py.sum (values_at ts (all_points cpu_result)))
  ∧ (∀ ts val,
       mkTimeSeriesPoint ts val ∈ cumulative_memory data
       ↔ values_at ts (all_points mem_result) ≠ []
         ∧ val = Py.sum (values_at ts (all_points mem_result))).
Proof.
  cbv zeta. rewrite collect_per_pod_time_series_eq.
  cbn [cumulative_cpu cumulative_memory].
  destruct (collect_series_cumulative cpu_result) as [? ?].
  destruct (collect_series_cumulative mem_result) as [? ?].
  by split_and!.
Qed.

(** X12.  The two per-pod dictionaries of [collect_per_pod_time_series] have
    distinct keys; a pod name is a key exactly when some series of that pod
    has a kept sample, and its entry holds the kept samples of the last such
    series: an earlier series of the same pod is dropped from the
    dictionary. *)
Theorem per_pod_series_last_wins (cpu_result mem_result : list raw_series)
    (name : string) :
  let data := collect_per_pod_time_series (Some (cpu_result, mem_result)) in
  NoDup (keys (per_pod_cpu data)) ∧ NoDup (keys (per_pod_memory data))
  ∧ get (per_pod_cpu data) name = stored_series cpu_result name
  ∧ get (per_pod_memory data) name = stored_series mem_result name
  ∧ (name ∈ keys (per_pod_cpu data) ↔ stored_series cpu_result name ≠ [])
  ∧ (name ∈ keys (per_pod_memory data) ↔ stored_series mem_result name ≠ []).
Proof.
  cbv zeta. rewrite collect_per_pod_time_series_eq.
  cbn [per_pod_cpu per_pod_memory].
  destruct (collect_series_dict cpu_result name) as (? & ? & ?).
  destruct (collect_series_dict mem_result name) as (? & ? & ?).
  by split_and!.
Qed.

(** Two series of one pod with a sample at the same time: the dictionary
    keeps the later series, the cumulative series counts both. *)
Example twice_reported_pod :
  per_pod_cpu (collect_per_pod_time_series (Some (twice_reported, [])))
  = [ ("http-echo-foo-1", [ mkTimeSeriesPoint (Qc_of_Z 1700000000) (Qc_of_Z 25) ]) ]
  ∧ value <$> cumulative_cpu (collect_per_pod_time_series (Some (twice_reported, [])))
    = [ Qc_of_Z 35 ].
Proof.
  split; [by vm_compute|].
  vm_compute. f_equal. by apply Qc_is_canon.
Qed.

(** ** The time axis and the stage bands *)

Lemma time_range_positive (min_time max_time : Qc) :
  (0 < time_range_of min_time max_time)%Qc.
Proof.
  unfold time_range_of. case_decide as H; [|done].
  to_Q. change (this 0%Qc) with 0%Q. lra.
Qed.

Lemma to_svg_x_bounds (min_time max_time t : Qc) :
  (min_time ≤ t)%Qc → (t ≤ max_time)%Qc →
  (Qc_of_Z MARGIN_LEFT ≤ to_svg_x min_time (time_range_of min_time max_time) t
   ≤ Qc_of_Z (WIDTH - MARGIN_RIGHT))%Qc.
Proof.
  intros Hlo Hhi.
  assert (0 ≤ (t - min_time) / time_range_of min_time max_time ≤ 1)%Qc
    as [Hr0 Hr1].
  { unfold time_range_of. case_decide as Hlt.
    - apply Qcdiv_bounds; to_Q; change (this 0%Qc) with 0%Q; lra.
    - assert (t = min_time) as ->.
      { apply Qcle_antisym; [|done]. etrans; [done|]. by apply Qcnot_lt_le. }
      replace (min_time - min_time)%Qc with 0%Qc by ring.
      unfold Qcdiv. by rewrite Qcmult_0_l. }
  unfold to_svg_x.
  generalize dependent ((t - min_time) / time_range_of min_time max_time)%Qc.
  intros r Hr0 Hr1.
  change (Qc_of_Z MARGIN_LEFT) with (Qc_of_Z 60).
  change (Qc_of_Z GRAPH_WIDTH) with (Qc_of_Z 820).
  change (Qc_of_Z (WIDTH - MARGIN_RIGHT)) with (Qc_of_Z 880).
  to_Q. change (this 0%Qc) with 0%Q in *. change (this 1%Qc) with 1%Q in *.
  change (inject_Z 60) with 60%Q. change (inject_Z 820) with 820%Q.
  change (inject_Z 880) with 880%Q. lra.
Qed.

Lemma to_svg_x_mono (min_time max_time t t' : Qc) :
  (t ≤ t')%Qc →
  (to_svg_x min_time (time_range_of min_time max_time) t
   ≤ to_svg_x min_time (time_range_of min_time max_time) t')%Qc.
Proof.
  intros Htt. unfold to_svg_x.
  apply Qcplus_le_mono_l.
  apply Qcmult_le_mono_nonneg_r; [done|].
  apply Qcmult_le_mono_nonneg_r.
  { apply Qclt_le_weak, Qcinv_pos, time_range_positive. }
  by apply Qcplus_le_mono_r.
Qed.

(** X13.  For a non-empty cumulative series the time range that
    [generate_resource_graph] divides by is positive, also when all points
    share one timestamp, and every point of the series is drawn between the
    left and the right edge of the plot area. *)
Theorem time_axis_bounds (cumulative_points : list TimeSeriesPoint) :
  cumulative_points ≠ [] →
  ∃ min_time max_time,
    Py.min (timestamp <$> cumulative_points) = Some min_time
    ∧ Py.max (timestamp <$> cumulative_points) = Some max_time
    ∧ (0 < time_range_of min_time max_time)%Qc
    ∧ ∀ p, p ∈ cumulative_points →
        (Qc_of_Z MARGIN_LEFT
         ≤ to_svg_x min_time (time_range_of min_time max_time) (timestamp p)
         ≤ Qc_of_Z (WIDTH - MARGIN_RIGHT))%Qc.
Proof.
  intros Hne.
  assert (timestamp <$> cumulative_points ≠ []) as Hne'
    by (by destruct cumulative_points).
  destruct (min_spec _ Hne') as (min_time & Hmin & _ & Hlo).
  destruct (max_spec _ Hne') as (max_time & Hmax & _ & Hhi).
  exists min_time, max_time. split_and!; [done|done|apply time_range_positive|].
  intros p Hp. apply to_svg_x_bounds.
  - apply Hlo. by apply list_elem_of_fmap_2.
  - apply Hhi. by apply list_elem_of_fmap_2.
Qed.

Lemma time_axis_bounds_witness :
  rising_series ≠ []
  ∧ ∃ min_time max_time,
      Py.min (timestamp <$> rising_series) = Some min_time
      ∧ Py.max (timestamp <$> rising_series) = Some max_time
      ∧ (0 < time_range_of min_time max_time)%Qc.
Proof.
  assert (rising_series ≠ []) as Hne by done.
  split; [exact Hne|].
  destruct (time_axis_bounds rising_series Hne)
    as (min_time & max_time & Hmin & Hmax & Hpos & _).
  by exists min_time, max_time.
Defined.

(** The rectangle and the label of a stage band are placed at the clamped
    ends of the stage. *)
Lemma vu_band_positions (min_time max_time time_range : Qc) (i : nat)
    (stage : VUStage) :
  vu_band min_time max_time time_range i stage
  = if decide (max_time ≤ start_timestamp stage
               ∨ end_timestamp stage ≤ min_time)%Qc
    then Some []
    else
      let start_x := to_svg_x min_time time_range (band_start min_time stage) in
      let end_x := to_svg_x min_time time_range (band_end max_time stage) in
      bg_color ← Py.index VU_BG_COLORS (Z.of_nat i `mod` Py.len_list VU_BG_COLORS);
      Some
        [ Py.lit "<rect x='" +:+ Py.fmt_1f start_x +:+ Py.lit "' y='"
            +:+ Py.str MARGIN_TOP +:+ Py.lit "' "
            +:+ Py.lit "width='" +:+ Py.fmt_1f (end_x - start_x)%Qc
            +:+ Py.lit "' height='" +:+ Py.str GRAPH_HEIGHT +:+ Py.lit "' "
            +:+ Py.lit "fill='" +:+ bg_color +:+ Py.lit "'/>";
          Py.lit "<text x='" +:+ Py.fmt_1f ((start_x + end_x) / Qc_of_Z 2)%Qc
            +:+ Py.lit "' y='" +:+ Py.str (MARGIN_TOP - 8) +:+ Py.lit "' "
            +:+ Py.lit "text-anchor='middle' font-size='10' fill='#888'>"
            +:+ Py.str (vus stage) +:+ " VUs</text>" ].
Proof. reflexivity. Qed.

(** X14.  A stage band that is drawn lies inside the plot area: for a stage
    that does not end before it starts and overlaps the time of the series,
    the clamped left end is not left of the plot area, not right of the
    clamped right end, and that end is not right of the plot area. *)
Theorem vu_band_within_plot (min_time max_time : Qc) (stage : VUStage) :
  (min_time ≤ max_time)%Qc →
  (start_timestamp stage ≤ end_timestamp stage)%Qc →
  ¬ (max_time ≤ start_timestamp stage ∨ end_timestamp stage ≤ min_time)%Qc →
  let X := to_svg_x min_time (time_range_of min_time max_time) in
  (Qc_of_Z MARGIN_LEFT ≤ X (band_start min_time stage))%Qc
  ∧ (X (band_start min_time stage) ≤ X (band_end max_time stage))%Qc
  ∧ (X (band_end max_time stage) ≤ Qc_of_Z (WIDTH - MARGIN_RIGHT))%Qc.
Proof.
  intros Hmm Hse Hvis X.
  assert (start_timestamp stage < max_time)%Qc as Hs.
  { apply Qcnot_le_lt. tauto. }
  assert (min_time < end_timestamp stage)%Qc as He.
  { apply Qcnot_le_lt. tauto. }
  assert (min_time ≤ band_start min_time stage ≤ max_time)%Qc as [Hs1 Hs2].
  { unfold band_start. case_decide as H; [done|].
    split; [by apply Qcnot_lt_le|by apply Qclt_le_weak]. }
  assert (min_time ≤ band_end max_time stage ≤ max_time)%Qc as [He1 He2].
  { unfold band_end. case_decide as H; [done|].
    split; [by apply Qclt_le_weak|by apply Qcnot_lt_le]. }
  assert (band_start min_time stage ≤ band_end max_time stage)%Qc as Hle.
  { unfold band_start, band_end. repeat case_decide; try done.
    - by apply Qclt_le_weak.
    - by apply Qclt_le_weak. }
  split_and!.
  - by apply to_svg_x_bounds.
  - by apply to_svg_x_mono.
  - by apply to_svg_x_bounds.
Qed.

Lemma vu_band_within_plot_witness :
  (Qc_of_Z 1700000000 ≤ Qc_of_Z 1700000120)%Qc
  ∧ (start_timestamp early_stage ≤ end_timestamp early_stage)%Qc
  ∧ ¬ (Qc_of_Z 1700000120 ≤ start_timestamp early_stage
       ∨ end_timestamp early_stage ≤ Qc_of_Z 1700000000)%Qc
  ∧ (Qc_of_Z MARGIN_LEFT
     ≤ to_svg_x (Qc_of_Z 1700000000)
         (time_range_of (Qc_of_Z 1700000000) (Qc_of_Z 1700000120))
         (band_start (Qc_of_Z 1700000000) early_stage))%Qc.
Proof.
  assert (Qc_of_Z 1700000000 ≤ Qc_of_Z 1700000120)%Qc as Hmm by (by vm_compute).
  assert (start_timestamp early_stage ≤ end_timestamp early_stage)%Qc as Hse
    by (by vm_compute).
  assert (¬ (Qc_of_Z 1700000120 ≤ start_timestamp early_stage
             ∨ end_timestamp early_stage ≤ Qc_of_Z 1700000000)%Qc) as Hvis.
  { intros [H|H]; by vm_compute in H. }
  split; [exact Hmm|]. split; [exact Hse|]. split; [exact Hvis|].
  exact (proj1 (vu_band_within_plot _ _ early_stage Hmm Hse Hvis)).
Defined.

(** ** The grid lines *)

Lemma grid_line_positions (y_max num_y_lines i : Z) :
  grid_line y_max num_y_lines i
  = let y_val := (Qc_of_Z i / Qc_of_Z num_y_lines * Qc_of_Z y_max)%Qc in
    let y_pos := to_svg_y y_max y_val in
    [ Py.lit "<line x1='" +:+ Py.str MARGIN_LEFT +:+ Py.lit "' y1='"
        +:+ Py.fmt_1f y_pos +:+ Py.lit "' "
        +:+ Py.lit "x2='" +:+ Py.str (WIDTH - MARGIN_RIGHT) +:+ Py.lit "' y2='"
        +:+ Py.fmt_1f y_pos +:+ Py.lit "' "
        +:+ Py.lit "stroke='#e5e5e5' stroke-width='1'/>";
      Py.lit "<text x='" +:+ Py.str (MARGIN_LEFT - 8) +:+ Py.lit "' y='"
        +:+ Py.fmt_1f (y_pos + Qc_of_Z 4)%Qc +:+ Py.lit "' "
        +:+ Py.lit "text-anchor='end' font-size='11' fill='#888'>"
        +:+ Py.str (Py.int_of_float y_val) +:+ "</text>" ].
Proof. reflexivity. Qed.

(** X15.  For a positive [y_max] that is a multiple of 5, as every multiple
    of 10 is, grid line [i] is labelled [i] times a fifth of [y_max] and
    drawn [44 * i] pixels above the bottom of the plot area. *)
Theorem grid_lines_evenly_spaced (y_max i : Z) :
  0 < y_max → y_max `mod` 5 = 0 →
  let y_val := (Qc_of_Z i / Qc_of_Z 5 * Qc_of_Z y_max)%Qc in
  Py.int_of_float y_val = i * (y_max `div` 5)
  ∧ to_svg_y y_max y_val = Qc_of_Z (MARGIN_TOP + GRAPH_HEIGHT - 44 * i).
Proof.
  intros Hpos Hmod y_val.
  assert (y_max = 5 * (y_max `div` 5)) as Hk.
  { pose proof (Z.div_mod y_max 5 ltac:(lia)). lia. }
  assert (Qc_of_Z y_max ≠ 0%Qc) as Hne.
  { intros H. apply (Qclt_not_eq 0 (Qc_of_Z y_max)); [by apply Qc_of_Z_pos|done]. }
  assert (Qc_of_Z 5 ≠ 0%Qc) as H5 by done.
  split.
  - assert (y_val = Qc_of_Z (i * (y_max `div` 5))) as ->; [|apply int_of_float_Z].
    subst y_val. rewrite Hk at 1. rewrite !Z2Qc_inj_mul. field. done.
  - unfold to_svg_y. subst y_val.
    change (MARGIN_TOP + GRAPH_HEIGHT - 44 * i) with (270 - 44 * i).
    change (Qc_of_Z MARGIN_TOP) with (Qc_of_Z 50).
    change (Qc_of_Z GRAPH_HEIGHT) with (Qc_of_Z 220).
    rewrite Z2Qc_inj_sub, Z2Qc_inj_mul.
    apply Qc_is_canon. to_Q.
    change (inject_Z 50) with 50%Q. change (inject_Z 220) with 220%Q.
    change (inject_Z 270) with 270%Q. change (inject_Z 44) with 44%Q.
    change (inject_Z 5) with 5%Q.
    assert (¬ inject_Z y_max == 0)%Q as Hy.
    { intros H. apply Hne. apply Qc_is_canon. by rewrite this_of_Z. }
    field. done.
Qed.

Lemma grid_lines_evenly_spaced_witness :
  0 < 40 ∧ 40 `mod` 5 = 0
  ∧ Py.int_of_float (Qc_of_Z 3 / Qc_of_Z 5 * Qc_of_Z 40)%Qc = 3 * (40 `div` 5)
  ∧ to_svg_y 40 (Qc_of_Z 3 / Qc_of_Z 5 * Qc_of_Z 40)%Qc
    = Qc_of_Z (MARGIN_TOP + GRAPH_HEIGHT - 44 * 3).
Proof.
  split; [lia|]. split; [reflexivity|].
  exact (grid_lines_evenly_spaced 40 3 ltac:(lia) ltac:(reflexivity)).
Defined.

(** ** Pod groups and colours *)

Lemma elem_of_sorted (name : string) (l : list string) :
  name ∈ Py.sorted l ↔ name ∈ l.
Proof. unfold Py.sorted. by rewrite merge_sort_Permutation. Qed.

Lemma NoDup_sorted (l : list string) : NoDup l → NoDup (Py.sorted l).
Proof. unfold Py.sorted. by rewrite merge_sort_Permutation. Qed.

(** X16.  Every pod name of the dictionary is in a group that is drawn: in
    the foo group exactly when its lowered name holds "foo", in the bar
    group exactly when it holds "bar", hence in both when it holds both, and
    in the third group exactly when it holds neither; with distinct keys no
    group lists a name twice. *)
Theorem pod_groups_cover (per_pod_data : series_dict) (pod_name : string) :
  (pod_name ∈ foo_pods per_pod_data
   ↔ pod_name ∈ keys per_pod_data ∧ holds "foo" pod_name)
  ∧ (pod_name ∈ bar_pods per_pod_data
     ↔ pod_name ∈ keys per_pod_data ∧ holds "bar" pod_name)
  ∧ (pod_name ∈ other_pods per_pod_data
     ↔ pod_name ∈ keys per_pod_data
       ∧ ¬ holds "foo" pod_name ∧ ¬ holds "bar" pod_name)
  ∧ (NoDup (keys per_pod_data) →
     NoDup (foo_pods per_pod_data) ∧ NoDup (bar_pods per_pod_data)
     ∧ NoDup (other_pods per_pod_data)).
Proof.
  assert (pod_name ∈ foo_pods per_pod_data
          ↔ pod_name ∈ keys per_pod_data ∧ holds "foo" pod_name) as Hfoo.
  { unfold foo_pods. rewrite elem_of_sorted, list_elem_of_filter.
    unfold holds. tauto. }
  assert (pod_name ∈ bar_pods per_pod_data
          ↔ pod_name ∈ keys per_pod_data ∧ holds "bar" pod_name) as Hbar.
  { unfold bar_pods. rewrite elem_of_sorted, list_elem_of_filter.
    unfold holds. tauto. }
  split_and!; [done|done| |].
  - unfold other_pods. rewrite elem_of_sorted, list_elem_of_filter.
    rewrite Hfoo, Hbar. tauto.
  - intros Hnd. split_and!; apply NoDup_sorted; by apply NoDup_filter.
Qed.

Example pod_in_two_groups :
  foo_pods [("foobar-1", one_point)] = ["foobar-1"]
  ∧ bar_pods [("foobar-1", one_point)] = ["foobar-1"]
  ∧ other_pods [("foobar-1", one_point)] = [].
Proof. by vm_compute. Qed.

Lemma index_mod_Z {A} (l : list A) (i : Z) :
  l ≠ [] → ∃ x, Py.index l (i `mod` Py.len_list l) = Some x ∧ x ∈ l.
Proof.
  intros Hl. unfold Py.index, Py.len_list.
  assert (0 < Z.of_nat (length l)) as Hlen by (destruct l; [done|simpl; lia]).
  pose proof (Z.mod_pos_bound i _ Hlen) as Hb.
  rewrite bool_decide_eq_true_2 by lia.
  destruct (lookup_lt_is_Some_2 l (Z.to_nat (i `mod` Z.of_nat (length l))))
    as [x Hx]; [lia|].
  exists x. split; [done|]. by eapply list_elem_of_lookup_2.
Qed.

(** X17.  [_get_pod_color] returns a colour for every name and every index,
    negative ones included: a green one exactly when the lowered name holds
    "bar" and not "foo", a purple one otherwise; and the colour repeats with
    period 3 in the index. *)
Theorem get_pod_color_palette (pod_name : string) (pod_index : Z) :
  ∃ color,
    _get_pod_color pod_name pod_index = Some color
    ∧ (if decide (¬ holds "foo" pod_name ∧ holds "bar" pod_name)
       then color ∈ BAR_COLORS else color ∈ FOO_COLORS)
    ∧ _get_pod_color pod_name (pod_index + 3) = Some color.
Proof.
  unfold _get_pod_color, holds.
  change (Py.len_list FOO_COLORS) with 3. change (Py.len_list BAR_COLORS) with 3.
  replace ((pod_index + 3) `mod` 3) with (pod_index `mod` 3)
    by (by rewrite <-(Z.mul_1_l 3) at 2; rewrite Z.mod_add).
  destruct (Py.contains "foo" (Py.lower pod_name)),
    (Py.contains "bar" (Py.lower pod_name)); simpl.
  - destruct (index_mod_Z FOO_COLORS pod_index ltac:(done)) as (c & Hc & Hin).
    exists c. split_and!; [done| |done].
    first [done | case_decide as Hd; simpl in Hd; first [done | tauto]].
  - destruct (index_mod_Z FOO_COLORS pod_index ltac:(done)) as (c & Hc & Hin).
    exists c. split_and!; [done| |done].
    first [done | case_decide as Hd; simpl in Hd; first [done | tauto]].
  - destruct (index_mod_Z BAR_COLORS pod_index ltac:(done)) as (c & Hc & Hin).
    exists c. split_and!; [done| |done].
    first [done | case_decide as Hd; simpl in Hd; first [done | tauto]].
  - destruct (index_mod_Z FOO_COLORS pod_index ltac:(done)) as (c & Hc & Hin).
    exists c. split_and!; [done| |done].
    first [done | case_decide as Hd; simpl in Hd; first [done | tauto]].
Qed.

(** ** The placeholder image *)

(** The header is what every image of a non-empty series starts with. *)
Lemma generate_resource_graph_header cumulative_points per_pod_data vu_stages
    title y_label :
  cumulative_points ≠ [] →
  ∃ rest,
    generate_resource_graph cumulative_points per_pod_data vu_stages title y_label
    = Some (Py.join header +:+ rest).
Proof.
  intros Hne. unfold generate_resource_graph.
  destruct cumulative_points as [|first rest]; [done|].
  destruct (Py.min (timestamp <$> first :: rest)) as [min_time|] eqn:Emin; [|done].
  destruct (Py.max (timestamp <$> first :: rest)) as [max_time|] eqn:Emax; [|done].
  cbn [mbind option_bind] in *. cbv zeta in *.
  match goal with |- context [vu_bands ?a ?b ?c ?d] =>
    destruct (vu_bands_total a b c d) as [bands ->] end.
  match goal with |- context [cumulative_area ?a ?b ?c ?d] =>
    destruct (cumulative_area_total a b c d) as [area ->] end.
  match goal with |- context [pod_lines ?a ?b ?c ?d] =>
    destruct (pod_lines_total a b c d) as [lines ->] end.
  cbn [mbind option_bind]. eexists.
  rewrite <-!(assoc_L (++)). rewrite join_app. reflexivity.
Qed.

Lemma generate_resource_graph_total cumulative_points per_pod_data vu_stages
    title y_label :
  is_Some (generate_resource_graph cumulative_points per_pod_data vu_stages
             title y_label).
Proof.
  destruct (decide (cumulative_points = [])) as [->|Hne]; [done|].
  destruct (generate_resource_graph_header cumulative_points per_pod_data
              vu_stages title y_label Hne) as [rest ->]. done.
Qed.

(** The image of a non-empty series differs from the placeholder after the
    style attribute. *)
Lemma graph_of_points_not_placeholder cumulative_points per_pod_data vu_stages
    title y_label :
  cumulative_points ≠ [] →
  generate_resource_graph cumulative_points per_pod_data vu_stages title y_label
  ≠ Some (_empty_graph title "No data available").
Proof.
  intros Hne Heq.
  destruct (generate_resource_graph_header cumulative_points per_pod_data
              vu_stages title y_label Hne) as [rest Hr].
  rewrite Hr in Heq. clear Hr.
  injection Heq as Heq. revert Heq.
  unfold _empty_graph. cbv zeta.
  generalize (title +:+ "</text>" +:+ String "010" "" +:+
    Py.lit "  <rect x='40' y='50' width='" +:+ Py.str (WIDTH - 80) +:+
    Py.lit "' height='" +:+ Py.str (HEIGHT - 80) +:+
    Py.lit "' fill='#ffffff' stroke='#e5e5e5' rx='8'/>" +:+ String "010" "" +:+
    Py.lit "  <text x='" +:+ Py.fmt_1f (Qc_of_Z WIDTH / Qc_of_Z 2)%Qc +:+
    Py.lit "' y='" +:+ Py.fmt_1f (Qc_of_Z HEIGHT / Qc_of_Z 2)%Qc +:+
    Py.lit "' text-anchor='middle' font-size='13' fill='#888'>" +:+
    "No data available" +:+ "</text>" +:+ String "010" "" +:+ "</svg>").
  intros tail. vm_compute. discriminate.
Qed.

(** X18.  [generate_resource_graph] returns the placeholder image exactly
    when the cumulative series is empty, whatever the per-pod series, the
    stage windows, the title and the label. *)
Theorem placeholder_iff_no_data (cumulative_points : list TimeSeriesPoint)
    (per_pod_data : series_dict) (vu_stages : list VUStage)
    (title y_label : string) :
  generate_resource_graph cumulative_points per_pod_data vu_stages title y_label
  = Some (_empty_graph title "No data available")
  ↔ cumulative_points = [].
Proof.
  split; [|by intros ->].
  intros Heq. destruct (decide (cumulative_points = [])) as [|Hne]; [done|].
  by destruct (graph_of_points_not_placeholder cumulative_points per_pod_data
                 vu_stages title y_label Hne).
Qed.

Section Reports.
Import HTMLReportGenerator JUnitReportGenerator.

Lemma collected_cumulative_empty
    (response : option (list raw_series * list raw_series)) :
  (cumulative_cpu (collect_per_pod_time_series response) = []
   ↔ (collected_points response).1 = [])
  ∧ (cumulative_memory (collect_per_pod_time_series response) = []
     ↔ (collected_points response).2 = []).
Proof.
  destruct response as [[cpu_result mem_result]|]; [|done].
  rewrite collect_per_pod_time_series_eq. simpl.
  split; apply collect_series_empty.
Qed.

(** X19.  On the collected time series [generate] of the HTML report always
    gets its two graphs, and a graph is the placeholder exactly when the
    result it is drawn from has no kept sample; a failed query gives two
    placeholders. *)
Theorem report_graphs_of_collected
    (response : option (list raw_series * list raw_series))
    (vu_stages : option (list VUStage)) :
  ∃ cpu_graph memory_graph,
    graphs (Some (collect_per_pod_time_series response)) vu_stages
    = Some (cpu_graph, memory_graph)
    ∧ (cpu_graph = _empty_graph "CPU Usage Over Time" "No data available"
       ↔ (collected_points response).1 = [])
    ∧ (memory_graph = _empty_graph "Memory Usage Over Time" "No data available"
       ↔ (collected_points response).2 = []).
Proof.
  destruct (collected_cumulative_empty response) as [Hcpu Hmem].
  unfold graphs, generate_cpu_graph, generate_memory_graph.
  generalize dependent (collect_per_pod_time_series response). intros data Hcpu Hmem.
  generalize (default [] vu_stages). intros stages_for_graph.
  destruct (generate_resource_graph_total (cumulative_cpu data) (per_pod_cpu data)
              stages_for_graph "CPU Usage Over Time" "CPU (millicores)")
    as [cpu_graph Hc].
  destruct (generate_resource_graph_total (cumulative_memory data)
              (per_pod_memory data) stages_for_graph "Memory Usage Over Time"
              "Memory (MB)") as [memory_graph Hm].
  exists cpu_graph, memory_graph. rewrite Hc, Hm. split; [done|].
  rewrite <-Hcpu, <-Hmem. split.
  - split.
    + intros ->. destruct (decide (cumulative_cpu data = [])) as [|Hne]; [done|].
      by destruct (graph_of_points_not_placeholder _ _ _ _ _ Hne Hc).
    + intros Hnil. rewrite Hnil in Hc. by injection Hc as <-.
  - split.
    + intros ->. destruct (decide (cumulative_memory data = [])) as [|Hne]; [done|].
      by destruct (graph_of_points_not_placeholder _ _ _ _ _ Hne Hm).
    + intros Hnil. rewrite Hnil in Hm. by injection Hm as <-.
Qed.

(** ** The verdicts of the two reports *)

Example fmt_f_samples :
  Py.fmt_f 2 (Q2Qc (12345 # 1000)) = "12.34"
  ∧ Py.fmt_f 2 (Q2Qc (5 # 1000)) = "0.00"
  ∧ Py.fmt_f 2 (Q2Qc (15 # 1000)) = "0.02"
  ∧ Py.fmt_f 4 (Q2Qc (1 # 100) * Qc_of_Z 100)%Qc = "1.0000"
  ∧ Py.fmt_f 2 (Q2Qc (-1 # 4)) = "-0.25".
Proof. by vm_compute. Qed.

(** X20.  A status that the HTML report shows as success is a passed JUnit
    test, for the P95 latency and for the error rate; the report shows
    danger where the test passes exactly when the value equals the
    threshold, 500 ms and 0.01. *)
Theorem html_status_and_junit_verdict (metrics : K6Metrics) :
  ∃ p95 err avail avg,
    _evaluate_tests metrics = [p95; err; avail; avg]
    ∧ (p95_status metrics = "success" → passed p95 = true)
    ∧ (error_status metrics = "success" → passed err = true)
    ∧ (p95_status metrics = "danger" ∧ passed p95 = true
       ↔ p95_latency_ms metrics = Qc_of_Z 500)
    ∧ (error_status metrics = "danger" ∧ passed err = true
       ↔ error_rate metrics = (Qc_of_Z 1 / Qc_of_Z 100)%Qc).
Proof.
  eexists _, _, _, _. split; [done|]. simpl.
  unfold p95_status, error_status, THRESHOLDS_p95_latency_ms, THRESHOLDS_error_rate.
  generalize (p95_latency_ms metrics) (error_rate metrics). intros p e.
  generalize (Qc_of_Z 500) (Qc_of_Z 1 / Qc_of_Z 100)%Qc. intros tp te.
  split_and!.
  - case_decide as H; [|done]. intros _. apply bool_decide_eq_true.
    by apply Qclt_le_weak.
  - case_decide as H; [|done]. intros _. apply bool_decide_eq_true.
    by apply Qclt_le_weak.
  - rewrite bool_decide_eq_true. case_decide as H; split.
    + by intros [? _].
    + intros ->. by apply Qclt_not_eq in H.
    + intros [_ Hle]. apply Qcnot_lt_le in H. by apply Qcle_antisym.
    + intros ->. split; [done|]. apply Qcle_refl.
  - rewrite bool_decide_eq_true. case_decide as H; split.
    + by intros [? _].
    + intros ->. by apply Qclt_not_eq in H.
    + intros [_ Hle]. apply Qcnot_lt_le in H. by apply Qcle_antisym.
    + intros ->. split; [done|]. apply Qcle_refl.
Qed.

(** With no answer at all, three of the four tests pass. *)
Example junit_empty_backend :
  passed <$> _evaluate_tests (collect_k6_metrics (λ _, None))
  = [true; true; false; true]
  ∧ generate_counts (collect_k6_metrics (λ _, None)) = (3, 1)
  ∧ testsuite_counts (_evaluate_tests (collect_k6_metrics (λ _, None)))
    = ("4", "1").
Proof. by vm_compute. Qed.

Lemma filter_count {A} (P : A → Prop) `{∀ x, Decision (P x)} (l : list A) :
  (length (filter P l) + length (filter (λ x, ¬ P x) l) = length l)%nat.
Proof.
  induction l as [|x l IH]; [done|].
  rewrite !filter_cons. destruct (decide (P x)).
  - rewrite decide_False by tauto. simpl. lia.
  - rewrite decide_True by done. simpl. lia.
Qed.

(** X22.  The [failures] attribute that [_write_junit_xml] writes is the
    number of failed tests that [generate] logs, the [tests] attribute is 4,
    and the passed and the failed tests add up to 4. *)
Theorem junit_counts_agree (k6_metrics : K6Metrics) :
  testsuite_counts (_evaluate_tests k6_metrics)
  = ("4", Py.str (generate_counts k6_metrics).2)
  ∧ (generate_counts k6_metrics).1 + (generate_counts k6_metrics).2 = 4
  ∧ 0 ≤ (generate_counts k6_metrics).1 ≤ 4.
Proof.
  unfold testsuite_counts, generate_counts. cbv zeta. cbn [fst snd].
  pose proof (filter_count (λ r, Is_true (passed r)) (_evaluate_tests k6_metrics))
    as Hc.
  pose proof (length_filter (λ r, Is_true (passed r)) (_evaluate_tests k6_metrics)) as Hl.
  change (length (_evaluate_tests k6_metrics)) with 4%nat in *.
  unfold Py.len_list.
  change (length (_evaluate_tests k6_metrics)) with 4%nat in *.
  split_and!; [|lia..].
  f_equal. f_equal. lia.
Qed.

End Reports.
